(** * PhonePrefix: a shallow embedding of the country-code picker

    The widget of [phone-prefix.ts] is a class whose methods mutate the
    object's fields and the page's DOM.  The embedding threads one record
    [State] (the fields of [this] together with the part of the browser the
    methods touch) through a state-and-exception monad [M]: a method returns
    either a value or the exception it threw, and in both cases the state it
    left behind. *)

From Stdlib Require Import Ascii String.
From stdpp Require Import base decidable option list strings gmap functions.

Set Default Proof Using "Type".

(** ** JavaScript strings

    A string is a sequence of code units; the model uses Rocq strings, so
    a code unit is one of the 256 characters of Latin-1, the range in which
    the key names, ISO codes and dialling codes of the widget live. *)

Module JsString.

Definition codeOf (c : ascii) : nat := nat_of_ascii c.

Definition inRange (lo hi n : nat) : bool := (lo <=? n) && (n <=? hi).

(** The character classes [[a-zA-Z]] and [[0-9]]. *)
Definition charIsLetter (c : ascii) : bool :=
  inRange 65 90 (codeOf c) || inRange 97 122 (codeOf c).

Definition charIsDigit (c : ascii) : bool := inRange 48 57 (codeOf c).

Definition charIsLower (c : ascii) : bool := inRange 97 122 (codeOf c).

(** [String.prototype.toLowerCase] on one code unit: A-Z, and the
    upper-case letters of Latin-1 (U+00C0..U+00DE except the
    multiplication sign U+00D7), move up by 32. *)
Definition charToLower (c : ascii) : ascii :=
  let n := codeOf c in
  if inRange 65 90 n || (inRange 192 222 n && negb (n =? 215))
  then ascii_of_nat (n + 32) else c.

Fixpoint toLowerCase (s : string) : string :=
  match s with
  | EmptyString => EmptyString
  | String c r => String (charToLower c) (toLowerCase r)
  end.

(** [s.startsWith(p)] *)
Fixpoint startsWith (s p : string) : bool :=
  match p, s with
  | EmptyString, _ => true
  | String _ _, EmptyString => false
  | String a p', String b s' => bool_decide (a = b) && startsWith s' p'
  end.

(** [s.slice(0, -1)]: everything but the last code unit. *)
Fixpoint sliceInit (s : string) : string :=
  match s with
  | EmptyString => EmptyString
  | String c EmptyString => EmptyString
  | String c r => String c (sliceInit r)
  end.

Fixpoint allChars (p : ascii → bool) (s : string) : bool :=
  match s with
  | EmptyString => true
  | String c r => p c && allChars p r
  end.

(** Maximal runs of characters that are not [sep]:
    [text.match(/[^\r\n]+/g)] with [sep] true on CR and LF. *)
Fixpoint runsAux (sep : ascii → bool) (cur : string) (s : string) : list string :=
  match s with
  | EmptyString => if bool_decide (cur = EmptyString) then [] else [cur]
  | String c r =>
      if sep c
      then (if bool_decide (cur = EmptyString) then [] else [cur]) ++ runsAux sep EmptyString r
      else runsAux sep (cur +:+ String c EmptyString) r
  end.

Definition runs (sep : ascii → bool) (s : string) : list string :=
  runsAux sep EmptyString s.

(** [s.split(d)] for a one-character separator: the pieces between the
    separators, empty pieces included. *)
Fixpoint splitAux (d : ascii) (cur : string) (s : string) : list string :=
  match s with
  | EmptyString => [cur]
  | String c r =>
      if bool_decide (c = d)
      then cur :: splitAux d EmptyString r
      else splitAux d (cur +:+ String c EmptyString) r
  end.

Definition split (d : ascii) (s : string) : list string := splitAux d EmptyString s.

End JsString.

Import JsString.

(** [const isLetter = (key) => /^[a-zA-Z]$/.test(key)]: the anchors make the
    pattern match a string of exactly one letter. *)
Definition isLetter (key : string) : bool :=
  match key with
  | String c EmptyString => charIsLetter c
  | _ => false
  end.

(** [const isDigit = (key) => /^[0-9]$/.test(key)] *)
Definition isDigit (key : string) : bool :=
  match key with
  | String c EmptyString => charIsDigit c
  | _ => false
  end.

(** ** Data model *)

Record Country := mkCountry {
  name_common : string;
  flags_svg : string;
  idd_root : string;
  idd_suffixes : list string;
  cca2 : string
}.

(** A DOM node is named by a handle; [null] is [None]. *)
Definition handle := nat.

(** [type DropdownItem = { element: HTMLElement; country: Country }].  An
    item object is created once, in [renderOptions], around a fresh clone of
    the template, so two item objects are the same object exactly when they
    wrap the same element: [===] on items is equality of the handles. *)
Record DropdownItem := mkItem {
  element : handle;
  country : Country
}.

Global Instance Country_eq_dec : EqDecision Country.
Proof. solve_decision. Defined.

Global Instance DropdownItem_eq_dec : EqDecision DropdownItem.
Proof. solve_decision. Defined.

Definition sameItem (a b : DropdownItem) : bool :=
  bool_decide (element a = element b).

(** The attribute that marks the parts of the widget, and its values. *)
Definition dataPhonePrefixAttr : string := "data-phone-prefix-element".

Module dropdownElements.
Definition dropdownToggle : string := "w-dropdown-toggle".
Definition dropdownList : string := "w-dropdown-list".
Definition dropdownListOpen : string := "w--open".
Definition dropdownItemSelected : string := "w--current".
End dropdownElements.

(** ** The DOM, as far as the widget reads and writes it

    An element carries its class list and attributes.  What
    [querySelector] finds below it for the [flag] and [value] markers is kept
    with the element ([None] when there is no such descendant): [flag] is an
    image with [src] and [alt], [valueEl] a node with a [textContent].
    [inputValue] is the [value] of a form control, [children] the child
    elements in document order. *)
Record Image := mkImage { src : string; alt : string }.

Record Element := mkElement {
  classList : gset string;
  attributes : gmap string string;
  flag : option Image;
  valueEl : option string;
  inputValue : string;
  children : list handle
}.

Definition setClassList (v : gset string) (e : Element) : Element :=
  mkElement v (attributes e) (flag e) (valueEl e) (inputValue e) (children e).
Definition setAttributes (v : gmap string string) (e : Element) : Element :=
  mkElement (classList e) v (flag e) (valueEl e) (inputValue e) (children e).
Definition setFlag (v : option Image) (e : Element) : Element :=
  mkElement (classList e) (attributes e) v (valueEl e) (inputValue e) (children e).
Definition setValueEl (v : option string) (e : Element) : Element :=
  mkElement (classList e) (attributes e) (flag e) v (inputValue e) (children e).
Definition setInputValue (v : string) (e : Element) : Element :=
  mkElement (classList e) (attributes e) (flag e) (valueEl e) v (children e).
Definition setChildren (v : list handle) (e : Element) : Element :=
  mkElement (classList e) (attributes e) (flag e) (valueEl e) (inputValue e) v.

(** What the widget does to the world outside its own state. *)
Inductive Effect :=
| Fetched (url : string)
| Dispatched (target : handle) (type : string)
| PreventedDefault.

Global Instance Effect_eq_dec : EqDecision Effect.
Proof. solve_decision. Defined.

(** ** State: the fields of [PhonePrefix] and the browser around it *)
Record State := mkState {
  (* private fields of the class *)
  items : list DropdownItem;
  listIsOpen : bool;
  dropdownToggle : option handle;
  dropdownList : option handle;
  listEl : option handle;               (* the field [list] *)
  countryCodeInput : option handle;
  selectedItem : option DropdownItem;
  focusedItem : option DropdownItem;
  searchQuery : string;
  (* the browser *)
  nodes : handle → Element;
  nextHandle : handle;                  (* the next node to be created *)
  activeElement : option handle;        (* [document.activeElement] *)
  listening : bool;                     (* [addEventListeners] has run *)
  observing : bool;                     (* the mutation observer is installed *)
  effects : list Effect                 (* oldest first *)
}.

Definition setItems v s :=
  mkState v (listIsOpen s) (dropdownToggle s) (dropdownList s) (listEl s)
    (countryCodeInput s) (selectedItem s) (focusedItem s) (searchQuery s)
    (nodes s) (nextHandle s) (activeElement s) (listening s) (observing s) (effects s).
Definition setListIsOpen v s :=
  mkState (items s) v (dropdownToggle s) (dropdownList s) (listEl s)
    (countryCodeInput s) (selectedItem s) (focusedItem s) (searchQuery s)
    (nodes s) (nextHandle s) (activeElement s) (listening s) (observing s) (effects s).
Definition setDropdownToggle v s :=
  mkState (items s) (listIsOpen s) v (dropdownList s) (listEl s)
    (countryCodeInput s) (selectedItem s) (focusedItem s) (searchQuery s)
    (nodes s) (nextHandle s) (activeElement s) (listening s) (observing s) (effects s).
Definition setDropdownList v s :=
  mkState (items s) (listIsOpen s) (dropdownToggle s) v (listEl s)
    (countryCodeInput s) (selectedItem s) (focusedItem s) (searchQuery s)
    (nodes s) (nextHandle s) (activeElement s) (listening s) (observing s) (effects s).
Definition setListEl v s :=
  mkState (items s) (listIsOpen s) (dropdownToggle s) (dropdownList s) v
    (countryCodeInput s) (selectedItem s) (focusedItem s) (searchQuery s)
    (nodes s) (nextHandle s) (activeElement s) (listening s) (observing s) (effects s).
Definition setCountryCodeInput v s :=
  mkState (items s) (listIsOpen s) (dropdownToggle s) (dropdownList s) (listEl s)
    v (selectedItem s) (focusedItem s) (searchQuery s)
    (nodes s) (nextHandle s) (activeElement s) (listening s) (observing s) (effects s).
Definition setSelectedItem v s :=
  mkState (items s) (listIsOpen s) (dropdownToggle s) (dropdownList s) (listEl s)
    (countryCodeInput s) v (focusedItem s) (searchQuery s)
    (nodes s) (nextHandle s) (activeElement s) (listening s) (observing s) (effects s).
Definition setFocusedItem v s :=
  mkState (items s) (listIsOpen s) (dropdownToggle s) (dropdownList s) (listEl s)
    (countryCodeInput s) (selectedItem s) v (searchQuery s)
    (nodes s) (nextHandle s) (activeElement s) (listening s) (observing s) (effects s).
Definition setSearchQuery v s :=
  mkState (items s) (listIsOpen s) (dropdownToggle s) (dropdownList s) (listEl s)
    (countryCodeInput s) (selectedItem s) (focusedItem s) v
    (nodes s) (nextHandle s) (activeElement s) (listening s) (observing s) (effects s).
Definition setNodes v s :=
  mkState (items s) (listIsOpen s) (dropdownToggle s) (dropdownList s) (listEl s)
    (countryCodeInput s) (selectedItem s) (focusedItem s) (searchQuery s)
    v (nextHandle s) (activeElement s) (listening s) (observing s) (effects s).
Definition setNextHandle v s :=
  mkState (items s) (listIsOpen s) (dropdownToggle s) (dropdownList s) (listEl s)
    (countryCodeInput s) (selectedItem s) (focusedItem s) (searchQuery s)
    (nodes s) v (activeElement s) (listening s) (observing s) (effects s).
Definition setActiveElement v s :=
  mkState (items s) (listIsOpen s) (dropdownToggle s) (dropdownList s) (listEl s)
    (countryCodeInput s) (selectedItem s) (focusedItem s) (searchQuery s)
    (nodes s) (nextHandle s) v (listening s) (observing s) (effects s).
Definition setListening v s :=
  mkState (items s) (listIsOpen s) (dropdownToggle s) (dropdownList s) (listEl s)
    (countryCodeInput s) (selectedItem s) (focusedItem s) (searchQuery s)
    (nodes s) (nextHandle s) (activeElement s) v (observing s) (effects s).
Definition setObserving v s :=
  mkState (items s) (listIsOpen s) (dropdownToggle s) (dropdownList s) (listEl s)
    (countryCodeInput s) (selectedItem s) (focusedItem s) (searchQuery s)
    (nodes s) (nextHandle s) (activeElement s) (listening s) v (effects s).
Definition setEffects v s :=
  mkState (items s) (listIsOpen s) (dropdownToggle s) (dropdownList s) (listEl s)
    (countryCodeInput s) (selectedItem s) (focusedItem s) (searchQuery s)
    (nodes s) (nextHandle s) (activeElement s) (listening s) (observing s) v.

(** ** The monad of methods *)

Inductive Error :=
| TypeError (what : string)       (* a property of [null] or [undefined] was used *)
| NotFoundError                   (* [removeChild] of a node that is not a child *)
| FetchRejected                   (* the promise of [fetch] was rejected *)
| BodyRejected.                   (* [response.json()] or [response.text()] was rejected *)

Inductive Outcome (A : Type) :=
| Ret (a : A)
| Threw (e : Error).
Arguments Ret {A} a.
Arguments Threw {A} e.

Definition M (A : Type) : Type := State → Outcome A * State.

Global Instance M_ret : MRet M := λ A a s, (Ret a, s).
Global Instance M_bind : MBind M := λ A B f m s,
  match m s with
  | (Ret a, s') => f a s'
  | (Threw e, s') => (Threw e, s')
  end.

Definition gets {A} (f : State → A) : M A := λ s, (Ret (f s), s).
Definition modify (f : State → State) : M unit := λ s, (Ret tt, f s).
Definition throw {A} (e : Error) : M A := λ s, (Threw e, s).

(** [try { body } catch { handler }]: the handler runs in the state the
    body left when it threw. *)
Definition tryCatch {A} (body : M A) (handler : M A) : M A := λ s,
  match body s with
  | (Ret a, s') => (Ret a, s')
  | (Threw _, s') => handler s'
  end.

(** Using a reference that may be [null]: a [TypeError] naming it. *)
Definition deref (what : string) (r : option handle) : M handle :=
  match r with
  | Some h => mret h
  | None => throw (TypeError what)
  end.

Definition emit (e : Effect) : M unit :=
  modify (λ s, setEffects (effects s ++ [e]) s).

Definition unless (b : bool) (m : M unit) : M unit := if b then mret tt else m.
Definition when (b : bool) (m : M unit) : M unit := if b then m else mret tt.

(** ** DOM operations *)

Definition updEl (h : handle) (f : Element → Element) : M unit :=
  modify (λ s, setNodes (<[h := f (nodes s h)]> (nodes s)) s).

(** [el.setAttribute(name, value)] *)
Definition setAttribute (h : handle) (name value : string) : M unit :=
  updEl h (λ e, setAttributes (<[name := value]> (attributes e)) e).

(** [el.classList.toggle(cls, force)] *)
Definition classListToggle (h : handle) (cls : string) (force : bool) : M unit :=
  updEl h (λ e, setClassList
    (if force then {[cls]} ∪ classList e else classList e ∖ {[cls]}) e).

(** Writing [src] and [alt] of the image [querySelector] found for the
    [flag] marker below [h]; a [TypeError] when it found none. *)
Definition setFlagSrc (what : string) (h : handle) (v : string) : M unit :=
  el ← gets (λ s, nodes s h);
  match flag el with
  | Some img => updEl h (setFlag (Some (mkImage v (alt img))))
  | None => throw (TypeError what)
  end.

Definition setFlagAlt (what : string) (h : handle) (v : string) : M unit :=
  el ← gets (λ s, nodes s h);
  match flag el with
  | Some img => updEl h (setFlag (Some (mkImage (src img) v)))
  | None => throw (TypeError what)
  end.

(** Writing [textContent] of the node found for the [value] marker. *)
Definition setValueText (what : string) (h : handle) (v : string) : M unit :=
  el ← gets (λ s, nodes s h);
  match valueEl el with
  | Some _ => updEl h (setValueEl (Some v))
  | None => throw (TypeError what)
  end.

Definition hasMarker (d : handle → Element) (v : string) (h : handle) : bool :=
  bool_decide (attributes (d h) !! dataPhonePrefixAttr = Some v).

(** The descendants of [h] in document order: each child, followed by its
    own descendants, down to [depth] levels below [h]. *)
Fixpoint descendants (depth : nat) (d : handle → Element) (h : handle) : list handle :=
  match depth with
  | 0 => []
  | S depth' => flat_map (λ c, c :: descendants depth' d c) (children (d h))
  end.

(** [parent.querySelector('[data-phone-prefix-element="v"]')]: the first
    descendant of [parent], in document order, that carries the marker.
    No tree of handles below [bound] is deeper than [bound]. *)
Definition querySelectorMarker (bound : nat) (d : handle → Element) (parent : handle)
  (v : string) : option handle :=
  List.find (hasMarker d v) (descendants bound d parent).

(** [tpl.cloneNode(true)]: a new node with the content of [tpl], not yet
    in the document.  The flag and value parts of an item are kept with the
    element, so they are copied with it. *)
Definition cloneNode (tpl : handle) : M handle := λ s,
  let n := nextHandle s in
  (Ret n, setNextHandle (S n) (setNodes (<[n := nodes s tpl]> (nodes s)) s)).

Definition appendChild (parent child : handle) : M unit :=
  updEl parent (λ e, setChildren (children e ++ [child]) e).

Definition removeChild (parent child : handle) : M unit :=
  el ← gets (λ s, nodes s parent);
  if bool_decide (child ∈ children el)
  then updEl parent (setChildren (List.filter (λ h, negb (bool_decide (h = child))) (children el)))
  else throw NotFoundError.

(** Which item listens on element [h]: the [focusin], [focusout] and
    [click] listeners are closures over the item they were added for. *)
Definition itemOfElement (its : list DropdownItem) (h : handle) : option DropdownItem :=
  List.find (λ it, bool_decide (element it = h)) its.

(** [focusout] on [h]: [this.focusedItem = undefined] *)
Definition onFocusOut (h : handle) : M unit := λ s,
  if listening s then
    match itemOfElement (items s) h with
    | Some _ => (Ret tt, setFocusedItem None s)
    | None => (Ret tt, s)
    end
  else (Ret tt, s).

(** [focusin] on [h]: [this.focusedItem = item] *)
Definition onFocusIn (h : handle) : M unit := λ s,
  if listening s then
    match itemOfElement (items s) h with
    | Some it => (Ret tt, setFocusedItem (Some it) s)
    | None => (Ret tt, s)
    end
  else (Ret tt, s).

(** [el.focus()]: nothing when [el] has the focus already; otherwise the
    element that had it receives [focusout], [el] becomes the active
    element and receives [focusin].  The elements of the widget are taken
    to be focusable. *)
Definition focus (h : handle) : M unit :=
  cur ← gets activeElement;
  if bool_decide (cur = Some h) then mret tt
  else
    match cur with Some old => onFocusOut old | None => mret tt end;;
    modify (setActiveElement (Some h));;
    onFocusIn h.

(** [el.dispatchEvent(new Event(type, { bubbles: true }))]: the listeners
    belong to the host page, the model records the event. *)
Definition dispatchEvent (h : handle) (type : string) : M unit :=
  emit (Dispatched h type).

(** ** The network *)

Record Response := mkResponse {
  json : option (list Country);    (* [None]: [response.json()] rejects *)
  text : option string             (* [None]: [response.text()] rejects *)
}.

(** What [fetch] answers for a URL; [None] is a rejected promise. *)
Definition Network := string → option Response.

Definition fetch (net : Network) (url : string) : M Response :=
  emit (Fetched url);;
  match net url with
  | Some r => mret r
  | None => throw FetchRejected
  end.

Definition awaitBody {A} (body : option A) : M A :=
  match body with
  | Some a => mret a
  | None => throw BodyRejected
  end.

(** ** The methods of [PhonePrefix] *)

Record KeyboardEvent := mkKey { key : string; shiftKey : bool }.

(** The template literal
    [`${country.idd.root}${country.idd.suffixes.length === 1 ? country.idd.suffixes[0] : ""}`],
    written out three times in the class. *)
Definition countryCode (c : Country) : string :=
  idd_root c +:+
  (if length (idd_suffixes c) =? 1 then default "" (idd_suffixes c !! 0) else "").

(** JavaScript truthiness of [string | undefined], and [a || b]. *)
Definition truthy (v : option string) : bool :=
  match v with
  | Some s => negb (bool_decide (s = ""))
  | None => false
  end.

Definition jsOr (a b : option string) : option string := if truthy a then a else b.

Definition countriesUrl : string :=
  "https://restcountries.com/v3.1/all?fields=name,cca2,idd,flags".
Definition traceUrl : string := "https://www.cloudflare.com/cdn-cgi/trace".

Definition fetchCountries (net : Network) : M (list Country) :=
  tryCatch
    (response ← fetch net countriesUrl;
     awaitBody (json response))
    (mret []).

Definition isLineBreak (c : ascii) : bool :=
  bool_decide (c = "013"%char) || bool_decide (c = "010"%char).

(** [text.match(/[^\r\n]+/g)?.find(line => line.startsWith("loc"))] *)
Definition findLocLine (t : string) : option string :=
  match runs isLineBreak t with
  | [] => None
  | lines => List.find (λ line, startsWith line "loc") lines
  end.

Definition fetchUserLocation (net : Network) : M (option string) :=
  tryCatch
    (response ← fetch net traceUrl;
     t ← awaitBody (text response);
     let locLine := findLocLine t in
     mret (if truthy locLine
           then split "="%char (default "" locLine) !! 1
           else None))
    (mret None).

Definition createCountryItem (c : Country) (listItemTemplate : handle) : M handle :=
  itemElement ← cloneNode listItemTemplate;
  setFlagSrc "flag" itemElement (flags_svg c);;
  setFlagAlt "flag" itemElement (name_common c +:+ " Flag");;
  setValueText "value" itemElement (cca2 c +:+ " (" +:+ countryCode c +:+ ")");;
  setAttribute itemElement "aria-label" (name_common c);;
  setAttribute itemElement "title" (name_common c);;
  mret itemElement.

Definition renderOptions (countries : list Country) : M unit :=
  l ← gets listEl ≫= deref "list";
  listItem ← gets (λ s, querySelectorMarker (nextHandle s) (nodes s) l "item");
  match listItem with
  | None => mret tt
  | Some listItem =>
      its ← mapM (λ c,
               itemElement ← createCountryItem c listItem;
               appendChild l itemElement;;
               mret (mkItem itemElement c)) countries;
      modify (setItems its);;
      removeChild l listItem
  end.

Definition clearSearchQuery : M unit := modify (setSearchQuery "").

Definition closeDropdown (focusToggle : bool) : M unit :=
  when focusToggle (
    t ← gets dropdownToggle ≫= deref "dropdownToggle";
    focus t);;
  t ← gets dropdownToggle ≫= deref "dropdownToggle";
  dispatchEvent t "click";;
  dispatchEvent t "mouseup".

Definition toggleItemSelected (item : DropdownItem) (isSelected : bool) : M unit :=
  classListToggle (element item) dropdownElements.dropdownItemSelected isSelected;;
  setAttribute (element item) "aria-selected" (if isSelected then "true" else "false").

Definition updateDropdownToggle (item : DropdownItem) (toggle : option handle) : M unit :=
  let c := country item in
  let countryName := name_common c in
  t ← deref "dropdownToggle" toggle;
  setFlagSrc "dropdownToggleFlag" t (flags_svg c);;
  setFlagAlt "dropdownToggleFlag" t (countryName +:+ " Flag");;
  setValueText "dropdownToggleValue" t (countryCode c);;
  setAttribute t "aria-label" countryName.

(** [this.selectedItem === item] *)
Definition isSelectedItem (sel : option DropdownItem) (item : DropdownItem) : bool :=
  match sel with
  | Some p => sameItem p item
  | None => false
  end.

Definition handleItemSelect (item : DropdownItem) : M unit :=
  sel ← gets selectedItem;
  unless (isSelectedItem sel item) (
    match sel with
    | Some previous => toggleItemSelected previous false
    | None => mret tt
    end;;
    toggleItemSelected item true;;
    modify (setSelectedItem (Some item));;
    (gets dropdownToggle ≫= updateDropdownToggle item);;
    input ← gets countryCodeInput;
    match input with
    | Some i => updEl i (setInputValue (cca2 (country item)))
    | None => mret tt
    end;;
    open ← gets listIsOpen;
    when open (closeDropdown true)).

(** [el.click()]: the click listener added for the item of [el] runs
    [handleItemSelect]; what a listener throws is reported by the browser
    and does not reach the caller of [click]. *)
Definition click (h : handle) : M unit :=
  on ← gets listening;
  its ← gets items;
  match itemOfElement its h with
  | Some it => when on (tryCatch (handleItemSelect it) (mret tt))
  | None => mret tt
  end.

Definition addEventListeners : M unit :=
  _ ← gets dropdownList ≫= deref "dropdownList";
  modify (setListening true).

(** The callback handed to [MutationObserver]. *)
Definition onDropdownListMutation : M unit :=
  dl ← gets dropdownList ≫= deref "dropdownList";
  open ← gets (λ s, bool_decide
            (dropdownElements.dropdownListOpen ∈ classList (nodes s dl)));
  modify (setListIsOpen open);;
  when open (
    clearSearchQuery;;
    sel ← gets selectedItem;
    match sel with
    | Some it => focus (element it)
    | None =>
        its ← gets items;
        match its !! 0 with
        | Some it => focus (element it)
        | None => throw (TypeError "items[0]")
        end
    end).

Definition observeDropdownList : M unit :=
  _ ← gets dropdownList ≫= deref "dropdownList";
  modify (setObserving true).

(** The predicate of [this.items.find] in [handleDropdownSearch]. *)
Definition matchesQuery (q : string) (item : DropdownItem) : bool :=
  let code := countryCode (country item) in
  let searchTerm := toLowerCase q in
  startsWith (toLowerCase code) ("+" +:+ searchTerm)
  || startsWith (toLowerCase (cca2 (country item))) searchTerm
  || startsWith (toLowerCase (name_common (country item))) searchTerm.

Definition handleDropdownSearch (e : KeyboardEvent) : M unit :=
  open ← gets listIsOpen;
  unless (negb open) (
    q ← gets searchQuery;
    (if bool_decide (key e = "Backspace") then
       modify (setSearchQuery (sliceInit q))
     else if (String.length (key e) =? 1) && (isLetter (key e) || isDigit (key e)) then
       if isDigit (key e) && isLetter q then
         modify (setSearchQuery (key e))
       else if isLetter (key e) then
         if isDigit q then modify (setSearchQuery (key e))
         else modify (setSearchQuery (q +:+ toLowerCase (key e)))
       else if isDigit (key e) then
         modify (setSearchQuery (q +:+ key e))
       else mret tt
     else mret tt);;
    q ← gets searchQuery;
    when (0 <? String.length q) (
      its ← gets items;
      match List.find (matchesQuery q) its with
      | Some matchedItem => focus (element matchedItem)
      | None => mret tt
      end)).

(** [this.items.findIndex(p)]: the first index at which [p] holds, -1 when
    there is none. *)
Fixpoint findIndex {A} (p : A → bool) (l : list A) : Z :=
  match l with
  | [] => (-1)%Z
  | x :: r =>
      if p x then 0%Z
      else let i := findIndex p r in if (i <? 0)%Z then (-1)%Z else (i + 1)%Z
  end.

(** [this.items[i]] for a number [i]: [undefined] out of range. *)
Definition itemAt (its : list DropdownItem) (i : Z) : option DropdownItem :=
  if (i <? 0)%Z then None else its !! Z.to_nat i.

Definition handleDropdownNavigation (e : KeyboardEvent) : M unit :=
  open ← gets listIsOpen;
  unless (negb open) (
    let isSpace := bool_decide (key e = " ") in
    let isTab := bool_decide (key e = "Tab") in
    let isArrowUp := bool_decide (key e = "ArrowUp") in
    let isArrowDown := bool_decide (key e = "ArrowDown") in
    focused ← gets focusedItem;
    match focused with
    | Some it => when isSpace (click (element it))
    | None => mret tt
    end;;
    when isTab (
      when (shiftKey e) (emit PreventedDefault);;
      closeDropdown (shiftKey e));;
    when (isArrowUp || isArrowDown) (
      focused ← gets focusedItem;
      match focused with
      | None => mret tt
      | Some focused =>
          its ← gets items;
          let index := findIndex (λ item, sameItem item focused) its in
          unless (index <? 0)%Z (
            let nextIndex := if isArrowUp then (index - 1)%Z else (index + 1)%Z in
            let nextIndex := if (nextIndex <? 0)%Z then 0%Z else nextIndex in
            let nextIndex :=
              if (Z.of_nat (length its) <=? nextIndex)%Z
              then Z.of_nat (length its) else nextIndex in
            match itemAt its nextIndex with
            | Some nextItem => focus (element nextItem)
            | None => mret tt
            end)
      end)).

(** The [keydown] listener of the dropdown list. *)
Definition onKeydown (e : KeyboardEvent) : M unit :=
  handleDropdownSearch e;;
  handleDropdownNavigation e.

Definition init (net : Network) (defaultCountryCode : option string) : M unit :=
  countries ← fetchCountries net;
  renderOptions countries;;
  addEventListeners;;
  observeDropdownList;;
  located ← fetchUserLocation net;
  let code := jsOr located defaultCountryCode in
  its ← gets items;
  match List.find (λ item, bool_decide (Some (cca2 (country item)) = code)) its with
  | Some selectedCountry => handleItemSelect selectedCountry
  | None => mret tt
  end.

(** What the three [querySelector] calls of the constructor find below the
    root element. *)
Record RootElement := mkRoot {
  toggleOf : option handle;
  dropdownListOf : option handle;
  listOf : option handle
}.

(** The synchronous part of the constructor; [this.init(...)] starts after
    it and its promise is dropped. *)
Definition constructor (root : RootElement) (input : option handle) : M unit :=
  modify (setDropdownToggle (toggleOf root));;
  modify (setDropdownList (dropdownListOf root));;
  modify (setListEl (listOf root));;
  modify (setCountryCodeInput input);;
  t ← gets dropdownToggle ≫= deref "dropdownToggle";
  setAttribute t "aria-haspopup" "listbox".

(** [new PhonePrefix(element, { defaultCountryCode, countryCodeInput })] run
    to the end of [init]. *)
Definition newPhonePrefix (net : Network) (root : RootElement)
    (defaultCountryCode : option string) (input : option handle) : M unit :=
  constructor root input;;
  init net defaultCountryCode.

(** The fields of a fresh object, in a page with DOM [d] whose nodes all
    have handles below [n]. *)
Definition freshState (d : handle → Element) (n : handle) : State :=
  mkState [] false None None None None None None "" d n None false false [].

(** * Specification vocabulary *)

(** [s'] differs from [s] at most in the search query and in where the
    keyboard focus is. *)
Definition onlySearchAndFocus (s s' : State) : Prop :=
  s' = setSearchQuery (searchQuery s')
         (setFocusedItem (focusedItem s') (setActiveElement (activeElement s') s)).

(** The query the first half of [handleDropdownSearch] leaves, from the key
    and the query before. *)
Definition queryAfterKey (k q : string) : string :=
  if bool_decide (k = "Backspace") then sliceInit q
  else if (String.length k =? 1) && (isLetter k || isDigit k) then
    if isDigit k && isLetter q then k
    else if isLetter k then (if isDigit q then k else q +:+ toLowerCase k)
    else if isDigit k then q +:+ k
    else q
  else q.

Definition focusMatch (q : string) : M unit :=
  when (0 <? String.length q) (
    its ← gets items;
    match List.find (matchesQuery q) its with
    | Some matchedItem => focus (element matchedItem)
    | None => mret tt
    end).

(** The invariant the query is meant to have: only lower-case letters, or
    only digits. *)
Definition homogeneous (q : string) : bool :=
  allChars charIsLower q || allChars charIsDigit q.

(** "[a] starts with [b], case-insensitively". *)
Definition startsWithCI (a b : string) : bool :=
  startsWith (toLowerCase a) (toLowerCase b).

(** The dialling prefix of a country: the root followed by the suffix when
    the country has exactly one suffix, the root alone when it has none or
    several. *)
Definition diallingPrefix (c : Country) : string :=
  match idd_suffixes c with
  | [suffix] => idd_root c +:+ suffix
  | _ => idd_root c
  end.

(** An item answers a query when its dialling prefix starts with ["+"]
    and the query, or its ISO code or common name starts with the query. *)
Definition answersQuery (q : string) (item : DropdownItem) : bool :=
  startsWithCI (diallingPrefix (country item)) ("+" +:+ q)
  || startsWithCI (cca2 (country item)) q
  || startsWithCI (name_common (country item)) q.

(** [x] is below [h] in the tree of [d]: a child of [h], or below one of
    its children. *)
Inductive descendant (d : handle → Element) (h : handle) : handle → Prop :=
  | descendant_child c : c ∈ children (d h) → descendant d h c
  | descendant_below c x : c ∈ children (d h) → descendant d c x → descendant d h x.

(** The nodes of [d] are numbered below [n] with every child after its
    parent, as in document order. *)
Definition documentOrder (d : handle → Element) (n : nat) : Prop :=
  ∀ h c, c ∈ children (d h) → h < c ∧ c < n.

(** [x] is the first element of [l] on which [p] holds. *)
Definition firstWith {A} (p : A → bool) (l : list A) (i : nat) (x : A) : Prop :=
  l !! i = Some x ∧ p x = true ∧ ∀ j y, j < i → l !! j = Some y → p y = false.

(** The steps of [init] that come before the selection; the result is what
    [fetchUserLocation] returned. *)
Definition initSetup (net : Network) : M (option string) :=
  countries ← fetchCountries net;
  renderOptions countries;;
  addEventListeners;;
  observeDropdownList;;
  fetchUserLocation net.

(** The effective country code: the located one when it is defined and not
    empty, otherwise the default. *)
Definition effectiveCode (located defaultCountryCode : option string) : option string :=
  match located with
  | Some c => if bool_decide (c = "") then defaultCountryCode else Some c
  | None => defaultCountryCode
  end.

Definition hasCode (code : option string) (item : DropdownItem) : bool :=
  bool_decide (Some (cca2 (country item)) = code).

(** The country code on the [loc] line of a trace. *)
Definition locOfTrace (t : string) : option string :=
  match findLocLine t with
  | Some line => split "="%char line !! 1
  | None => None
  end.

Definition addEffect (e : Effect) (s : State) : State := setEffects (effects s ++ [e]) s.

(** What [toggleItemSelected] does to the element of the item. *)
Definition markSelected (isSelected : bool) (e : Element) : Element :=
  setAttributes
    (<["aria-selected" := if isSelected then "true" else "false"]> (attributes e))
    (setClassList
       (if isSelected then {[ dropdownElements.dropdownItemSelected ]} ∪ classList e
        else classList e ∖ {[ dropdownElements.dropdownItemSelected ]}) e).

(** What [updateDropdownToggle] does to the toggle. *)
Definition showCountry (c : Country) (e : Element) : Element :=
  setAttributes (<["aria-label" := name_common c]> (attributes e))
    (setValueEl (Some (diallingPrefix c))
       (setFlag (Some (mkImage (flags_svg c) (name_common c +:+ " Flag"))) e)).

(** The element at [h] after [handleItemSelect] has selected [item], from
    the element [e] that was there: the previous selection is unmarked, the
    item marked, the toggle shows the country, the input holds the code. *)
Definition afterSelect (s : State) (item : DropdownItem) (h : handle) (e : Element)
  : Element :=
  let e1 := match selectedItem s with
            | Some previous =>
                if decide (h = element previous) then markSelected false e else e
            | None => e
            end in
  let e2 := if decide (h = element item) then markSelected true e1 else e1 in
  let e3 := if decide (Some h = dropdownToggle s)
            then showCountry (country item) e2 else e2 in
  if decide (Some h = countryCodeInput s)
  then setInputValue (cca2 (country item)) e3 else e3.

(** [s'] differs from [s] at most in the nodes of the DOM. *)
Definition nodesOnly (s s' : State) : Prop := s' = setNodes (nodes s') s.

(** Every node of [s'] is [f] of the node of [s] with the same handle. *)
Definition nodesBy (f : handle → Element → Element) (s s' : State) : Prop :=
  ∀ h, nodes s' h = f h (nodes s h).

(** [s'] differs from [s] at most in the focus and in the effects. *)
Definition focusAndEffectsOnly (s s' : State) : Prop :=
  s' = setFocusedItem (focusedItem s')
         (setActiveElement (activeElement s') (setEffects (effects s') s)).

(** [s'] differs from [s] at most in the selection, the nodes, the focus
    and the effects: the items, the open flag, the query and the references
    to the toggle, the lists and the input are the same. *)
Definition selectionFrame (s s' : State) : Prop :=
  s' = setSelectedItem (selectedItem s')
         (setNodes (nodes s')
            (setFocusedItem (focusedItem s')
               (setActiveElement (activeElement s') (setEffects (effects s') s)))).

(** What [closeDropdown()] adds to the effects. *)
Definition closingEvents (t : handle) : list Effect :=
  [Dispatched t "click"; Dispatched t "mouseup"].

(** An item is marked when its element carries the selected class. *)
Definition marked (s : State) (item : DropdownItem) : Prop :=
  dropdownElements.dropdownItemSelected ∈ classList (nodes s (element item)).

(** Only the selected item is marked. *)
Definition onlySelectedMarked (s : State) : Prop :=
  ∀ item, item ∈ items s → marked s item → isSelectedItem (selectedItem s) item = true.

(** The label of an item: the ISO code and, in parentheses, the dialling
    prefix as the country service gives it. *)
Definition itemLabel (c : Country) : string :=
  cca2 c +:+ " (" +:+ diallingPrefix c +:+ ")".

(** The label with a plus sign put before the dialling prefix. *)
Definition itemLabelWithPlus (c : Country) : string :=
  cca2 c +:+ " (+" +:+ diallingPrefix c +:+ ")".

(** The clone [createCountryItem] makes of the template [e] for [c]. *)
Definition rendered (c : Country) (e : Element) : Element :=
  setAttributes
    (<["title" := name_common c]> (<["aria-label" := name_common c]> (attributes e)))
    (setValueEl (Some (itemLabel c))
       (setFlag (Some (mkImage (flags_svg c) (name_common c +:+ " Flag"))) e)).

(** The body of the loop of [renderOptions], for the list [l] and the
    template [listItem]. *)
Definition renderOne (l listItem : handle) (c : Country) : M DropdownItem :=
  itemElement ← createCountryItem c listItem;
  appendChild l itemElement;;
  mret (mkItem itemElement c).

(** The items [renderOptions] makes when the next free handle is [n]: one
    for each country, in the order of the countries, on the handles from [n]
    on. *)
Definition renderedItems (n : handle) (countries : list Country) : list DropdownItem :=
  imap (λ i c, mkItem (n + i) c) countries.

(** [s'] differs from [s] at most in the nodes and the next free handle. *)
Definition nodesNextOnly (s s' : State) : Prop :=
  s' = setNextHandle (nextHandle s') (setNodes (nodes s') s).

(** [s'] differs from [s] at most in the items, the nodes and the next
    free handle. *)
Definition renderFrame (s s' : State) : Prop :=
  s' = setItems (items s') (setNextHandle (nextHandle s') (setNodes (nodes s') s)).

(** ** A sample page

    A toggle (1), the dropdown list (2), the list container (3) with the
    template item (4), and the form input (5). *)
Module Sample.

Definition emptyEl : Element := mkElement ∅ ∅ None None "" [].

Definition page : handle → Element := λ h,
  match h with
  | 1 => mkElement {[ dropdownElements.dropdownToggle ]} ∅
           (Some (mkImage "" "")) (Some "") "" []
  | 2 => mkElement {[ dropdownElements.dropdownList ]} ∅ None None "" [3]
  | 3 => mkElement ∅ {[ dataPhonePrefixAttr := "list" ]} None None "" [4]
  | 4 => mkElement ∅ {[ dataPhonePrefixAttr := "item" ]}
           (Some (mkImage "" "")) (Some "") "" []
  | _ => emptyEl
  end.

(** The same page without the template item. *)
Definition pageNoTemplate : handle → Element := λ h,
  match h with
  | 3 => mkElement ∅ {[ dataPhonePrefixAttr := "list" ]} None None "" []
  | 4 => emptyEl
  | _ => page h
  end.

Definition root : RootElement := mkRoot (Some 1) (Some 2) (Some 3).

Definition us : Country := mkCountry "United States" "us.svg" "+1" ["201"; "202"] "US".
Definition fr : Country := mkCountry "France" "fr.svg" "+3" ["3"] "FR".
Definition bs : Country := mkCountry "Bahamas" "bs.svg" "+1" ["242"] "BS".

(** The Bahamas with the root written without its plus sign. *)
Definition bsPlain : Country := mkCountry "Bahamas" "bs.svg" "1" ["242"] "BS".

(** The country service answers with three countries; the trace service
    answers [trace], or fails when there is none. *)
Definition net (trace : option string) : Network := λ url,
  if bool_decide (url = countriesUrl) then Some (mkResponse (Some [us; fr; bs]) None)
  else if bool_decide (url = traceUrl) then (λ t, mkResponse None (Some t)) <$> trace
  else None.

Definition traceFR : string :=
  "fl=29f1" +:+ String "010" ("loc=FR" +:+ String "010" "tls=TLSv1.3").

(** The widget after [new PhonePrefix(root, { defaultCountryCode: "US",
    countryCodeInput })] with the visitor located in France. *)
Definition ready : State :=
  (newPhonePrefix (net (Some traceFR)) root (Some "US") (Some 5) (freshState page 6)).2.

(** The host page opens the list: the class appears and the observer runs. *)
Definition opened : State :=
  ((updEl 2 (λ e, setClassList ({[ dropdownElements.dropdownListOpen ]} ∪ classList e) e);;
    onDropdownListMutation) ready).2.

(** The same construction on the page without a template item. *)
Definition readyNoTemplate : State :=
  (newPhonePrefix (net (Some traceFR)) root (Some "US") (Some 5)
     (freshState pageNoTemplate 6)).2.

(** The fields after the constructor, before anything is rendered. *)
Definition constructed : State :=
  (constructor root (Some 5) (freshState page 6)).2.

Definition withOpenClass (s : State) : State :=
  (updEl 2 (λ e, setClassList ({[ dropdownElements.dropdownListOpen ]} ∪ classList e) e) s).2.

(** The key [b] in the open list: the focus goes to the last item. *)
Definition onLast : State := (handleDropdownSearch (mkKey "b" false) opened).2.

(** The key [1] in the open list: the focus goes to the first item. *)
Definition typedOne : State := (handleDropdownSearch (mkKey "1" false) opened).2.

End Sample.

(** * The widget in use

    After [init] the methods run as listeners.  [addEventListeners] gives
    the dropdown list a [keydown] listener that runs [handleDropdownSearch]
    and then [handleDropdownNavigation], and every item a [click] listener
    that runs [handleItemSelect] and [focusin] and [focusout] listeners that
    keep [focusedItem]; [observeDropdownList] runs its callback when the host
    page changes the class of the dropdown list.  What a listener throws is
    reported by the browser and does not stop the page. *)
Inductive Event :=
| Keydown (e : KeyboardEvent)       (* a key pressed in the dropdown list *)
| Clicked (h : handle)              (* a click on the element [h] *)
| FocusMoved (h : handle)           (* the user moves the focus to [h] *)
| ListToggled (open : bool).        (* the host page opens or closes the list *)

(** The host page adds or removes the open class of the dropdown list. *)
Definition hostSetsOpen (open : bool) : M unit :=
  dl ← gets dropdownList ≫= deref "dropdownList";
  updEl dl (λ e, setClassList
    (if open then {[ dropdownElements.dropdownListOpen ]} ∪ classList e
     else classList e ∖ {[ dropdownElements.dropdownListOpen ]}) e).

Definition react (ev : Event) : M unit :=
  tryCatch
    match ev with
    | Keydown e => on ← gets listening; when on (onKeydown e)
    | Clicked h => click h
    | FocusMoved h => focus h
    | ListToggled open =>
        hostSetsOpen open;;
        on ← gets observing; when on onDropdownListMutation
    end
    (mret tt).

Fixpoint reactAll (evs : list Event) : M unit :=
  match evs with
  | [] => mret tt
  | ev :: evs => react ev;; reactAll evs
  end.

(** The query holds letters and digits only. *)
Definition alphanumeric (q : string) : bool :=
  allChars (λ c, charIsLetter c || charIsDigit c) q.

(** [focusedItem] is the item whose element has the focus, if any. *)
Definition focusTracked (s : State) : Prop :=
  focusedItem s = activeElement s ≫= itemOfElement (items s).

(** What no event changes: the items, the references to the elements of
    the page, the listeners and the next free handle. *)
Definition eventFrame (s s' : State) : Prop :=
  s' = setListIsOpen (listIsOpen s')
         (setSelectedItem (selectedItem s')
            (setFocusedItem (focusedItem s')
               (setSearchQuery (searchQuery s')
                  (setNodes (nodes s')
                     (setActiveElement (activeElement s')
                        (setEffects (effects s') s)))))).

(** The query is the same in both states. *)
Definition sameQuery (s s' : State) : Prop := searchQuery s' = searchQuery s.

(** The query stays alphanumeric. *)
Definition keepsAlphanumeric (s s' : State) : Prop :=
  alphanumeric (searchQuery s) = true → alphanumeric (searchQuery s') = true.

(** A run of the widget: the list is opened, then [f], [r], [1] are typed. *)
Module Scenario.

Definition typing : list Event :=
  [ListToggled true; Keydown (mkKey "f" false); Keydown (mkKey "r" false);
   Keydown (mkKey "1" false)].

(** The list is opened, [u] is typed (the first match is the first item)
    and ArrowDown has moved the focus to the second item. *)
Definition afterArrowDown : State :=
  (reactAll [ListToggled true; Keydown (mkKey "u" false);
             Keydown (mkKey "ArrowDown" false)] Sample.ready).2.

End Scenario.

(** The arrow keys, through the [keydown] listener, act from the item [x]
    at index [k]: ArrowUp puts the focus on the item at index [k - 1] (at
    index 0 on index 0 itself), ArrowDown on the item at index [k + 1], and
    where there is none the focus is on [x] afterwards. *)
Definition arrowsFrom (s : State) (sh : bool) (k : nat) (x : DropdownItem) : Prop :=
  (∃ previous, items s !! (k - 1) = Some previous ∧
     activeElement (onKeydown (mkKey "ArrowUp" sh) s).2 = Some (element previous)) ∧
  activeElement (onKeydown (mkKey "ArrowDown" sh) s).2 =
    Some (element (default x (items s !! (k + 1)))).

(** Where the focus is after the search half of the [keydown] listener has
    run on a key that does not change the query: where it was when the query
    is empty or nothing matches it, and otherwise on the first match. *)
Definition focusAfterSearch (s : State) : option handle :=
  if bool_decide (searchQuery s = "") then activeElement s
  else match List.find (matchesQuery (searchQuery s)) (items s) with
       | Some matchedItem => Some (element matchedItem)
       | None => activeElement s
       end.

(** [focusedItem] keeps following the focus; the items and their
    listeners are the same. *)
Definition keepsFocusTracked (s s' : State) : Prop :=
  items s' = items s ∧ listening s' = listening s ∧
  (listening s = true → focusTracked s → focusTracked s').

(** The same items, the same selection, and the selected class on the same
    elements. *)
Definition sameMarks (s s' : State) : Prop :=
  items s' = items s ∧ selectedItem s' = selectedItem s ∧
  ∀ h, dropdownElements.dropdownItemSelected ∈ classList (nodes s' h)
       ↔ dropdownElements.dropdownItemSelected ∈ classList (nodes s h).

(** The same items, and still only the selected item marked. *)
Definition keepsOnlySelectedMarked (s s' : State) : Prop :=
  items s' = items s ∧ (onlySelectedMarked s → onlySelectedMarked s').

(** A text made of lines, each ended by a line feed. *)
Definition unlines (ls : list string) : string :=
  foldr (λ l r, l +:+ String "010" r) "" ls.

(** A line holds no carriage return and no line feed. *)
Definition noBreak (l : string) : bool := allChars (λ c, negb (isLineBreak c)) l.

(** What follows a line: nothing, or a line break and the rest of the text. *)
Definition endsLine (rest : string) : bool :=
  match rest with
  | EmptyString => true
  | String c _ => isLineBreak c
  end.

Definition noEquals (v : string) : bool :=
  allChars (λ c, negb (bool_decide (c = "="%char))) v.

(** The countries [fetchCountries] returns for the answers of the network. *)
Definition fetchedCountries (net : Network) : list Country :=
  match net countriesUrl with
  | Some r => default [] (json r)
  | None => []
  end.

(** What the steps of [init] before the selection leave as it was: the
    selection, the focus, the query, the open flag and the references. *)
Definition setupFrame (s s' : State) : Prop :=
  s' = setItems (items s')
         (setNextHandle (nextHandle s')
            (setNodes (nodes s')
               (setListening (listening s')
                  (setObserving (observing s') (setEffects (effects s') s))))).

(** [init] with the events it leaves to the page while it awaits the
    location of the visitor: the listeners and the observer are installed
    before the request is sent, so the events [pending] are handled between
    the request and the selection. *)
Definition initWhile (net : Network) (defaultCountryCode : option string)
    (pending : list Event) : M unit :=
  countries ← fetchCountries net;
  renderOptions countries;;
  addEventListeners;;
  observeDropdownList;;
  located ← fetchUserLocation net;
  reactAll pending;;
  let code := jsOr located defaultCountryCode in
  its ← gets items;
  match List.find (λ item, bool_decide (Some (cca2 (country item)) = code)) its with
  | Some selectedCountry => handleItemSelect selectedCountry
  | None => mret tt
  end.

(** The open flag is the same in both states. *)
Definition sameOpen (s s' : State) : Prop := listIsOpen s' = listIsOpen s.

(** The sample page with a toggle that has lost its flag image, and with a
    template item that has lost it. *)
Module Broken.

Definition pageToggleNoFlag : handle → Element := λ h,
  match h with
  | 1 => mkElement {[ dropdownElements.dropdownToggle ]} ∅ None (Some "") "" []
  | _ => Sample.page h
  end.

Definition pageTemplateNoFlag : handle → Element := λ h,
  match h with
  | 4 => mkElement ∅ {[ dataPhonePrefixAttr := "item" ]} None (Some "") "" []
  | _ => Sample.page h
  end.

(** The widget on the first page, with nobody located and no default:
    everything is rendered and nothing is selected. *)
Definition readyToggleNoFlag : State :=
  (newPhonePrefix (Sample.net None) Sample.root None (Some 5)
     (freshState pageToggleNoFlag 6)).2.

(** The fields after the constructor on the second page. *)
Definition constructedTemplateNoFlag : State :=
  (constructor Sample.root (Some 5) (freshState pageTemplateNoFlag 6)).2.

(** A network on which the country service is down. *)
Definition netDown : Network := λ _, None.

(** The sample page with the template item (6) inside a wrapper (4) of the
    list container, not a child of the list container itself. *)
Definition pageNestedTemplate : handle → Element := λ h,
  match h with
  | 4 => mkElement ∅ ∅ None None "" [6]
  | 6 => mkElement ∅ {[ dataPhonePrefixAttr := "item" ]}
           (Some (mkImage "" "")) (Some "") "" []
  | _ => Sample.page h
  end.

(** The fields after the constructor on that page. *)
Definition constructedNestedTemplate : State :=
  (constructor Sample.root (Some 5) (freshState pageNestedTemplate 7)).2.

End Broken.
(** * Reasoning about runs *)

Lemma bind_run {A B} (m : M A) (f : A → M B) s :
  (m ≫= f) s = match m s with (Ret a, s') => f a s' | (Threw e, s') => (Threw e, s') end.
Proof. reflexivity. Qed.

Ltac unfold_m :=
  cbv [mbind M_bind mret M_ret gets modify throw deref emit unless when
       updEl setAttribute classListToggle dispatchEvent clearSearchQuery].

Ltac fields :=
  cbn [items listIsOpen dropdownToggle dropdownList listEl countryCodeInput
       selectedItem focusedItem searchQuery nodes nextHandle activeElement
       listening observing effects
       setItems setListIsOpen setDropdownToggle setDropdownList setListEl
       setCountryCodeInput setSelectedItem setFocusedItem setSearchQuery
       setNodes setNextHandle setActiveElement setListening setObserving setEffects
       fst snd].

(** Equations between states built from the setters: take the states
    apart and compare field by field. *)
Ltac fields_eq :=
  repeat match goal with s : State |- _ => destruct s end;
  cbv [items listIsOpen dropdownToggle dropdownList listEl countryCodeInput
       selectedItem focusedItem searchQuery nodes nextHandle activeElement
       listening observing effects
       setItems setListIsOpen setDropdownToggle setDropdownList setListEl
       setCountryCodeInput setSelectedItem setFocusedItem setSearchQuery
       setNodes setNextHandle setActiveElement setListening setObserving setEffects]
    in *;
  repeat match goal with
         | H : @eq State _ _ |- _ => injection H; clear H; intros; subst
         end;
  reflexivity.

Lemma setSearchQuery_id s : setSearchQuery (searchQuery s) s = s.
Proof. by destruct s. Qed.

Lemma append_cons c a b : String c a +:+ b = String c (a +:+ b).
Proof. reflexivity. Qed.

Lemma append_empty_r l : l +:+ "" = l.
Proof. induction l as [|c l IH]; [done|]. by rewrite append_cons, IH. Qed.

(** ** The dialling prefix *)

(** The template literal of the class gives the dialling prefix: the root
    with the suffix when there is exactly one suffix, the root alone when
    there is none or more than one. *)
Lemma countryCode_diallingPrefix c : countryCode c = diallingPrefix c.
Proof.
  unfold countryCode, diallingPrefix.
  destruct (idd_suffixes c) as [|suffix [|other suffixes]]; cbn [length Nat.eqb].
  - apply append_empty_r.
  - reflexivity.
  - apply append_empty_r.
Qed.


Lemma onlySearchAndFocus_refl s : onlySearchAndFocus s s.
Proof. by destruct s. Qed.

Lemma onlySearchAndFocus_trans s1 s2 s3 :
  onlySearchAndFocus s1 s2 → onlySearchAndFocus s2 s3 → onlySearchAndFocus s1 s3.
Proof.
  unfold onlySearchAndFocus. intros H12 H23. rewrite H23 at 1. rewrite H12 at 1.
  reflexivity.
Qed.

Lemma focus_frame h s : ∃ s', focus h s = (Ret tt, s') ∧ onlySearchAndFocus s s'
  ∧ activeElement s' = Some h ∧ searchQuery s' = searchQuery s.
Proof.
  unfold focus. unfold_m. fields.
  case_bool_decide as Hcur.
  - exists s. split_and!; auto using onlySearchAndFocus_refl.
  - unfold onFocusOut, onFocusIn.
    destruct s as [its op tg dl le inp sel foc q d n act li ob ef]; fields.
    destruct act as [old|]; destruct li; fields;
      repeat (match goal with |- context [itemOfElement ?a ?b] => destruct (itemOfElement a b) end; fields);
      eexists; split_and!; try reflexivity.
Qed.

(** ** Search: the query *)


Lemma handleDropdownSearch_closed e s :
  listIsOpen s = false → handleDropdownSearch e s = (Ret tt, s).
Proof. intros Hc. unfold handleDropdownSearch. unfold_m. by rewrite Hc. Qed.

Lemma handleDropdownSearch_open e s :
  listIsOpen s = true →
  handleDropdownSearch e s =
    focusMatch (queryAfterKey (key e) (searchQuery s))
      (setSearchQuery (queryAfterKey (key e) (searchQuery s)) s).
Proof.
  intros Ho. unfold handleDropdownSearch, queryAfterKey, focusMatch.
  unfold_m. rewrite Ho. cbn [negb].
  repeat (match goal with
          | |- context [if ?b then _ else _] =>
              lazymatch b with
              | context [String.length (searchQuery _)] => fail
              | context [0 <? _] => fail
              | _ => destruct b
              end
          end; fields; rewrite ?setSearchQuery_id); reflexivity.
Qed.

Lemma focusMatch_frame q s :
  ∃ s', focusMatch q s = (Ret tt, s') ∧ onlySearchAndFocus s s'
        ∧ searchQuery s' = searchQuery s.
Proof.
  unfold focusMatch. unfold_m.
  destruct (0 <? String.length q).
  - destruct (List.find (matchesQuery q) (items s)) as [m|].
    + destruct (focus_frame (element m) s) as (s' & -> & ? & ? & ?). eauto.
    + eauto using onlySearchAndFocus_refl.
  - eauto using onlySearchAndFocus_refl.
Qed.

Lemma handleDropdownSearch_query e s :
  searchQuery (handleDropdownSearch e s).2 =
    if listIsOpen s then queryAfterKey (key e) (searchQuery s) else searchQuery s.
Proof.
  destruct (listIsOpen s) eqn:Ho.
  - rewrite handleDropdownSearch_open by done.
    destruct (focusMatch_frame (queryAfterKey (key e) (searchQuery s))
                (setSearchQuery (queryAfterKey (key e) (searchQuery s)) s))
      as (s' & Hr & _ & Hq). rewrite Hr. cbn [snd]. by rewrite Hq.
  - by rewrite handleDropdownSearch_closed.
Qed.

Lemma onlySearchAndFocus_setSearchQuery q s : onlySearchAndFocus s (setSearchQuery q s).
Proof. by destruct s. Qed.

Lemma handleDropdownSearch_spec e s :
  ∃ s', handleDropdownSearch e s = (Ret tt, s') ∧ onlySearchAndFocus s s'
        ∧ searchQuery s' =
            if listIsOpen s then queryAfterKey (key e) (searchQuery s) else searchQuery s.
Proof.
  destruct (listIsOpen s) eqn:Ho.
  - rewrite handleDropdownSearch_open by done.
    destruct (focusMatch_frame (queryAfterKey (key e) (searchQuery s))
                (setSearchQuery (queryAfterKey (key e) (searchQuery s)) s))
      as (s' & Hr & Hf & Hq).
    exists s'. split_and!; [done | | done].
    eapply onlySearchAndFocus_trans; [apply onlySearchAndFocus_setSearchQuery | done].
  - rewrite handleDropdownSearch_closed by done.
    eauto using onlySearchAndFocus_refl.
Qed.

Lemma onlySearchAndFocus_listIsOpen s s' :
  onlySearchAndFocus s s' → listIsOpen s' = listIsOpen s.
Proof. intros H. by apply (f_equal listIsOpen) in H. Qed.

Lemma onlySearchAndFocus_items s s' :
  onlySearchAndFocus s s' → items s' = items s.
Proof. intros H. by apply (f_equal items) in H. Qed.

(** What the code gets right: a digit typed on a query of exactly one
    letter, or a letter on a query of exactly one digit, restarts it. *)
Lemma charIsLetter_not_digit c : charIsLetter c = true → charIsDigit c = false.
Proof.
  unfold charIsLetter, charIsDigit, inRange. intros H.
  apply orb_true_iff in H as [[?%Nat.leb_le ?%Nat.leb_le]%andb_true_iff
                             |[?%Nat.leb_le ?%Nat.leb_le]%andb_true_iff];
    apply andb_false_iff; rewrite !Nat.leb_gt; lia.
Qed.

Lemma queryAfterKey_restart_one k q :
  (isDigit k = true ∧ isLetter q = true) ∨ (isLetter k = true ∧ isDigit q = true) →
  queryAfterKey k q = k.
Proof.
  unfold queryAfterKey. intros [[Hk Hq]|[Hk Hq]].
  - destruct k as [|c [|? ?]]; try done. rewrite Hk, Hq.
    rewrite bool_decide_eq_false_2 by (intros [=]). cbn. by rewrite orb_true_r.
  - destruct k as [|c [|? ?]]; try done. rewrite Hk, Hq.
    rewrite bool_decide_eq_false_2 by (intros [=]). cbn [String.length Nat.eqb andb orb].
    destruct q as [|d [|? ?]]; try done. cbn in Hq |- *.
    destruct (charIsLetter d) eqn:Hd; [|by rewrite andb_false_r].
    apply charIsLetter_not_digit in Hd. congruence.
Qed.

(** C1.  The query does not stay homogeneous: with the list open and the
    query empty, the keys [f], [r], [1] leave the query ["fr1"], letters
    followed by a digit.  [isLetter] and [isDigit] accept strings of exactly
    one character, so the restart happens only on a one-character query. *)
Theorem searchQuery_mixes_letters_and_digits s :
  listIsOpen s = true →
  searchQuery s = "" →
  let s' := ((handleDropdownSearch (mkKey "f" false);;
              handleDropdownSearch (mkKey "r" false);;
              handleDropdownSearch (mkKey "1" false)) s).2 in
  searchQuery s' = "fr1" ∧ homogeneous (searchQuery s') = false.
Proof.
  intros Ho Hq.
  destruct (handleDropdownSearch_spec (mkKey "f" false) s) as (s1 & R1 & F1 & Q1).
  destruct (handleDropdownSearch_spec (mkKey "r" false) s1) as (s2 & R2 & F2 & Q2).
  destruct (handleDropdownSearch_spec (mkKey "1" false) s2) as (s3 & R3 & F3 & Q3).
  pose proof (onlySearchAndFocus_listIsOpen _ _ F1) as O1.
  pose proof (onlySearchAndFocus_listIsOpen _ _ F2) as O2.
  rewrite Ho, Hq in Q1. rewrite O1, Ho, Q1 in Q2. rewrite O2, O1, Ho, Q2 in Q3.
  cbv zeta. rewrite bind_run, R1. cbv beta iota. rewrite bind_run, R2.
  cbv beta iota. rewrite R3. cbn [snd]. rewrite Q3.
  split; reflexivity.
Qed.

Lemma searchQuery_mixes_letters_and_digits_witness :
  listIsOpen Sample.opened = true ∧ searchQuery Sample.opened = "" ∧
  searchQuery ((handleDropdownSearch (mkKey "f" false);;
                handleDropdownSearch (mkKey "r" false);;
                handleDropdownSearch (mkKey "1" false)) Sample.opened).2 = "fr1".
Proof.
  split; [vm_compute; reflexivity|]. split; [vm_compute; reflexivity|].
  apply (searchQuery_mixes_letters_and_digits Sample.opened); vm_compute; reflexivity.
Defined.

(** The other restart of the same method keeps the key as typed: after the
    digit [1], the key [A] leaves the query ["A"], a capital. *)
Example searchQuery_restart_keeps_capital :
  searchQuery ((handleDropdownSearch (mkKey "1" false);;
                handleDropdownSearch (mkKey "A" false)) Sample.opened).2 = "A".
Proof. vm_compute. reflexivity. Qed.

(** C10.  [handleDropdownSearch] returns normally on every key and leaves
    the item list, the selection, the open flag, the bound input and the
    whole DOM as they were; only the query and the focus may differ. *)
Theorem handleDropdownSearch_frame e s :
  let r := handleDropdownSearch e s in
  r.1 = Ret tt ∧
  items r.2 = items s ∧
  selectedItem r.2 = selectedItem s ∧
  listIsOpen r.2 = listIsOpen s ∧
  countryCodeInput r.2 = countryCodeInput s ∧
  nodes r.2 = nodes s ∧
  effects r.2 = effects s ∧
  onlySearchAndFocus s r.2.
Proof.
  destruct (handleDropdownSearch_spec e s) as (s' & R & F & _).
  cbn zeta. rewrite R. cbn [fst snd].
  split_and!; try done.
  - by apply (f_equal items) in F.
  - by apply (f_equal selectedItem) in F.
  - by apply (f_equal listIsOpen) in F.
  - by apply (f_equal countryCodeInput) in F.
  - by apply (f_equal nodes) in F.
  - by apply (f_equal effects) in F.
Qed.

(** ** Search: the focus *)

Lemma find_firstWith {A} (p : A → bool) (l : list A) x :
  List.find p l = Some x → ∃ i, firstWith p l i x.
Proof.
  induction l as [|y l IH]; [done|]. cbn [List.find].
  destruct (p y) eqn:Hy.
  - intros [= ->]. exists 0. split_and!; [done..|]. intros j z Hj. lia.
  - intros (i & Hi & Hx & Hfirst)%IH. exists (S i). split_and!; [done..|].
    intros [|j] z Hj; cbn; [by intros [= <-]|]. apply Hfirst. lia.
Qed.

Lemma firstWith_ext {A} (p q : A → bool) (Hpq : ∀ x, p x = q x) l i x :
  firstWith p l i x → firstWith q l i x.
Proof.
  intros (Hi & Hp & Hfirst). split_and!; [done|by rewrite <- Hpq|].
  intros j y Hj Hy. rewrite <- Hpq. by apply (Hfirst j).
Qed.

Lemma find_nowhere {A} (p : A → bool) (l : list A) :
  List.find p l = None → ∀ x, x ∈ l → p x = false.
Proof.
  induction l as [|y l IH]; cbn [List.find]; intros Hf x Hx.
  - by apply elem_of_nil in Hx.
  - destruct (p y) eqn:Hy; [done|].
    apply elem_of_cons in Hx as [->|Hx]; [done|]. by apply IH.
Qed.

Lemma matchesQuery_answersQuery q item : matchesQuery q item = answersQuery q item.
Proof.
  unfold matchesQuery, answersQuery. cbv zeta.
  by rewrite countryCode_diallingPrefix.
Qed.

Lemma length_pos_nonempty q : q ≠ "" → (0 <? String.length q) = true.
Proof. destruct q; [done|]. reflexivity. Qed.

Lemma focusMatch_found q s m :
  q ≠ "" → List.find (matchesQuery q) (items s) = Some m →
  focusMatch q s = focus (element m) s.
Proof.
  intros Hq Hm. unfold focusMatch. unfold_m.
  by rewrite length_pos_nonempty, Hm.
Qed.

Lemma focusMatch_none q s :
  q ≠ "" → List.find (matchesQuery q) (items s) = None →
  focusMatch q s = (Ret tt, s).
Proof.
  intros Hq Hm. unfold focusMatch. unfold_m.
  by rewrite length_pos_nonempty, Hm.
Qed.

(** C4.  While the list is open, a key that leaves the query [q] non-empty
    moves the keyboard focus to the first item, in the order of [items],
    whose dialling prefix starts with ["+"] followed by [q] or whose ISO code
    or common name starts with [q], letter case ignored; when no item does,
    the focus stays where it is. *)
Theorem search_focuses_first_match e s :
  listIsOpen s = true →
  let s' := (handleDropdownSearch e s).2 in
  let q := searchQuery s' in
  q ≠ "" →
  (∃ i item, firstWith (answersQuery q) (items s) i item
             ∧ activeElement s' = Some (element item))
  ∨ ((∀ item, item ∈ items s → answersQuery q item = false)
     ∧ activeElement s' = activeElement s ∧ focusedItem s' = focusedItem s).
Proof.
  intros Ho. cbv zeta. rewrite handleDropdownSearch_query, Ho.
  rewrite handleDropdownSearch_open by done.
  set (q := queryAfterKey (key e) (searchQuery s)). intros Hq.
  destruct (List.find (matchesQuery q) (items s)) as [m|] eqn:Hm.
  - left. rewrite focusMatch_found with (m := m) by done.
    apply find_firstWith in Hm as [i Hi]. exists i, m.
    split; [by apply (firstWith_ext _ _ (matchesQuery_answersQuery q))|].
    destruct (focus_frame (element m) (setSearchQuery q s)) as (s' & -> & _ & Ha & _).
    done.
  - right. rewrite focusMatch_none by done. split; [|done].
    intros item Hitem. rewrite <- matchesQuery_answersQuery.
    by apply (find_nowhere _ _ Hm).
Qed.

Lemma search_focuses_first_match_witness :
  listIsOpen Sample.typedOne = true ∧
  searchQuery Sample.typedOne = "1" ∧
  activeElement Sample.typedOne = Some 6 ∧
  searchQuery (handleDropdownSearch (mkKey "2" false) Sample.typedOne).2 = "12" ∧
  diallingPrefix Sample.bs = "+1242" ∧
  ∃ i item, firstWith (answersQuery "12") (items Sample.typedOne) i item
            ∧ cca2 (country item) = "BS"
            ∧ activeElement (handleDropdownSearch (mkKey "2" false) Sample.typedOne).2
              = Some (element item).
Proof.
  split; [vm_compute; reflexivity|].
  split; [vm_compute; reflexivity|].
  split; [vm_compute; reflexivity|].
  split; [vm_compute; reflexivity|].
  split; [vm_compute; reflexivity|].
  destruct (search_focuses_first_match (mkKey "2" false) Sample.typedOne)
    as [(i & item & Hfirst & Ha)|(Hnone & _)].
  - vm_compute; reflexivity.
  - vm_compute. discriminate.
  - exists i, item. split; [exact Hfirst|]. split; [|exact Ha].
    destruct Hfirst as (Hi & Hp & Hbefore).
    change (searchQuery (handleDropdownSearch (mkKey "2" false) Sample.typedOne).2)
      with "12" in Hp, Hbefore.
    destruct i as [|[|[|i]]].
    + vm_compute in Hi. injection Hi as <-. vm_compute in Hp. discriminate Hp.
    + vm_compute in Hi. injection Hi as <-. vm_compute in Hp. discriminate Hp.
    + vm_compute in Hi. injection Hi as <-. reflexivity.
    + vm_compute in Hi. discriminate Hi.
  - exfalso. specialize (Hnone (mkItem 8 Sample.bs)).
    assert (mkItem 8 Sample.bs ∈ items Sample.typedOne) as Hin.
    { change (items Sample.typedOne)
        with [mkItem 6 Sample.us; mkItem 7 Sample.fr; mkItem 8 Sample.bs].
      apply list_elem_of_lookup_2 with 2. reflexivity. }
    specialize (Hnone Hin). vm_compute in Hnone. discriminate.
Defined.

(** ** Arrow keys *)

Lemma findIndex_nonneg_or_none {A} (p : A → bool) (l : list A) :
  (findIndex p l = -1 ∨ 0 ≤ findIndex p l)%Z.
Proof.
  induction l as [|x l IH]; cbn [findIndex]; [by left|].
  destruct (p x); [right; lia|].
  destruct (findIndex p l <? 0)%Z eqn:Hneg; [by left|].
  apply Z.ltb_ge in Hneg. right. lia.
Qed.

(** With one item object per element, [findIndex] finds the focused item
    at its own index. *)
Lemma findIndex_sameItem its i item :
  NoDup (element <$> its) → its !! i = Some item →
  findIndex (λ x, sameItem x item) its = Z.of_nat i.
Proof.
  revert i. induction its as [|x its IH]; intros i Hnd Hi; [done|].
  cbn [fmap list_fmap] in Hnd. pose proof (NoDup_cons_1_1 _ _ Hnd) as Hx. apply NoDup_cons_1_2 in Hnd.
  cbn [findIndex]. unfold sameItem at 1. destruct i as [|i]; cbn in Hi.
  - injection Hi as ->. by rewrite bool_decide_eq_true_2.
  - rewrite bool_decide_eq_false_2.
    + rewrite (IH i) by done.
      destruct (Z.of_nat i <? 0)%Z eqn:Hneg; [apply Z.ltb_lt in Hneg|]; lia.
    + intros Heq. apply Hx. rewrite Heq.
      apply list_elem_of_fmap. exists item. split; [done|].
      by apply list_elem_of_lookup_2 with i.
Qed.

Lemma handleDropdownNavigation_arrow (up : bool) sh s focused :
  listIsOpen s = true → focusedItem s = Some focused →
  handleDropdownNavigation (mkKey (if up then "ArrowUp" else "ArrowDown") sh) s =
    let index := findIndex (λ item, sameItem item focused) (items s) in
    if (index <? 0)%Z then (Ret tt, s)
    else
      let nextIndex := if up then (index - 1)%Z else (index + 1)%Z in
      let nextIndex := if (nextIndex <? 0)%Z then 0%Z else nextIndex in
      let nextIndex :=
        if (Z.of_nat (length (items s)) <=? nextIndex)%Z
        then Z.of_nat (length (items s)) else nextIndex in
      match itemAt (items s) nextIndex with
      | Some nextItem => focus (element nextItem) s
      | None => (Ret tt, s)
      end.
Proof.
  intros Ho Hf. unfold handleDropdownNavigation. unfold_m.
  rewrite Ho. cbn [negb key shiftKey].
  destruct up.
  - change (bool_decide ("ArrowUp" = " ")) with false.
    change (bool_decide ("ArrowUp" = "Tab")) with false.
    change (bool_decide ("ArrowUp" = "ArrowUp")) with true.
    cbv beta iota zeta. rewrite Hf. cbn [orb]. cbv beta iota. rewrite Hf.
    destruct (findIndex _ _ <? 0)%Z; [done|].
    by destruct (itemAt _ _).
  - change (bool_decide ("ArrowDown" = " ")) with false.
    change (bool_decide ("ArrowDown" = "Tab")) with false.
    change (bool_decide ("ArrowDown" = "ArrowUp")) with false.
    change (bool_decide ("ArrowDown" = "ArrowDown")) with true.
    cbv beta iota zeta. rewrite Hf. cbn [orb]. cbv beta iota. rewrite Hf.
    destruct (findIndex _ _ <? 0)%Z; [done|].
    by destruct (itemAt _ _).
Qed.

(** ** The mutation observer *)

(** C9.  When the class change leaves the list open, the observer's
    callback sets the open flag, clears the query and focuses the selected
    item's element, or else the element of [items[0]]; with nothing selected
    and no item it throws a [TypeError] on [items[0].element].  When the list
    is not open, it only clears the open flag. *)
Theorem observer_open_handler s dl :
  dropdownList s = Some dl →
  let r := onDropdownListMutation s in
  if bool_decide (dropdownElements.dropdownListOpen ∈ classList (nodes s dl)) then
    listIsOpen r.2 = true ∧ searchQuery r.2 = "" ∧
    match selectedItem s, items s with
    | Some item, _ => r.1 = Ret tt ∧ activeElement r.2 = Some (element item)
    | None, item :: _ => r.1 = Ret tt ∧ activeElement r.2 = Some (element item)
    | None, [] => r.1 = Threw (TypeError "items[0]")
    end
  else r = (Ret tt, setListIsOpen false s).
Proof.
  intros Hdl. cbv zeta. unfold onDropdownListMutation. unfold_m.
  rewrite Hdl. fields. case_bool_decide as Hopen; [|done].
  fields.
  set (s0 := setSearchQuery "" (setListIsOpen true s)).
  destruct (selectedItem s) as [item|].
  - destruct (focus_frame (element item) s0) as (s' & -> & F & Ha & Hq).
    cbn [fst snd]. apply (f_equal listIsOpen) in F. by rewrite F, Hq.
  - change (items s0) with (items s).
    destruct (items s) as [|item its]; cbn [lookup list_lookup].
    + done.
    + destruct (focus_frame (element item) s0) as (s' & -> & F & Ha & Hq).
      cbn [fst snd]. apply (f_equal listIsOpen) in F. by rewrite F, Hq.
Qed.

Lemma observer_open_handler_witness :
  dropdownList (Sample.withOpenClass Sample.readyNoTemplate) = Some 2 ∧
  items (Sample.withOpenClass Sample.readyNoTemplate) = [] ∧
  selectedItem (Sample.withOpenClass Sample.readyNoTemplate) = None ∧
  (onDropdownListMutation (Sample.withOpenClass Sample.readyNoTemplate)).1
    = Threw (TypeError "items[0]").
Proof.
  split; [vm_compute; reflexivity|].
  split; [vm_compute; reflexivity|].
  split; [vm_compute; reflexivity|].
  pose proof (observer_open_handler (Sample.withOpenClass Sample.readyNoTemplate) 2) as H.
  cbv zeta in H.
  change (bool_decide (dropdownElements.dropdownListOpen ∈
            classList (nodes (Sample.withOpenClass Sample.readyNoTemplate) 2)))
    with true in H.
  change (selectedItem (Sample.withOpenClass Sample.readyNoTemplate))
    with (@None DropdownItem) in H.
  change (items (Sample.withOpenClass Sample.readyNoTemplate))
    with (@nil DropdownItem) in H.
  apply H. vm_compute; reflexivity.
Defined.

(** With items on the page the same event is handled: the selected item
    gets the focus. *)
Example observer_focuses_selected :
  let r := onDropdownListMutation (Sample.withOpenClass Sample.ready) in
  r.1 = Ret tt ∧ activeElement r.2 = Some 7 ∧ searchQuery r.2 = "".
Proof. vm_compute. done. Qed.

(** ** The two fetches *)

Lemma fetch_run net url s :
  fetch net url s =
    (match net url with Some r => Ret r | None => Threw FetchRejected end,
     addEffect (Fetched url) s).
Proof. unfold fetch. unfold_m. by destruct (net url). Qed.

(** C6.  Whatever the network answers, each of the two fetches returns
    normally, after exactly one request and with no other change of the
    state: [fetchCountries] returns the parsed list, and the empty list when
    the request or the body was rejected; [fetchUserLocation] returns the
    code of the [loc] line, and [undefined] when the request or the body was
    rejected. *)
Theorem fetches_swallow_failures net s :
  fetchCountries net s =
    (Ret match net countriesUrl with
         | Some r => match json r with Some countries => countries | None => [] end
         | None => []
         end,
     addEffect (Fetched countriesUrl) s)
  ∧
  fetchUserLocation net s =
    (Ret match net traceUrl with
         | Some r => match text r with Some t => locOfTrace t | None => None end
         | None => None
         end,
     addEffect (Fetched traceUrl) s).
Proof.
  split.
  - unfold fetchCountries, tryCatch. rewrite bind_run, fetch_run.
    destruct (net countriesUrl) as [r|]; [|done].
    unfold awaitBody. by destruct (json r).
  - unfold fetchUserLocation, tryCatch. rewrite bind_run, fetch_run.
    destruct (net traceUrl) as [r|]; [|done].
    rewrite bind_run. unfold awaitBody. destruct (text r) as [t|]; [|done].
    unfold_m. unfold locOfTrace, truthy.
    destruct (findLocLine t) as [line|] eqn:Hline; [|done].
    cbn [default]. case_bool_decide as Hempty; [|done].
    subst line. exfalso. unfold findLocLine in Hline.
    destruct (runs isLineBreak t); [done|].
    apply find_some in Hline as [_ Hline]. done.
Qed.

(** ** Initialisation *)

Lemma jsOr_effectiveCode located d : jsOr located d = effectiveCode located d.
Proof.
  unfold jsOr, effectiveCode, truthy. destruct located as [c|]; [|done].
  by case_bool_decide.
Qed.

Lemma init_after_setup net d s :
  init net d s =
    match initSetup net s with
    | (Ret located, s1) =>
        match List.find (hasCode (effectiveCode located d)) (items s1) with
        | Some selectedCountry => handleItemSelect selectedCountry s1
        | None => (Ret tt, s1)
        end
    | (Threw e, s1) => (Threw e, s1)
    end.
Proof.
  unfold init, initSetup. rewrite !bind_run.
  destruct (fetchCountries net s) as [[countries|e] s1]; [|done].
  rewrite !bind_run.
  destruct (renderOptions countries s1) as [[[]|e] s2]; [|done].
  rewrite !bind_run.
  destruct (addEventListeners s2) as [[[]|e] s3]; [|done].
  rewrite !bind_run.
  destruct (observeDropdownList s3) as [[[]|e] s4]; [|done].
  rewrite bind_run.
  destruct (fetchUserLocation net s4) as [[located|e] s5]; [|done].
  rewrite jsOr_effectiveCode. unfold_m. unfold hasCode.
  by destruct (List.find _ (items s5)).
Qed.

(** C2.  When the steps of [init] before the selection have run, with
    [located] the answer of [fetchUserLocation], the effective code is
    [located] when that is defined and not empty and the default otherwise;
    [init] then is [handleItemSelect] on the first rendered item whose [cca2]
    is the effective code, and leaves the state as it is when no rendered
    item has it. *)
Theorem init_selects_effective_code net defaultCountryCode s :
  match initSetup net s with
  | (Ret located, s1) =>
      let code := effectiveCode located defaultCountryCode in
      (∃ i item, firstWith (hasCode code) (items s1) i item
                 ∧ Some (cca2 (country item)) = code
                 ∧ init net defaultCountryCode s = handleItemSelect item s1)
      ∨ ((∀ item, item ∈ items s1 → Some (cca2 (country item)) ≠ code)
         ∧ init net defaultCountryCode s = (Ret tt, s1))
  | (Threw e, s1) => init net defaultCountryCode s = (Threw e, s1)
  end.
Proof.
  rewrite init_after_setup.
  destruct (initSetup net s) as [[located|e] s1]; [|done].
  cbv zeta.
  destruct (List.find _ (items s1)) as [item|] eqn:Hfind.
  - left. apply find_firstWith in Hfind as [i Hi]. exists i, item.
    split_and!; [done| |done].
    destruct Hi as (_ & Hcode & _). by apply bool_decide_eq_true in Hcode.
  - right. split; [|done]. intros item Hitem.
    apply (find_nowhere _ _ Hfind) in Hitem. by apply bool_decide_eq_false in Hitem.
Qed.

(** The countries US, FR and BS are rendered and the visitor is located in
    France: FR is selected, although the default is US. *)
Example init_location_overrides_default :
  let s := (newPhonePrefix (Sample.net (Some Sample.traceFR)) Sample.root
              (Some "US") (Some 5) (freshState Sample.page 6)).2 in
  selectedItem s = Some (mkItem 7 Sample.fr) ∧ inputValue (nodes s 5) = "FR".
Proof. vm_compute. done. Qed.

(** The location request fails: the default US is selected. *)
Example init_location_failure_selects_default :
  let s := (newPhonePrefix (Sample.net None) Sample.root
              (Some "US") (Some 5) (freshState Sample.page 6)).2 in
  selectedItem s = Some (mkItem 6 Sample.us) ∧ inputValue (nodes s 5) = "US".
Proof. vm_compute. done. Qed.

(** Neither the location nor the default is the code of a rendered item:
    nothing is selected. *)
Example init_no_match_selects_nothing :
  let s := (newPhonePrefix (Sample.net None) Sample.root
              (Some "DE") (Some 5) (freshState Sample.page 6)).2 in
  selectedItem s = None ∧ inputValue (nodes s 5) = "".
Proof. vm_compute. done. Qed.

(** ** The query for the template item *)

Lemma descendants_sound k d : ∀ h x, In x (descendants k d h) → descendant d h x.
Proof.
  induction k as [|k IH]; intros h x Hx; [destruct Hx|].
  cbn [descendants] in Hx. apply in_flat_map in Hx as (c & Hc & Hx).
  apply list_elem_of_In in Hc. destruct Hx as [<-|Hx].
  - by apply descendant_child.
  - apply descendant_below with c; [done|]. by apply IH.
Qed.

(** In a tree in document order, [n] levels reach every descendant. *)
Lemma descendants_complete d n :
  documentOrder d n →
  ∀ k h x, n ≤ k + h → descendant d h x → In x (descendants k d h).
Proof.
  intros Hd. induction k as [|k IH]; intros h x Hk Hx.
  - exfalso. destruct Hx as [c Hc|c x Hc _]; destruct (Hd _ _ Hc); lia.
  - cbn [descendants]. apply in_flat_map. destruct Hx as [c Hc|c x Hc Hx].
    + exists c. split; [by apply list_elem_of_In|by left].
    + exists c. split; [by apply list_elem_of_In|]. right.
      apply IH; [|done]. destruct (Hd _ _ Hc). lia.
Qed.

Lemma flat_map_ext_elem {A B} (f g : A → list B) (l : list A) :
  (∀ x, x ∈ l → f x = g x) → flat_map f l = flat_map g l.
Proof.
  induction l as [|x l IH]; intros Hfg; [done|]. cbn [flat_map].
  rewrite (Hfg x) by apply list_elem_of_here. f_equal.
  apply IH. intros y Hy. apply Hfg. by apply list_elem_of_further.
Qed.

(** More levels than [n] find the same descendants in the same order. *)
Lemma descendants_enough d n :
  documentOrder d n →
  ∀ k h, n ≤ k + h → descendants (S k) d h = descendants k d h.
Proof.
  intros Hd. induction k as [|k IH]; intros h Hk.
  - cbn [descendants]. destruct (children (d h)) as [|c cs] eqn:Hc; [done|].
    exfalso. destruct (Hd h c); [rewrite Hc; by left|lia].
  - change (descendants (S (S k)) d h)
      with (flat_map (λ c, c :: descendants (S k) d c) (children (d h))).
    change (descendants (S k) d h)
      with (flat_map (λ c, c :: descendants k d c) (children (d h))).
    apply flat_map_ext_elem. intros c Hc. f_equal. apply IH.
    destruct (Hd _ _ Hc). lia.
Qed.

Lemma querySelectorMarker_enough d n k l v :
  documentOrder d n → n ≤ k →
  querySelectorMarker k d l v = querySelectorMarker n d l v.
Proof.
  intros Hd Hk. unfold querySelectorMarker. f_equal.
  induction Hk as [|k Hk IH]; [done|].
  rewrite <- IH. apply (descendants_enough d n Hd). lia.
Qed.

(** What the query finds is a descendant that carries the marker. *)
Lemma querySelectorMarker_found k d l v h :
  querySelectorMarker k d l v = Some h →
  descendant d l h ∧ attributes (d h) !! dataPhonePrefixAttr = Some v.
Proof.
  unfold querySelectorMarker. intros [Hin Hm]%find_some. split.
  - by apply (descendants_sound k).
  - unfold hasMarker in Hm. by apply bool_decide_eq_true in Hm.
Qed.

(** The query finds nothing exactly when no descendant carries the marker. *)
Lemma querySelectorMarker_none d n l v :
  documentOrder d n →
  querySelectorMarker n d l v = None ↔ ∀ x, descendant d l x → hasMarker d v x = false.
Proof.
  intros Hd. unfold querySelectorMarker. split.
  - intros Hnone x Hx. apply (find_none _ _ Hnone).
    apply (descendants_complete d n Hd); [lia|done].
  - intros Hno. destruct (List.find _ _) as [h|] eqn:Hf; [|done].
    apply find_some in Hf as [Hin Hm].
    rewrite (Hno h) in Hm; [done|]. by apply (descendants_sound n).
Qed.

(** A child that carries the marker, with no marked node before it, is what
    the query finds. *)
Lemma querySelectorMarker_child k d l v h :
  children (d l) = [h] → hasMarker d v h = true →
  querySelectorMarker (S k) d l v = Some h.
Proof.
  intros Hc Hm. unfold querySelectorMarker. cbn [descendants]. rewrite Hc.
  cbn [flat_map app List.find]. by rewrite Hm.
Qed.

(** ** Missing elements *)

Lemma missing_template_counterexample :
  querySelectorMarker 6 Sample.pageNoTemplate 3 "item" = None ∧
  let r := newPhonePrefix (Sample.net (Some Sample.traceFR)) Sample.root
             (Some "US") (Some 5) (freshState Sample.pageNoTemplate 6) in
  r.1 = Ret tt ∧ items r.2 = [] ∧ listening r.2 = true ∧ observing r.2 = true.
Proof. vm_compute. done. Qed.

(** C8 (amended).  A missing toggle makes the constructor throw where it
    sets [aria-haspopup]; a missing list container makes [renderOptions]
    throw at its [querySelector]; a missing dropdown list makes
    [addEventListeners] and [observeDropdownList] throw.  A missing template
    item is guarded: when no descendant of the list container carries the
    item marker, [renderOptions] returns at once and changes nothing. *)
Theorem missing_elements root input countries s :
  (constructor root input s).1 =
    match toggleOf root with
    | Some _ => Ret tt
    | None => Threw (TypeError "dropdownToggle")
    end
  ∧
  match listEl s with
  | None => renderOptions countries s = (Threw (TypeError "list"), s)
  | Some l =>
      match querySelectorMarker (nextHandle s) (nodes s) l "item" with
      | None => renderOptions countries s = (Ret tt, s)
      | Some _ => True
      end
  end
  ∧
  match dropdownList s with
  | None => addEventListeners s = (Threw (TypeError "dropdownList"), s)
            ∧ observeDropdownList s = (Threw (TypeError "dropdownList"), s)
  | Some _ => True
  end.
Proof.
  split_and!.
  - unfold constructor. unfold_m. fields. by destruct (toggleOf root).
  - unfold renderOptions. unfold_m. destruct (listEl s) as [l|]; [|done].
    by destruct (querySelectorMarker (nextHandle s) (nodes s) l "item").
  - unfold addEventListeners, observeDropdownList. unfold_m.
    by destruct (dropdownList s).
Qed.

(** ** Selection *)

Lemma nodesOnly_refl s : nodesOnly s s.
Proof. by destruct s. Qed.

Lemma nodesOnly_trans s1 s2 s3 : nodesOnly s1 s2 → nodesOnly s2 s3 → nodesOnly s1 s3.
Proof.
  unfold nodesOnly. intros H12 H23. rewrite H23 at 1. rewrite H12 at 1. reflexivity.
Qed.

Lemma nodesBy_trans f g s1 s2 s3 :
  nodesBy f s1 s2 → nodesBy g s2 s3 → nodesBy (λ h e, g h (f h e)) s1 s3.
Proof. intros H12 H23 h. by rewrite H23, H12. Qed.

Lemma updEl_spec h g s :
  ∃ s', updEl h g s = (Ret tt, s') ∧ nodesOnly s s'
        ∧ nodesBy (λ h' e, if decide (h' = h) then g e else e) s s'.
Proof.
  eexists. split; [reflexivity|]. split; [by destruct s|].
  intros h'. fields. unfold insert, fn_insert.
  destruct (decide (h = h')), (decide (h' = h)); congruence.
Qed.

Lemma toggleItemSelected_spec item b s :
  ∃ s', toggleItemSelected item b s = (Ret tt, s') ∧ nodesOnly s s'
        ∧ nodesBy (λ h e, if decide (h = element item) then markSelected b e else e) s s'.
Proof.
  unfold toggleItemSelected, classListToggle, setAttribute. rewrite bind_run.
  destruct (updEl_spec (element item)
              (λ e, setClassList
                 (if b then {[dropdownElements.dropdownItemSelected]} ∪ classList e
                  else classList e ∖ {[dropdownElements.dropdownItemSelected]}) e) s)
    as (s1 & -> & O1 & N1).
  destruct (updEl_spec (element item)
              (λ e, setAttributes
                 (<["aria-selected" := if b then "true" else "false"]> (attributes e)) e) s1)
    as (s2 & -> & O2 & N2).
  exists s2. split; [done|]. split; [by eapply nodesOnly_trans|].
  intros h. rewrite N2, N1. by destruct (decide (h = element item)).
Qed.

Lemma setFlagSrc_some what h v s img :
  flag (nodes s h) = Some img →
  setFlagSrc what h v s = updEl h (setFlag (Some (mkImage v (alt img)))) s.
Proof. intros H. unfold setFlagSrc. rewrite bind_run. unfold gets. by rewrite H. Qed.

Lemma setFlagAlt_some what h v s img :
  flag (nodes s h) = Some img →
  setFlagAlt what h v s = updEl h (setFlag (Some (mkImage (src img) v))) s.
Proof. intros H. unfold setFlagAlt. rewrite bind_run. unfold gets. by rewrite H. Qed.

Lemma setValueText_some what h v s old :
  valueEl (nodes s h) = Some old →
  setValueText what h v s = updEl h (setValueEl (Some v)) s.
Proof. intros H. unfold setValueText. rewrite bind_run. unfold gets. by rewrite H. Qed.

Lemma setFlagSrc_none what h v s :
  flag (nodes s h) = None → setFlagSrc what h v s = (Threw (TypeError what), s).
Proof. intros H. unfold setFlagSrc. rewrite bind_run. unfold gets. by rewrite H. Qed.

Lemma updateDropdownToggle_spec item t s :
  is_Some (flag (nodes s t)) → is_Some (valueEl (nodes s t)) →
  ∃ s', updateDropdownToggle item (Some t) s = (Ret tt, s') ∧ nodesOnly s s'
        ∧ nodesBy (λ h e, if decide (h = t) then showCountry (country item) e else e) s s'.
Proof.
  intros [img Himg] [v Hv].
  unfold updateDropdownToggle, setAttribute. cbv zeta. cbn [deref].
  rewrite bind_run. unfold mret at 1, M_ret at 1. cbv beta iota.
  rewrite bind_run, (setFlagSrc_some _ _ _ _ _ Himg).
  destruct (updEl_spec t (setFlag (Some (mkImage (flags_svg (country item)) (alt img)))) s)
    as (s1 & -> & O1 & N1).
  assert (flag (nodes s1 t) = Some (mkImage (flags_svg (country item)) (alt img))) as Himg1.
  { rewrite N1. by rewrite decide_True. }
  rewrite bind_run, (setFlagAlt_some _ _ _ _ _ Himg1). cbn [src].
  destruct (updEl_spec t
              (setFlag (Some (mkImage (flags_svg (country item))
                                (name_common (country item) +:+ " Flag")))) s1)
    as (s2 & -> & O2 & N2).
  assert (valueEl (nodes s2 t) = Some v) as Hv2.
  { rewrite N2, N1. by rewrite !decide_True. }
  rewrite bind_run, (setValueText_some _ _ _ _ _ Hv2).
  destruct (updEl_spec t (setValueEl (Some (countryCode (country item)))) s2)
    as (s3 & -> & O3 & N3).
  destruct (updEl_spec t
              (λ e, setAttributes (<["aria-label" := name_common (country item)]> (attributes e)) e)
              s3)
    as (s4 & -> & O4 & N4).
  exists s4. split; [done|].
  split; [eauto using nodesOnly_trans|].
  intros h. rewrite N4, N3, N2, N1. unfold showCountry.
  rewrite <- countryCode_diallingPrefix. by destruct (decide (h = t)).
Qed.

Lemma focus_focusAndEffectsOnly h s :
  ∃ s', focus h s = (Ret tt, s') ∧ focusAndEffectsOnly s s'
        ∧ activeElement s' = Some h ∧ effects s' = effects s.
Proof.
  destruct (focus_frame h s) as (s' & R & F & Ha & Hq).
  exists s'. split_and!; [done| |done|by apply (f_equal effects) in F].
  clear - F Hq. unfold focusAndEffectsOnly, onlySearchAndFocus in *. fields_eq.
Qed.

Lemma getsToggle_run s t :
  dropdownToggle s = Some t →
  (gets dropdownToggle ≫= deref "dropdownToggle") s = (Ret t, s).
Proof. intros H. rewrite bind_run. unfold gets. by rewrite H. Qed.

Lemma closeDropdown_spec s t :
  dropdownToggle s = Some t →
  ∃ s', closeDropdown true s = (Ret tt, s') ∧ focusAndEffectsOnly s s'
        ∧ activeElement s' = Some t
        ∧ effects s' = effects s ++ closingEvents t.
Proof.
  intros Ht. unfold closeDropdown, when, dispatchEvent, emit.
  rewrite bind_run, bind_run, (getsToggle_run _ _ Ht).
  destruct (focus_focusAndEffectsOnly t s) as (s1 & -> & F & Ha & He).
  assert (dropdownToggle s1 = Some t) as Ht1.
  { apply (f_equal dropdownToggle) in F. cbn in F. congruence. }
  rewrite bind_run, (getsToggle_run _ _ Ht1). unfold_m.
  eexists. split; [reflexivity|]. fields. split_and!; [|done|].
  - clear - F. unfold focusAndEffectsOnly in *. fields_eq.
  - rewrite He. unfold closingEvents. by rewrite <- app_assoc.
Qed.

Lemma handleItemSelect_same item s :
  isSelectedItem (selectedItem s) item = true → handleItemSelect item s = (Ret tt, s).
Proof. intros H. unfold handleItemSelect. unfold_m. by rewrite H. Qed.

Lemma handleItemSelect_run item s t :
  isSelectedItem (selectedItem s) item = false →
  dropdownToggle s = Some t →
  is_Some (flag (nodes s t)) → is_Some (valueEl (nodes s t)) →
  ∃ s', handleItemSelect item s = (Ret tt, s')
        ∧ selectionFrame s s'
        ∧ selectedItem s' = Some item
        ∧ nodesBy (afterSelect s item) s s'
        ∧ effects s' = effects s ++ (if listIsOpen s then closingEvents t else [])
        ∧ activeElement s' = if listIsOpen s then Some t else activeElement s.
Proof.
  intros Hsel Ht Hflag Hvalue.
  unfold handleItemSelect. rewrite bind_run. unfold gets at 1. cbv beta iota.
  rewrite Hsel. unfold unless.
  (* the previous selection *)
  assert (∃ s1, match selectedItem s with
                | Some previous => toggleItemSelected previous false
                | None => mret tt
                end s = (Ret tt, s1) ∧ nodesOnly s s1
                ∧ nodesBy (λ h e, match selectedItem s with
                                  | Some previous =>
                                      if decide (h = element previous)
                                      then markSelected false e else e
                                  | None => e
                                  end) s s1) as (s1 & R1 & O1 & N1).
  { destruct (selectedItem s) as [previous|].
    - apply toggleItemSelected_spec.
    - exists s. split; [done|]. split; [apply nodesOnly_refl|done]. }
  rewrite bind_run, R1.
  (* the new selection *)
  destruct (toggleItemSelected_spec item true s1) as (s2 & R2 & O2 & N2).
  rewrite bind_run, R2. rewrite bind_run. unfold modify at 1. cbv beta iota.
  pose proof (nodesOnly_trans _ _ _ O1 O2) as O12.
  assert (dropdownToggle (setSelectedItem (Some item) s2) = Some t) as Ht3.
  { apply (f_equal dropdownToggle) in O12. cbn in O12. fields. congruence. }
  (* the toggle *)
  assert (is_Some (flag (nodes (setSelectedItem (Some item) s2) t))
          ∧ is_Some (valueEl (nodes (setSelectedItem (Some item) s2) t))) as [Hf3 Hv3].
  { fields. rewrite N2, N1.
    destruct (selectedItem s) as [previous|];
      repeat (match goal with |- context [decide ?P] => destruct (decide P) end); done. }
  destruct (updateDropdownToggle_spec item t _ Hf3 Hv3) as (s4 & R4 & O4 & N4).
  rewrite bind_run, bind_run. unfold gets at 1. cbv beta iota. rewrite Ht3, R4.
  (* the input *)
  assert (countryCodeInput s4 = countryCodeInput s) as Hi4.
  { apply (f_equal countryCodeInput) in O4. apply (f_equal countryCodeInput) in O12.
    cbn in O4, O12. congruence. }
  rewrite bind_run. unfold gets at 1. cbv beta iota. rewrite Hi4.
  assert (∃ s5, match countryCodeInput s with
                | Some i => updEl i (setInputValue (cca2 (country item)))
                | None => mret tt
                end s4 = (Ret tt, s5) ∧ nodesOnly s4 s5
                ∧ nodesBy (λ h e, if decide (Some h = countryCodeInput s)
                                  then setInputValue (cca2 (country item)) e else e) s4 s5)
    as (s5 & R5 & O5 & N5).
  { destruct (countryCodeInput s) as [i|].
    - destruct (updEl_spec i (setInputValue (cca2 (country item))) s4) as (s5 & R & O & N).
      exists s5. split; [done|]. split; [done|]. intros h. rewrite N.
      destruct (decide (h = i)), (decide (Some h = Some i)); congruence.
    - exists s4. split; [done|]. split; [apply nodesOnly_refl|]. intros h.
      by destruct (decide (Some h = None)). }
  rewrite bind_run, R5.
  pose proof (nodesOnly_trans _ _ _ O4 O5) as O35.
  (* the state before closing *)
  assert (s5 = setSelectedItem (Some item) (setNodes (nodes s5) s)) as E5.
  { clear - O35 O12. unfold nodesOnly in *. fields_eq. }
  assert (nodesBy (afterSelect s item) s s5) as N.
  { intros h. rewrite N5, N4. fields. rewrite N2, N1.
    unfold afterSelect. rewrite Ht.
    destruct (decide (h = t)), (decide (Some h = Some t)); congruence. }
  rewrite bind_run. unfold gets at 1. cbv beta iota.
  assert (listIsOpen s5 = listIsOpen s) as -> by (by rewrite E5).
  assert (dropdownToggle s5 = Some t) as Ht5 by (by rewrite E5).
  assert (effects s5 = effects s) as He5 by (by rewrite E5).
  assert (activeElement s5 = activeElement s) as Ha5 by (by rewrite E5).
  assert (selectedItem s5 = Some item) as Hs5 by (by rewrite E5).
  unfold when. destruct (listIsOpen s) eqn:Hopen.
  - destruct (closeDropdown_spec s5 t Ht5) as (s6 & R6 & F6 & Ha6 & He6).
    exists s6. split; [done|].
    assert (selectedItem s6 = Some item) as Hs6.
    { apply (f_equal selectedItem) in F6. cbn in F6. congruence. }
    assert (nodes s6 = nodes s5) as Hn6 by (by apply (f_equal nodes) in F6).
    split_and!.
    + clear - F6 E5. unfold selectionFrame, focusAndEffectsOnly in *. fields_eq.
    + done.
    + intros h. rewrite Hn6. apply N.
    + by rewrite He6, He5.
    + done.
  - exists s5. split; [done|]. split_and!.
    + clear - E5. unfold selectionFrame. fields_eq.
    + done.
    + done.
    + by rewrite app_nil_r.
    + done.
Qed.

Lemma afterSelect_classList s item h e :
  classList (afterSelect s item h e) =
    let before :=
      match selectedItem s with
      | Some previous =>
          if decide (h = element previous)
          then classList e ∖ {[ dropdownElements.dropdownItemSelected ]}
          else classList e
      | None => classList e
      end in
    if decide (h = element item)
    then {[ dropdownElements.dropdownItemSelected ]} ∪ before else before.
Proof.
  unfold afterSelect, markSelected, showCountry. cbv zeta.
  destruct (selectedItem s) as [previous|];
    repeat (match goal with |- context [decide ?P] => destruct (decide P) end);
    reflexivity.
Qed.

Lemma afterSelect_aria_selected s item h e :
  attributes (afterSelect s item h e) !! "aria-selected" =
    if decide (h = element item) then Some "true"
    else match selectedItem s with
         | Some previous =>
             if decide (h = element previous) then Some "false"
             else attributes e !! "aria-selected"
         | None => attributes e !! "aria-selected"
         end.
Proof.
  unfold afterSelect, markSelected, showCountry. cbv zeta.
  destruct (selectedItem s) as [previous|];
    repeat (match goal with |- context [decide ?P] => destruct (decide P) end);
    cbn [attributes setAttributes setClassList setFlag setValueEl setInputValue];
    rewrite ?(lookup_insert_ne _ "aria-label" "aria-selected") by discriminate;
    rewrite ?lookup_insert_eq; reflexivity.
Qed.

Lemma afterSelect_toggle s item h e :
  Some h = dropdownToggle s →
  flag (afterSelect s item h e)
    = Some (mkImage (flags_svg (country item)) (name_common (country item) +:+ " Flag"))
  ∧ valueEl (afterSelect s item h e) = Some (diallingPrefix (country item))
  ∧ attributes (afterSelect s item h e) !! "aria-label" = Some (name_common (country item)).
Proof.
  intros Ht. unfold afterSelect, showCountry. cbv zeta.
  rewrite (decide_True _ _ Ht).
  destruct (decide (Some h = countryCodeInput s));
    cbn [flag valueEl attributes setAttributes setFlag setValueEl setInputValue];
    by rewrite lookup_insert_eq.
Qed.

Lemma afterSelect_input s item h e :
  inputValue (afterSelect s item h e) =
    if decide (Some h = countryCodeInput s) then cca2 (country item) else inputValue e.
Proof.
  unfold afterSelect, markSelected, showCountry. cbv zeta.
  destruct (selectedItem s) as [previous|];
    repeat (match goal with |- context [decide ?P] => destruct (decide P) end);
    reflexivity.
Qed.

Lemma afterSelect_other s item h e :
  h ≠ element item →
  (∀ previous, selectedItem s = Some previous → h ≠ element previous) →
  Some h ≠ dropdownToggle s → Some h ≠ countryCodeInput s →
  afterSelect s item h e = e.
Proof.
  intros Hi Hp Ht Hin. unfold afterSelect. cbv zeta.
  rewrite (decide_False _ _ Hi), (decide_False _ _ Ht), (decide_False _ _ Hin).
  destruct (selectedItem s) as [previous|]; [|done].
  by rewrite decide_False by (by apply Hp).
Qed.

(** C3.  [handleItemSelect] on the selected item changes nothing.  On any
    other item, with a toggle that has its flag and value parts, it returns
    normally and: the item becomes [selectedItem]; the previously selected
    item, if any, loses the selected class and gets [aria-selected="false"];
    the item gains the class and [aria-selected="true"]; no other element's
    class or [aria-selected] changes; the toggle shows the flag, the name
    and the dialling prefix of the country, which is the root followed by
    the suffix when the country has exactly one suffix and the root alone
    otherwise; the bound input, when present, holds the item's [cca2]; the
    dropdown is closed, by a click and a mouseup replayed on the toggle,
    exactly when the list was open; every node is as [afterSelect] says and
    nothing else of the widget changes.  Hence when only the selected item
    was marked before, only the selected item is marked after. *)
Theorem handleItemSelect_spec item s :
  (isSelectedItem (selectedItem s) item = true →
   handleItemSelect item s = (Ret tt, s))
  ∧
  (isSelectedItem (selectedItem s) item = false →
   ∀ t, dropdownToggle s = Some t →
        is_Some (flag (nodes s t)) → is_Some (valueEl (nodes s t)) →
   ∃ s', handleItemSelect item s = (Ret tt, s')
     ∧ selectedItem s' = Some item
     ∧ (∀ previous, selectedItem s = Some previous →
          ¬ marked s' previous
          ∧ attributes (nodes s' (element previous)) !! "aria-selected" = Some "false")
     ∧ marked s' item
     ∧ attributes (nodes s' (element item)) !! "aria-selected" = Some "true"
     ∧ (∀ other,
          element other ≠ element item →
          (∀ previous, selectedItem s = Some previous → element other ≠ element previous) →
          (marked s' other ↔ marked s other)
          ∧ attributes (nodes s' (element other)) !! "aria-selected"
            = attributes (nodes s (element other)) !! "aria-selected")
     ∧ flag (nodes s' t)
       = Some (mkImage (flags_svg (country item)) (name_common (country item) +:+ " Flag"))
     ∧ valueEl (nodes s' t) = Some (diallingPrefix (country item))
     ∧ (∀ suffix, idd_suffixes (country item) = [suffix] →
          valueEl (nodes s' t) = Some (idd_root (country item) +:+ suffix))
     ∧ (length (idd_suffixes (country item)) ≠ 1 →
          valueEl (nodes s' t) = Some (idd_root (country item)))
     ∧ attributes (nodes s' t) !! "aria-label" = Some (name_common (country item))
     ∧ (∀ h, inputValue (nodes s' h) =
             if decide (Some h = countryCodeInput s)
             then cca2 (country item) else inputValue (nodes s h))
     ∧ effects s' = effects s ++ (if listIsOpen s then closingEvents t else [])
     ∧ nodesBy (afterSelect s item) s s'
     ∧ selectionFrame s s'
     ∧ (onlySelectedMarked s → onlySelectedMarked s')).
Proof.
  split; [apply handleItemSelect_same|].
  intros Hsel t Ht Hflag Hvalue.
  destruct (handleItemSelect_run item s t Hsel Ht Hflag Hvalue)
    as (s' & R & F & Hs' & N & He & Ha).
  assert (∀ previous, selectedItem s = Some previous → element previous ≠ element item)
    as Hprev.
  { intros previous Hp. rewrite Hp in Hsel. cbn in Hsel. unfold sameItem in Hsel.
    by apply bool_decide_eq_false in Hsel. }
  exists s'. split; [done|]. split; [done|]. split_and!.
  - intros previous Hp. pose proof (Hprev _ Hp) as Hne. split.
    + unfold marked. rewrite N, afterSelect_classList, Hp. cbv zeta.
      rewrite (decide_False _ _ Hne), (decide_True _ _ eq_refl).
      rewrite elem_of_difference, elem_of_singleton. by intros [_ ?].
    + rewrite N, afterSelect_aria_selected, Hp.
      by rewrite (decide_False _ _ Hne), (decide_True _ _ eq_refl).
  - unfold marked. rewrite N, afterSelect_classList. cbv zeta.
    rewrite (decide_True _ _ eq_refl). by apply elem_of_union_l, elem_of_singleton.
  - rewrite N, afterSelect_aria_selected. by rewrite (decide_True _ _ eq_refl).
  - intros other Hitem Hother. split.
    + unfold marked. rewrite N, afterSelect_classList. cbv zeta.
      rewrite (decide_False _ _ Hitem).
      destruct (selectedItem s) as [previous|]; [|done].
      by rewrite (decide_False _ _ (Hother _ eq_refl)).
    + rewrite N, afterSelect_aria_selected. rewrite (decide_False _ _ Hitem).
      destruct (selectedItem s) as [previous|]; [|done].
      by rewrite (decide_False _ _ (Hother _ eq_refl)).
  - rewrite N. by apply afterSelect_toggle.
  - rewrite N. by apply afterSelect_toggle.
  - intros suffix Hone. rewrite N.
    rewrite (proj1 (proj2 (afterSelect_toggle s item t (nodes s t) (eq_sym Ht)))).
    unfold diallingPrefix. by rewrite Hone.
  - intros Hmany. rewrite N.
    rewrite (proj1 (proj2 (afterSelect_toggle s item t (nodes s t) (eq_sym Ht)))).
    unfold diallingPrefix.
    by destruct (idd_suffixes (country item)) as [|suffix [|other suffixes]].
  - rewrite N. by apply afterSelect_toggle.
  - intros h. by rewrite N, afterSelect_input.
  - done.
  - done.
  - done.
  - intros Hinv x Hx Hmarked.
    assert (items s' = items s) as Hitems by (by apply (f_equal items) in F).
    rewrite Hitems in Hx. rewrite Hs'. cbn [isSelectedItem]. unfold sameItem.
    apply bool_decide_eq_true. unfold marked in Hmarked.
    rewrite N, afterSelect_classList in Hmarked. cbv zeta in Hmarked.
    destruct (decide (element x = element item)) as [|Hne]; [done|]. exfalso.
    specialize (Hinv x Hx). unfold marked in Hinv.
    destruct (selectedItem s) as [previous|].
    + destruct (decide (element x = element previous)) as [Heq|Hnp].
      * apply elem_of_difference in Hmarked as [_ Hnot].
        by apply Hnot, elem_of_singleton.
      * specialize (Hinv Hmarked). cbn in Hinv. unfold sameItem in Hinv.
        apply bool_decide_eq_true in Hinv. congruence.
    + by specialize (Hinv Hmarked).
Qed.

Lemma handleItemSelect_spec_witness :
  isSelectedItem (selectedItem Sample.opened) (mkItem 8 Sample.bs) = false ∧
  dropdownToggle Sample.opened = Some 1 ∧
  listIsOpen Sample.opened = true ∧
  idd_root Sample.bs = "+1" ∧ idd_suffixes Sample.bs = ["242"] ∧
  ∃ s', handleItemSelect (mkItem 8 Sample.bs) Sample.opened = (Ret tt, s')
        ∧ selectedItem s' = Some (mkItem 8 Sample.bs)
        ∧ ¬ marked s' (mkItem 7 Sample.fr)
        ∧ marked s' (mkItem 8 Sample.bs)
        ∧ valueEl (nodes s' 1) = Some "+1242"
        ∧ inputValue (nodes s' 5) = "BS"
        ∧ effects s' = effects Sample.opened ++ closingEvents 1.
Proof.
  assert (isSelectedItem (selectedItem Sample.opened) (mkItem 8 Sample.bs) = false) as Hsel
    by (vm_compute; reflexivity).
  assert (dropdownToggle Sample.opened = Some 1) as Ht by (vm_compute; reflexivity).
  assert (is_Some (flag (nodes Sample.opened 1))) as Hflag
    by (vm_compute; eexists; reflexivity).
  assert (is_Some (valueEl (nodes Sample.opened 1))) as Hvalue
    by (vm_compute; eexists; reflexivity).
  split; [exact Hsel|]. split; [exact Ht|]. split; [vm_compute; reflexivity|].
  split; [reflexivity|]. split; [reflexivity|].
  destruct (proj2 (handleItemSelect_spec (mkItem 8 Sample.bs) Sample.opened)
              Hsel 1 Ht Hflag Hvalue)
    as (s' & R & Hs' & Hprev & Hmark & _ & _ & _ & _ & Hone & _ & _ & Hinput & He & _).
  exists s'. split; [exact R|]. split; [exact Hs'|].
  split; [exact (proj1 (Hprev (mkItem 7 Sample.fr) eq_refl))|].
  split; [exact Hmark|]. split; [exact (Hone "242" eq_refl)|].
  split; [exact (Hinput 5)|]. exact He.
Defined.

(** ** Rendering *)

Lemma renderedItems_cons n c countries :
  renderedItems n (c :: countries) = mkItem n c :: renderedItems (S n) countries.
Proof.
  unfold renderedItems. rewrite imap_cons. f_equal; [f_equal; lia|].
  apply imap_ext. intros i x _. cbn. f_equal. lia.
Qed.

Lemma renderedItems_length n countries :
  length (renderedItems n countries) = length countries.
Proof. unfold renderedItems. apply length_imap. Qed.

Lemma renderedItems_lookup n countries i :
  renderedItems n countries !! i = mkItem (n + i) <$> countries !! i.
Proof. unfold renderedItems. rewrite list_lookup_imap. by destruct (countries !! i). Qed.

Lemma nodesOnly_nodesNextOnly s s' : nodesOnly s s' → nodesNextOnly s s'.
Proof. unfold nodesOnly, nodesNextOnly. intros H. fields_eq. Qed.

Lemma nodesNextOnly_trans s1 s2 s3 :
  nodesNextOnly s1 s2 → nodesNextOnly s2 s3 → nodesNextOnly s1 s3.
Proof. unfold nodesNextOnly. intros H12 H23. fields_eq. Qed.

Lemma nodesOnly_nextHandle s s' : nodesOnly s s' → nextHandle s' = nextHandle s.
Proof. intros H. by apply (f_equal nextHandle) in H. Qed.

(** One round of the loop of [renderOptions]: the clone is made at the
    next free handle, filled in, and appended to the list. *)
Lemma createCountryItem_spec c tpl s :
  is_Some (flag (nodes s tpl)) → is_Some (valueEl (nodes s tpl)) →
  ∃ s', createCountryItem c tpl s = (Ret (nextHandle s), s')
        ∧ nodesNextOnly s s'
        ∧ nextHandle s' = S (nextHandle s)
        ∧ ∀ h, nodes s' h =
               if decide (h = nextHandle s) then rendered c (nodes s tpl) else nodes s h.
Proof.
  intros [img Himg] [v Hv]. unfold createCountryItem, setAttribute.
  rewrite bind_run. unfold cloneNode at 1. cbv beta iota zeta.
  set (n := nextHandle s).
  set (s0 := setNextHandle (S n) (setNodes (<[n:=nodes s tpl]> (nodes s)) s)).
  assert (nodes s0 n = nodes s tpl) as Hn0 by (subst s0; fields; apply fn_lookup_insert).
  assert (flag (nodes s0 n) = Some img) as Himg0 by (by rewrite Hn0).
  rewrite bind_run, (setFlagSrc_some _ _ _ _ _ Himg0).
  destruct (updEl_spec n (setFlag (Some (mkImage (flags_svg c) (alt img)))) s0)
    as (s1 & -> & O1 & N1).
  assert (flag (nodes s1 n) = Some (mkImage (flags_svg c) (alt img))) as Himg1.
  { rewrite N1. by rewrite decide_True. }
  rewrite bind_run, (setFlagAlt_some _ _ _ _ _ Himg1). cbn [src].
  destruct (updEl_spec n
              (setFlag (Some (mkImage (flags_svg c) (name_common c +:+ " Flag")))) s1)
    as (s2 & -> & O2 & N2).
  assert (valueEl (nodes s2 n) = Some v) as Hv2.
  { rewrite N2, N1, Hn0. by rewrite !decide_True. }
  rewrite bind_run, (setValueText_some _ _ _ _ _ Hv2).
  destruct (updEl_spec n
              (setValueEl (Some (cca2 c +:+ " (" +:+ countryCode c +:+ ")"))) s2)
    as (s3 & -> & O3 & N3).
  rewrite bind_run.
  destruct (updEl_spec n
              (λ e, setAttributes (<["aria-label" := name_common c]> (attributes e)) e) s3)
    as (s4 & -> & O4 & N4).
  rewrite bind_run.
  destruct (updEl_spec n
              (λ e, setAttributes (<["title" := name_common c]> (attributes e)) e) s4)
    as (s5 & -> & O5 & N5).
  exists s5. split; [done|].
  assert (nodesOnly s0 s5) as O05 by eauto using nodesOnly_trans.
  split_and!.
  - clear - O05. unfold nodesOnly, nodesNextOnly in *. subst s0. fields_eq.
  - apply nodesOnly_nextHandle in O05. by rewrite O05.
  - intros h. rewrite N5, N4, N3, N2, N1.
    destruct (decide (h = n)) as [->|Hne].
    + rewrite Hn0. unfold rendered, itemLabel.
      by rewrite <- countryCode_diallingPrefix.
    + subst s0. fields. by rewrite fn_lookup_insert_ne.
Qed.

Lemma mapM_cons_run {A B} (f : A → M B) x l s :
  mapM f (x :: l) s =
    match f x s with
    | (Ret y, s1) =>
        match mapM f l s1 with
        | (Ret k, s2) => (Ret (y :: k), s2)
        | (Threw e, s2) => (Threw e, s2)
        end
    | (Threw e, s1) => (Threw e, s1)
    end.
Proof. reflexivity. Qed.

Lemma setChildren_id e : setChildren (children e) e = e.
Proof. by destruct e. Qed.

Lemma renderOne_spec l tpl c s :
  is_Some (flag (nodes s tpl)) → is_Some (valueEl (nodes s tpl)) →
  l < nextHandle s →
  ∃ s', renderOne l tpl c s = (Ret (mkItem (nextHandle s) c), s')
        ∧ nodesNextOnly s s'
        ∧ nextHandle s' = S (nextHandle s)
        ∧ nodes s' l = setChildren (children (nodes s l) ++ [nextHandle s]) (nodes s l)
        ∧ nodes s' (nextHandle s) = rendered c (nodes s tpl)
        ∧ ∀ h, h ≠ l → h ≠ nextHandle s → nodes s' h = nodes s h.
Proof.
  intros Hflag Hvalue Hl. unfold renderOne, appendChild.
  destruct (createCountryItem_spec c tpl s Hflag Hvalue) as (s1 & R1 & O1 & Hn1 & N1).
  rewrite bind_run, R1. rewrite bind_run.
  destruct (updEl_spec l (λ e, setChildren (children e ++ [nextHandle s]) e) s1)
    as (s2 & -> & O2 & N2).
  exists s2. split; [done|]. split_and!.
  - eauto using nodesNextOnly_trans, nodesOnly_nodesNextOnly.
  - apply nodesOnly_nextHandle in O2. congruence.
  - rewrite N2, N1. rewrite decide_True by done. rewrite decide_False by lia. done.
  - rewrite N2, N1. rewrite decide_False by lia. by rewrite decide_True.
  - intros h Hhl Hhn. rewrite N2, N1. by rewrite !decide_False.
Qed.

(** The loop: one item for each country, on consecutive fresh handles. *)
Lemma renderLoop_spec l tpl countries : ∀ s,
  is_Some (flag (nodes s tpl)) → is_Some (valueEl (nodes s tpl)) →
  l < nextHandle s → tpl < nextHandle s → tpl ≠ l →
  ∃ s', mapM (renderOne l tpl) countries s
          = (Ret (renderedItems (nextHandle s) countries), s')
        ∧ nodesNextOnly s s'
        ∧ nextHandle s' = nextHandle s + length countries
        ∧ nodes s' l =
            setChildren (children (nodes s l) ++ seq (nextHandle s) (length countries))
              (nodes s l)
        ∧ (∀ i c, countries !! i = Some c →
             nodes s' (nextHandle s + i) = rendered c (nodes s tpl))
        ∧ (∀ h, h ≠ l → h < nextHandle s → nodes s' h = nodes s h).
Proof.
  induction countries as [|c countries IH]; intros s Hflag Hvalue Hl Htpl Hne.
  - exists s. split; [done|]. split_and!.
    + unfold nodesNextOnly. fields_eq.
    + cbn. lia.
    + cbn [length seq]. by rewrite app_nil_r, setChildren_id.
    + intros i c Hi. done.
    + done.
  - destruct (renderOne_spec l tpl c s Hflag Hvalue Hl)
      as (s1 & R1 & O1 & Hn1 & Hl1 & Hc1 & Ho1).
    assert (nodes s1 tpl = nodes s tpl) as Htpl1 by (apply Ho1; [done|lia]).
    destruct (IH s1) as (s2 & R2 & O2 & Hn2 & Hl2 & Hc2 & Ho2).
    { by rewrite Htpl1. } { by rewrite Htpl1. } { lia. } { lia. } { done. }
    exists s2. rewrite mapM_cons_run, R1, R2, Hn1, renderedItems_cons.
    split; [done|]. split_and!.
    + eauto using nodesNextOnly_trans.
    + rewrite Hn2, Hn1. cbn [length]. lia.
    + rewrite Hl2, Hl1, Hn1. cbn [children setChildren length seq].
      by rewrite <- app_assoc.
    + intros [|i] c' Hi; cbn in Hi.
      * injection Hi as <-. rewrite Nat.add_0_r.
        rewrite Ho2 by lia. done.
      * replace (nextHandle s + S i) with (nextHandle s1 + i) by lia.
        rewrite (Hc2 i c' Hi). by rewrite Htpl1.
    + intros h Hhl Hh. rewrite Ho2 by lia. apply Ho1; [done|lia].
Qed.

Lemma filter_fresh (tpl n len : nat) :
  tpl < n →
  List.filter (λ h, negb (bool_decide (h = tpl))) (seq n len) = seq n len.
Proof.
  intros Hlt. revert n Hlt. induction len as [|len IH]; intros n Hlt; [done|].
  cbn [seq List.filter]. rewrite bool_decide_eq_false_2 by lia. cbn [negb].
  f_equal. apply IH. lia.
Qed.

Lemma filter_removes (tpl : nat) (l : list nat) :
  tpl ∉ List.filter (λ h, negb (bool_decide (h = tpl))) l.
Proof.
  rewrite list_elem_of_In, filter_In. intros [_ H].
  by rewrite bool_decide_eq_true_2 in H.
Qed.

Lemma label_counterexample :
  let s' := (renderOptions [Sample.bsPlain] Sample.constructed).2 in
  items s' = [mkItem 6 Sample.bsPlain] ∧
  diallingPrefix Sample.bsPlain = "1242" ∧
  valueEl (nodes s' 6) = Some "BS (1242)" ∧
  valueEl (nodes s' 6) ≠ Some (itemLabelWithPlus Sample.bsPlain).
Proof.
  split; [vm_compute; reflexivity|]. split; [vm_compute; reflexivity|].
  split; [vm_compute; reflexivity|]. vm_compute. intros H. discriminate H.
Qed.

(** With the root as the country service sends it, ["+1"], the label reads
    ["BS (+1242)"]: the plus sign is the one of the root. *)
Example label_with_root_from_service :
  let s' := (renderOptions [Sample.bs] Sample.constructed).2 in
  valueEl (nodes s' 6) = Some "BS (+1242)" ∧
  itemLabelWithPlus Sample.bs = "BS (++1242)".
Proof. split; vm_compute; reflexivity. Qed.

(** C7 (amended).  With the list container and, as a child of it, a
    template item that has its flag and value parts, [renderOptions] returns
    normally and makes one item for each country, in order, each around a
    fresh clone of the template whose flag has the country's image and
    ["<name> Flag"] as alternative text, whose label is ["<ISO> (<prefix>)"]
    with the dialling prefix (the root, followed by the suffix when there is
    exactly one) and no character added to it, and whose [aria-label] and
    [title] are the common name; the clones are appended to the list and the
    template is removed from it. *)
Theorem renderOptions_spec countries s l tpl :
  listEl s = Some l →
  querySelectorMarker (nextHandle s) (nodes s) l "item" = Some tpl →
  tpl ∈ children (nodes s l) →
  is_Some (flag (nodes s tpl)) → is_Some (valueEl (nodes s tpl)) →
  l < nextHandle s → tpl < nextHandle s → tpl ≠ l →
  ∃ s', renderOptions countries s = (Ret tt, s')
    ∧ renderFrame s s'
    ∧ items s' = renderedItems (nextHandle s) countries
    ∧ length (items s') = length countries
    ∧ (∀ i c, countries !! i = Some c →
         let h := nextHandle s + i in
         items s' !! i = Some (mkItem h c)
         ∧ nodes s' h = rendered c (nodes s tpl)
         ∧ flag (nodes s' h)
           = Some (mkImage (flags_svg c) (name_common c +:+ " Flag"))
         ∧ valueEl (nodes s' h) = Some (cca2 c +:+ " (" +:+ diallingPrefix c +:+ ")")
         ∧ (∀ suffix, idd_suffixes c = [suffix] →
              valueEl (nodes s' h)
              = Some (cca2 c +:+ " (" +:+ (idd_root c +:+ suffix) +:+ ")"))
         ∧ (length (idd_suffixes c) ≠ 1 →
              valueEl (nodes s' h) = Some (cca2 c +:+ " (" +:+ idd_root c +:+ ")"))
         ∧ attributes (nodes s' h) !! "aria-label" = Some (name_common c)
         ∧ attributes (nodes s' h) !! "title" = Some (name_common c)
         ∧ h ∈ children (nodes s' l))
    ∧ children (nodes s' l) =
        List.filter (λ h, negb (bool_decide (h = tpl))) (children (nodes s l))
        ++ seq (nextHandle s) (length countries)
    ∧ (tpl ∉ children (nodes s' l))
    ∧ (∀ h, h ≠ l → h < nextHandle s → nodes s' h = nodes s h).
Proof.
  intros Hlist Hq Hin Hflag Hvalue Hl Htpl Hne.
  unfold renderOptions. rewrite bind_run, bind_run. unfold gets at 1. cbv beta iota.
  rewrite Hlist. cbn [deref]. unfold mret at 1, M_ret at 1. cbv beta iota.
  rewrite bind_run. unfold gets at 1. cbv beta iota. rewrite Hq.
  change (mapM _ countries) with (mapM (renderOne l tpl) countries).
  destruct (renderLoop_spec l tpl countries s Hflag Hvalue Hl Htpl Hne)
    as (s1 & R1 & O1 & Hn1 & Hl1 & Hc1 & Ho1).
  rewrite bind_run, R1. rewrite bind_run. unfold modify at 1. cbv beta iota.
  set (n := nextHandle s) in *. set (its := renderedItems n countries) in *.
  unfold removeChild. rewrite bind_run. unfold gets at 1. cbv beta iota.
  change (nodes (setItems its s1) l) with (nodes s1 l).
  rewrite Hl1. cbn [children setChildren].
  rewrite bool_decide_eq_true_2 by (apply elem_of_app; by left).
  destruct (updEl_spec l
    (setChildren (List.filter (λ h, negb (bool_decide (h = tpl)))
                    (children (nodes s l) ++ seq n (length countries))))
    (setItems its s1)) as (s2 & -> & O2 & N2).
  assert (children (nodes s2 l) =
          List.filter (λ h, negb (bool_decide (h = tpl))) (children (nodes s l))
          ++ seq n (length countries)) as Hchildren.
  { rewrite N2. rewrite decide_True by done. cbn [children setChildren].
    by rewrite List.filter_app, filter_fresh. }
  assert (∀ h, h ≠ l → nodes s2 h = nodes s1 h) as Hsame.
  { intros h Hh. rewrite N2. by rewrite decide_False. }
  assert (items s2 = its) as Hitems.
  { apply (f_equal items) in O2. by cbn in O2. }
  exists s2. split; [done|]. split_and!.
  - clear - O1 O2. unfold renderFrame, nodesOnly, nodesNextOnly in *. fields_eq.
  - done.
  - rewrite Hitems. apply renderedItems_length.
  - intros i c Hi. cbv zeta.
    assert (nodes s2 (n + i) = rendered c (nodes s tpl)) as Hnode.
    { rewrite Hsame by lia. by apply Hc1. }
    split_and!.
    + rewrite Hitems. subst its. by rewrite renderedItems_lookup, Hi.
    + done.
    + by rewrite Hnode.
    + by rewrite Hnode.
    + intros suffix Hone. rewrite Hnode. unfold rendered, itemLabel, diallingPrefix.
      by rewrite Hone.
    + intros Hmany. rewrite Hnode. unfold rendered, itemLabel, diallingPrefix.
      by destruct (idd_suffixes c) as [|suffix [|other suffixes]].
    + rewrite Hnode. unfold rendered. cbn [attributes setAttributes].
      rewrite lookup_insert_ne by discriminate. by rewrite lookup_insert_eq.
    + rewrite Hnode. unfold rendered. cbn [attributes setAttributes].
      by rewrite lookup_insert_eq.
    + rewrite Hchildren. apply elem_of_app. right. apply elem_of_seq.
      apply lookup_lt_Some in Hi. lia.
  - done.
  - rewrite Hchildren. intros [H|H]%elem_of_app.
    + by apply filter_removes in H.
    + apply elem_of_seq in H. lia.
  - intros h Hh Hlt. rewrite Hsame by done. by apply Ho1.
Qed.

Lemma renderOptions_spec_witness :
  listEl Sample.constructed = Some 3 ∧
  querySelectorMarker 6 (nodes Sample.constructed) 3 "item" = Some 4 ∧
  children (nodes Sample.constructed 3) = [4] ∧
  nextHandle Sample.constructed = 6 ∧
  ∃ s', renderOptions [Sample.us; Sample.fr; Sample.bs] Sample.constructed = (Ret tt, s')
        ∧ length (items s') = 3
        ∧ items s' !! 2 = Some (mkItem 8 Sample.bs)
        ∧ valueEl (nodes s' 8) = Some "BS (+1242)"
        ∧ valueEl (nodes s' 6) = Some "US (+1)"
        ∧ 4 ∉ children (nodes s' 3).
Proof.
  assert (listEl Sample.constructed = Some 3) as Hl by (vm_compute; reflexivity).
  assert (nextHandle Sample.constructed = 6) as Hn by (vm_compute; reflexivity).
  assert (querySelectorMarker 6 (nodes Sample.constructed) 3 "item" = Some 4) as Hq
    by (vm_compute; reflexivity).
  assert (children (nodes Sample.constructed 3) = [4]) as Hc by (vm_compute; reflexivity).
  assert (4 ∈ children (nodes Sample.constructed 3)) as Hin
    by (rewrite Hc; apply list_elem_of_here).
  assert (is_Some (flag (nodes Sample.constructed 4))) as Hflag
    by (vm_compute; eexists; reflexivity).
  assert (is_Some (valueEl (nodes Sample.constructed 4))) as Hvalue
    by (vm_compute; eexists; reflexivity).
  split; [exact Hl|]. split; [exact Hq|]. split; [exact Hc|]. split; [exact Hn|].
  destruct (renderOptions_spec [Sample.us; Sample.fr; Sample.bs] Sample.constructed 3 4
              Hl)
    as (s' & R & _ & _ & Hlen & Hitem & _ & Hgone & _).
  { rewrite Hn. exact Hq. } { exact Hin. } { exact Hflag. } { exact Hvalue. }
  { rewrite Hn. lia. } { rewrite Hn. lia. } { lia. }
  exists s'. split; [exact R|]. split; [exact Hlen|].
  destruct (Hitem 2 Sample.bs eq_refl) as (Hi & _ & _ & _ & Hone & _).
  destruct (Hitem 0 Sample.us eq_refl) as (_ & _ & _ & _ & _ & Hmany & _).
  rewrite Hn in Hi, Hone, Hmany.
  split; [exact Hi|]. split; [exact (Hone "242" eq_refl)|].
  split; [apply Hmany; vm_compute; intros H; discriminate H|]. exact Hgone.
Defined.

(** * Properties of the widget in use *)

(** ** Relations kept by every step of a method *)

Section Preserve.

Context (R : State → State → Prop).
Hypothesis R_refl : ∀ s, R s s.
Hypothesis R_trans : ∀ s1 s2 s3, R s1 s2 → R s2 s3 → R s1 s3.

Definition preserves {A} (m : M A) : Prop := ∀ s, R s (m s).2.

Lemma preserves_ret {A} (a : A) : preserves (mret a).
Proof using R_refl. intros s. apply R_refl. Qed.

Lemma preserves_throw {A} e : preserves (@throw A e).
Proof using R_refl. intros s. apply R_refl. Qed.

Lemma preserves_gets {A} (f : State → A) : preserves (gets f).
Proof using R_refl. intros s. apply R_refl. Qed.

Lemma preserves_deref what r : preserves (deref what r).
Proof using R_refl. destruct r; intros s; apply R_refl. Qed.

Lemma preserves_bind {A B} (m : M A) (f : A → M B) :
  preserves m → (∀ a, preserves (f a)) → preserves (m ≫= f).
Proof using R_trans.
  intros Hm Hf s. rewrite bind_run. specialize (Hm s).
  destruct (m s) as [[a|e] s1]; [|done].
  eapply R_trans; [exact Hm|apply Hf].
Qed.

Lemma preserves_tryCatch {A} (m h : M A) :
  preserves m → preserves h → preserves (tryCatch m h).
Proof using R_trans.
  intros Hm Hh s. unfold tryCatch. specialize (Hm s).
  destruct (m s) as [[a|e] s1]; [done|].
  eapply R_trans; [exact Hm|apply Hh].
Qed.

Lemma preserves_when b (m : M unit) : preserves m → preserves (when b m).
Proof using R_refl. intros Hm. destruct b; [done|]. apply preserves_ret. Qed.

Lemma preserves_unless b (m : M unit) : preserves m → preserves (unless b m).
Proof using R_refl. intros Hm. destruct b; [|done]. apply preserves_ret. Qed.

Lemma preserves_modify f : (∀ s, R s (f s)) → preserves (modify f).
Proof. intros Hf s. apply Hf. Qed.

End Preserve.

(** Going through a method step by step; [prim] closes the steps that
    change the state. *)
Ltac pres Hrefl Htrans prim :=
  repeat (intros;
    lazymatch goal with
    | |- preserves _ (mbind _ _) => apply (preserves_bind _ Htrans)
    | |- preserves _ (mret _) => apply (preserves_ret _ Hrefl)
    | |- preserves _ (throw _) => apply (preserves_throw _ Hrefl)
    | |- preserves _ (gets _) => apply (preserves_gets _ Hrefl)
    | |- preserves _ (deref _ _) => apply (preserves_deref _ Hrefl)
    | |- preserves _ (tryCatch _ _) => apply (preserves_tryCatch _ Htrans)
    | |- preserves _ (when _ _) => apply (preserves_when _ Hrefl)
    | |- preserves _ (unless _ _) => apply (preserves_unless _ Hrefl)
    | |- preserves _ (if ?b then _ else _) => destruct b
    | |- preserves _ (match ?x with _ => _ end) => destruct x
    | |- _ => prim
    end).

(** ** What no event changes *)

Lemma eventFrame_refl s : eventFrame s s.
Proof. unfold eventFrame. fields_eq. Qed.

Lemma eventFrame_trans s1 s2 s3 : eventFrame s1 s2 → eventFrame s2 s3 → eventFrame s1 s3.
Proof. unfold eventFrame. intros H12 H23. fields_eq. Qed.

Lemma eventFrame_updEl h f : preserves eventFrame (updEl h f).
Proof. intros s. unfold updEl, modify, eventFrame. cbn [snd]. fields_eq. Qed.

Lemma eventFrame_emit e : preserves eventFrame (emit e).
Proof. intros s. unfold emit, modify, eventFrame. cbn [snd]. fields_eq. Qed.

Lemma eventFrame_focus h : preserves eventFrame (focus h).
Proof.
  intros s. destruct (focus_frame h s) as (s' & -> & F & _). cbn [snd].
  clear - F. unfold eventFrame, onlySearchAndFocus in *. fields_eq.
Qed.

Lemma eventFrame_setSearchQuery q : preserves eventFrame (modify (setSearchQuery q)).
Proof. intros s. unfold modify, eventFrame. cbn [snd]. fields_eq. Qed.

Lemma eventFrame_setSelectedItem x : preserves eventFrame (modify (setSelectedItem x)).
Proof. intros s. unfold modify, eventFrame. cbn [snd]. fields_eq. Qed.

Lemma eventFrame_setListIsOpen b : preserves eventFrame (modify (setListIsOpen b)).
Proof. intros s. unfold modify, eventFrame. cbn [snd]. fields_eq. Qed.

Ltac frame_prim :=
  first [ apply eventFrame_updEl | apply eventFrame_emit | apply eventFrame_focus
        | apply eventFrame_setSearchQuery | apply eventFrame_setSelectedItem
        | apply eventFrame_setListIsOpen ].

Ltac frame_steps := pres eventFrame_refl eventFrame_trans frame_prim.

Lemma eventFrame_handleDropdownSearch e : preserves eventFrame (handleDropdownSearch e).
Proof. unfold handleDropdownSearch. frame_steps. Qed.

Lemma eventFrame_closeDropdown b : preserves eventFrame (closeDropdown b).
Proof. unfold closeDropdown, dispatchEvent. frame_steps. Qed.

Lemma eventFrame_handleItemSelect item : preserves eventFrame (handleItemSelect item).
Proof.
  unfold handleItemSelect, toggleItemSelected, updateDropdownToggle, classListToggle,
    setAttribute, setFlagSrc, setFlagAlt, setValueText.
  cbv zeta. frame_steps; apply eventFrame_closeDropdown.
Qed.

Lemma eventFrame_click h : preserves eventFrame (click h).
Proof. unfold click. frame_steps. apply eventFrame_handleItemSelect. Qed.

Lemma eventFrame_handleDropdownNavigation e :
  preserves eventFrame (handleDropdownNavigation e).
Proof.
  unfold handleDropdownNavigation. cbv zeta.
  frame_steps; intros; first [apply eventFrame_click | apply eventFrame_closeDropdown].
Qed.

Lemma eventFrame_onDropdownListMutation : preserves eventFrame onDropdownListMutation.
Proof. unfold onDropdownListMutation, clearSearchQuery. frame_steps. Qed.

Lemma eventFrame_react ev : preserves eventFrame (react ev).
Proof.
  unfold react, onKeydown, hostSetsOpen. destruct ev; frame_steps; intros;
    first [ apply eventFrame_handleDropdownSearch
          | apply eventFrame_handleDropdownNavigation
          | apply eventFrame_click
          | apply eventFrame_onDropdownListMutation ].
Qed.

Lemma react_returns ev s : (react ev s).1 = Ret tt.
Proof.
  unfold react, tryCatch.
  destruct (match ev with
            | Keydown e => on ← gets listening; when on (onKeydown e)
            | Clicked h => click h
            | FocusMoved h => focus h
            | ListToggled open =>
                hostSetsOpen open;; on ← gets observing; when on onDropdownListMutation
            end s) as [[[]|e] s']; reflexivity.
Qed.

Lemma reactAll_cons ev evs s : reactAll (ev :: evs) s = reactAll evs (react ev s).2.
Proof.
  cbn [reactAll]. rewrite bind_run. pose proof (react_returns ev s) as H.
  destruct (react ev s) as [[[]|e] s']; [done|discriminate H].
Qed.

Lemma preserves_reactAll (R : State → State → Prop) :
  (∀ s, R s s) → (∀ s1 s2 s3, R s1 s2 → R s2 s3 → R s1 s3) →
  (∀ ev, preserves R (react ev)) →
  ∀ evs, preserves R (reactAll evs).
Proof.
  intros Hrefl Htrans Hreact evs. induction evs as [|ev evs IH]; intros s.
  - apply Hrefl.
  - rewrite reactAll_cons. eapply Htrans; [apply Hreact|apply IH].
Qed.

(** ** The query stays alphanumeric *)

Lemma allChars_app p a b : allChars p (a +:+ b) = allChars p a && allChars p b.
Proof.
  induction a as [|c a IH]; [done|]. simpl. by rewrite IH, andb_assoc.
Qed.

Lemma allChars_sliceInit p q : allChars p q = true → allChars p (sliceInit q) = true.
Proof.
  induction q as [|c q IH]; [done|]. cbn [allChars sliceInit].
  intros [Hc Hq]%andb_true_iff. destruct q as [|d q]; [done|].
  cbn [allChars]. rewrite Hc. by apply IH.
Qed.

Lemma charToLower_letter c : charIsLetter c = true → charIsLetter (charToLower c) = true.
Proof. destruct c as [[] [] [] [] [] [] [] []]; vm_compute; done. Qed.

Lemma queryAfterKey_alphanumeric k q :
  alphanumeric q = true → alphanumeric (queryAfterKey k q) = true.
Proof.
  intros Hq. unfold queryAfterKey. case_bool_decide as Hback.
  - by apply allChars_sliceInit.
  - destruct k as [|c [|d k]]; cbn [String.length Nat.eqb andb]; try done.
    unfold isLetter at 1 3, isDigit at 1 2 4. cbn [toLowerCase].
    destruct (charIsLetter c) eqn:Hl, (charIsDigit c) eqn:Hd; cbn [orb andb];
      repeat match goal with |- context [if ?b then _ else _] => destruct b end;
      try done; unfold alphanumeric in *; rewrite ?allChars_app, ?Hq;
      cbn [allChars andb]; rewrite ?Hl, ?Hd, ?(charToLower_letter _ Hl);
      by rewrite ?orb_true_r.
Qed.

Lemma sameQuery_refl s : sameQuery s s.
Proof. done. Qed.

Lemma sameQuery_trans s1 s2 s3 : sameQuery s1 s2 → sameQuery s2 s3 → sameQuery s1 s3.
Proof. unfold sameQuery. congruence. Qed.

Lemma sameQuery_focus h : preserves sameQuery (focus h).
Proof. intros s. by destruct (focus_frame h s) as (s' & -> & _ & _ & ?). Qed.

Ltac query_prim :=
  first [ apply sameQuery_focus
        | by intros ? ].

Ltac query_steps := pres sameQuery_refl sameQuery_trans query_prim.

Lemma sameQuery_closeDropdown b : preserves sameQuery (closeDropdown b).
Proof. unfold closeDropdown, dispatchEvent, emit. query_steps. Qed.

Lemma sameQuery_handleItemSelect item : preserves sameQuery (handleItemSelect item).
Proof.
  unfold handleItemSelect, toggleItemSelected, updateDropdownToggle, classListToggle,
    setAttribute, setFlagSrc, setFlagAlt, setValueText, updEl.
  cbv zeta. query_steps; intros; apply sameQuery_closeDropdown.
Qed.

Lemma sameQuery_click h : preserves sameQuery (click h).
Proof. unfold click. query_steps. apply sameQuery_handleItemSelect. Qed.

Lemma sameQuery_handleDropdownNavigation e :
  preserves sameQuery (handleDropdownNavigation e).
Proof.
  unfold handleDropdownNavigation. cbv zeta.
  query_steps; intros; first [apply sameQuery_click | apply sameQuery_closeDropdown].
Qed.

Lemma keepsAlphanumeric_refl s : keepsAlphanumeric s s.
Proof. by intros ?. Qed.

Lemma keepsAlphanumeric_trans s1 s2 s3 :
  keepsAlphanumeric s1 s2 → keepsAlphanumeric s2 s3 → keepsAlphanumeric s1 s3.
Proof. unfold keepsAlphanumeric. auto. Qed.

Lemma sameQuery_keepsAlphanumeric {A} (m : M A) :
  preserves sameQuery m → preserves keepsAlphanumeric m.
Proof. intros Hm s Hq. by rewrite (Hm s). Qed.

Lemma keepsAlphanumeric_handleDropdownSearch e :
  preserves keepsAlphanumeric (handleDropdownSearch e).
Proof.
  intros s Hq. destruct (handleDropdownSearch_spec e s) as (s' & -> & _ & Hs').
  cbn [snd]. rewrite Hs'.
  destruct (listIsOpen s); [|done]. by apply queryAfterKey_alphanumeric.
Qed.

Lemma keepsAlphanumeric_onDropdownListMutation :
  preserves keepsAlphanumeric onDropdownListMutation.
Proof.
  unfold onDropdownListMutation, clearSearchQuery.
  pres keepsAlphanumeric_refl keepsAlphanumeric_trans
    ltac:(first [ apply sameQuery_keepsAlphanumeric, sameQuery_focus
                | intros s Hq; first [exact Hq | reflexivity] ]).
Qed.

Lemma keepsAlphanumeric_react ev : preserves keepsAlphanumeric (react ev).
Proof.
  unfold react, onKeydown, hostSetsOpen, updEl. destruct ev;
    pres keepsAlphanumeric_refl keepsAlphanumeric_trans
      ltac:(first [ apply keepsAlphanumeric_handleDropdownSearch
                  | apply keepsAlphanumeric_onDropdownListMutation
                  | apply sameQuery_keepsAlphanumeric, sameQuery_handleDropdownNavigation
                  | apply sameQuery_keepsAlphanumeric, sameQuery_click
                  | apply sameQuery_keepsAlphanumeric, sameQuery_focus
                  | intros s Hq; first [exact Hq | reflexivity] ]).
Qed.

(** X1.  Whatever the user does, the query holds letters and digits only:
    if it does before a sequence of events, it does after.  (It may hold
    both at once.) *)
Theorem searchQuery_stays_alphanumeric evs s :
  alphanumeric (searchQuery s) = true →
  alphanumeric (searchQuery (reactAll evs s).2) = true.
Proof.
  apply (preserves_reactAll keepsAlphanumeric keepsAlphanumeric_refl
           keepsAlphanumeric_trans keepsAlphanumeric_react).
Qed.

Lemma searchQuery_stays_alphanumeric_witness :
  alphanumeric (searchQuery Sample.ready) = true ∧
  searchQuery (reactAll Scenario.typing Sample.ready).2 = "fr1" ∧
  alphanumeric (searchQuery (reactAll Scenario.typing Sample.ready).2) = true.
Proof.
  assert (alphanumeric (searchQuery Sample.ready) = true) as H by (vm_compute; reflexivity).
  split; [exact H|]. split; [vm_compute; reflexivity|].
  exact (searchQuery_stays_alphanumeric Scenario.typing Sample.ready H).
Defined.

(** ** A key and Backspace *)

Lemma sliceInit_app_char q c : sliceInit (q +:+ String c "") = q.
Proof.
  induction q as [|d q IH]; [done|]. simpl. rewrite IH.
  by destruct q.
Qed.

(** X2.  With the list open, Backspace takes back the key typed before it:
    after a letter typed on a query that is not a single digit, or a digit
    typed on a query that is not a single letter, Backspace leaves the query
    as it was before the key. *)
Theorem backspace_undoes_key k sh sh' s :
  listIsOpen s = true →
  (isLetter k = true ∧ isDigit (searchQuery s) = false)
  ∨ (isDigit k = true ∧ isLetter (searchQuery s) = false) →
  searchQuery ((handleDropdownSearch (mkKey k sh);;
                handleDropdownSearch (mkKey "Backspace" sh')) s).2
  = searchQuery s.
Proof.
  intros Ho Hk.
  destruct (handleDropdownSearch_spec (mkKey k sh) s) as (s1 & R1 & F1 & Q1).
  destruct (handleDropdownSearch_spec (mkKey "Backspace" sh') s1) as (s2 & R2 & F2 & Q2).
  rewrite bind_run, R1, R2. cbn [snd]. rewrite Q2, Q1.
  rewrite (onlySearchAndFocus_listIsOpen _ _ F1), Ho. cbn [key].
  unfold queryAfterKey at 1. rewrite bool_decide_eq_true_2 by done.
  destruct k as [|c [|d k]]; try (by destruct Hk as [[? _]|[? _]]).
  unfold queryAfterKey. rewrite bool_decide_eq_false_2 by (intros [=]).
  cbn [String.length Nat.eqb andb toLowerCase].
  destruct Hk as [[Hl Hq]|[Hd Hq]].
  - rewrite Hl, Hq. cbn [orb].
    assert (isDigit (String c "") = false) as ->.
    { cbn in Hl |- *. by apply charIsLetter_not_digit. }
    cbn [andb]. apply sliceInit_app_char.
  - rewrite Hd, Hq. rewrite orb_true_r, andb_false_r.
    assert (isLetter (String c "") = false) as ->.
    { cbn in Hd |- *. destruct (charIsLetter c) eqn:Hl; [|done].
      apply charIsLetter_not_digit in Hl. congruence. }
    apply sliceInit_app_char.
Qed.

Lemma backspace_undoes_key_witness :
  listIsOpen Sample.onLast = true ∧
  searchQuery Sample.onLast = "b" ∧
  searchQuery ((handleDropdownSearch (mkKey "S" false);;
                handleDropdownSearch (mkKey "Backspace" false)) Sample.onLast).2 = "b".
Proof.
  assert (listIsOpen Sample.onLast = true) as Ho by (vm_compute; reflexivity).
  assert (searchQuery Sample.onLast = "b") as Hq by (vm_compute; reflexivity).
  split; [exact Ho|]. split; [exact Hq|].
  assert (isLetter "S" = true ∧ isDigit (searchQuery Sample.onLast) = false) as Hk.
  { split; [reflexivity|]. rewrite Hq. reflexivity. }
  exact (eq_trans
           (backspace_undoes_key "S" false false Sample.onLast Ho (or_introl Hk)) Hq).
Defined.

(** ** [focusedItem] follows the focus *)

Lemma keepsFocusTracked_refl s : keepsFocusTracked s s.
Proof. by split_and!. Qed.

Lemma keepsFocusTracked_trans s1 s2 s3 :
  keepsFocusTracked s1 s2 → keepsFocusTracked s2 s3 → keepsFocusTracked s1 s3.
Proof.
  intros (Hi1 & Hl1 & H1) (Hi2 & Hl2 & H2). split_and!; [congruence..|].
  intros Hl Hf. apply H2; [congruence|]. by apply H1.
Qed.

Lemma keepsFocusTracked_same s s' :
  items s' = items s → listening s' = listening s →
  focusedItem s' = focusedItem s → activeElement s' = activeElement s →
  keepsFocusTracked s s'.
Proof.
  intros Hi Hl Hf Ha. split_and!; [done..|]. unfold focusTracked. congruence.
Qed.

Lemma keepsFocusTracked_focus h : preserves keepsFocusTracked (focus h).
Proof.
  intros s. unfold focus. rewrite bind_run. unfold gets at 1. cbv beta iota.
  case_bool_decide as Hcur; [apply keepsFocusTracked_refl|].
  unfold onFocusOut, onFocusIn, keepsFocusTracked, focusTracked.
  destruct s as [its op tg dl le inp sel foc q d n act li ob ef].
  cbn [activeElement] in Hcur. unfold_m. fields.
  destruct li; [|by destruct act].
  destruct act as [old|]; fields.
  - destruct (itemOfElement its old) as [o|] eqn:Hold; fields;
      destruct (itemOfElement its h) as [it|] eqn:Hh; fields;
      split_and!; try done; intros _; simpl; rewrite ?Hold, ?Hh; congruence.
  - destruct (itemOfElement its h) as [it|] eqn:Hh; fields;
      split_and!; try done; intros _; simpl; rewrite ?Hh; congruence.
Qed.

Ltac focus_prim :=
  first [ apply keepsFocusTracked_focus
        | intros ?; by apply keepsFocusTracked_same ].

Ltac focus_steps := pres keepsFocusTracked_refl keepsFocusTracked_trans focus_prim.

Lemma keepsFocusTracked_handleDropdownSearch e :
  preserves keepsFocusTracked (handleDropdownSearch e).
Proof. unfold handleDropdownSearch. focus_steps. Qed.

Lemma keepsFocusTracked_closeDropdown b : preserves keepsFocusTracked (closeDropdown b).
Proof. unfold closeDropdown, dispatchEvent, emit. focus_steps. Qed.

Lemma keepsFocusTracked_handleItemSelect item :
  preserves keepsFocusTracked (handleItemSelect item).
Proof.
  unfold handleItemSelect, toggleItemSelected, updateDropdownToggle, classListToggle,
    setAttribute, setFlagSrc, setFlagAlt, setValueText, updEl.
  cbv zeta. focus_steps; intros; apply keepsFocusTracked_closeDropdown.
Qed.

Lemma keepsFocusTracked_click h : preserves keepsFocusTracked (click h).
Proof. unfold click. focus_steps. apply keepsFocusTracked_handleItemSelect. Qed.

Lemma keepsFocusTracked_handleDropdownNavigation e :
  preserves keepsFocusTracked (handleDropdownNavigation e).
Proof.
  unfold handleDropdownNavigation. cbv zeta.
  focus_steps; intros;
    first [apply keepsFocusTracked_click | apply keepsFocusTracked_closeDropdown].
Qed.

Lemma keepsFocusTracked_onDropdownListMutation :
  preserves keepsFocusTracked onDropdownListMutation.
Proof. unfold onDropdownListMutation, clearSearchQuery. focus_steps. Qed.

Lemma keepsFocusTracked_react ev : preserves keepsFocusTracked (react ev).
Proof.
  unfold react, onKeydown, hostSetsOpen, updEl. destruct ev; focus_steps; intros;
    first [ apply keepsFocusTracked_handleDropdownSearch
          | apply keepsFocusTracked_handleDropdownNavigation
          | apply keepsFocusTracked_click
          | apply keepsFocusTracked_onDropdownListMutation ].
Qed.

(** X3.  Once the listeners are attached, [focusedItem] is at every moment
    the item whose element has the focus, and undefined when the focus is on
    no item: if it is so before a sequence of events, it is so after. *)
Theorem focusedItem_follows_focus evs s :
  listening s = true →
  focusTracked s →
  let s' := (reactAll evs s).2 in
  focusTracked s' ∧ items s' = items s ∧ listening s' = true.
Proof.
  intros Hl Hf.
  destruct (preserves_reactAll keepsFocusTracked keepsFocusTracked_refl
              keepsFocusTracked_trans keepsFocusTracked_react evs s) as (Hi & Hl' & H).
  cbv zeta. split_and!; [by apply H|done|congruence].
Qed.

Lemma focusedItem_follows_focus_witness :
  listening Sample.ready = true ∧
  focusTracked Sample.ready ∧
  let s' := (reactAll [ListToggled true; Keydown (mkKey "b" false);
                       Keydown (mkKey "ArrowUp" false)] Sample.ready).2 in
  focusTracked s' ∧ activeElement s' = Some 7 ∧ focusedItem s' = Some (mkItem 7 Sample.fr).
Proof.
  assert (listening Sample.ready = true) as Hl by (vm_compute; reflexivity).
  assert (focusTracked Sample.ready) as Hf by (vm_compute; reflexivity).
  split; [exact Hl|]. split; [exact Hf|]. cbv zeta.
  split; [|split; vm_compute; reflexivity].
  exact (proj1 (focusedItem_follows_focus _ Sample.ready Hl Hf)).
Defined.

(** ** Only the selected item is marked *)

Lemma sameMarks_refl s : sameMarks s s.
Proof. by split_and!. Qed.

Lemma sameMarks_trans s1 s2 s3 : sameMarks s1 s2 → sameMarks s2 s3 → sameMarks s1 s3.
Proof.
  intros (Hi1 & Hs1 & H1) (Hi2 & Hs2 & H2). split_and!; [congruence..|].
  intros h. by rewrite H2, H1.
Qed.

Lemma sameMarks_same s s' :
  items s' = items s → selectedItem s' = selectedItem s → nodes s' = nodes s →
  sameMarks s s'.
Proof. intros Hi Hs Hn. split_and!; [done..|]. intros h. by rewrite Hn. Qed.

(** An element update that does not touch the selected class. *)
Lemma sameMarks_updEl h f :
  (∀ e, dropdownElements.dropdownItemSelected ∈ classList (f e)
        ↔ dropdownElements.dropdownItemSelected ∈ classList e) →
  preserves sameMarks (updEl h f).
Proof.
  intros Hf s. unfold updEl, modify. cbn [snd]. split_and!; [done..|].
  intros h'. fields. unfold insert, fn_insert.
  destruct (decide (h = h')) as [->|]; [apply Hf|done].
Qed.

Lemma sameMarks_focus h : preserves sameMarks (focus h).
Proof.
  intros s. destruct (focus_frame h s) as (s' & -> & F & _). cbn [snd].
  apply sameMarks_same.
  - by apply (f_equal items) in F.
  - by apply (f_equal selectedItem) in F.
  - by apply (f_equal nodes) in F.
Qed.

Ltac marks_prim :=
  first [ apply sameMarks_focus
        | apply sameMarks_updEl; intros ?; reflexivity
        | intros ?; by apply sameMarks_same ].

Ltac marks_steps := pres sameMarks_refl sameMarks_trans marks_prim.

Lemma sameMarks_closeDropdown b : preserves sameMarks (closeDropdown b).
Proof. unfold closeDropdown, dispatchEvent, emit. marks_steps. Qed.

Lemma sameMarks_updateDropdownToggle item t :
  preserves sameMarks (updateDropdownToggle item t).
Proof.
  unfold updateDropdownToggle, setAttribute, setFlagSrc, setFlagAlt, setValueText.
  cbv zeta. marks_steps.
Qed.

Lemma sameMarks_handleDropdownSearch e : preserves sameMarks (handleDropdownSearch e).
Proof. unfold handleDropdownSearch. marks_steps. Qed.

Lemma sameMarks_onDropdownListMutation : preserves sameMarks onDropdownListMutation.
Proof. unfold onDropdownListMutation, clearSearchQuery. marks_steps. Qed.

Lemma sameMarks_hostSetsOpen b : preserves sameMarks (hostSetsOpen b).
Proof.
  unfold hostSetsOpen.
  pres sameMarks_refl sameMarks_trans
    ltac:(apply sameMarks_updEl; intros e; cbn [classList setClassList];
          destruct b;
          [ rewrite elem_of_union, elem_of_singleton
          | rewrite elem_of_difference, elem_of_singleton ];
          split; [intros [[=]|?]; done | by right | by intros [? _] | by split]).
Qed.

Lemma keepsOnlySelectedMarked_refl s : keepsOnlySelectedMarked s s.
Proof. by split. Qed.

Lemma keepsOnlySelectedMarked_trans s1 s2 s3 :
  keepsOnlySelectedMarked s1 s2 → keepsOnlySelectedMarked s2 s3 →
  keepsOnlySelectedMarked s1 s3.
Proof. intros [Hi1 H1] [Hi2 H2]. split; [congruence|auto]. Qed.

Lemma sameMarks_keepsOnlySelectedMarked {A} (m : M A) :
  preserves sameMarks m → preserves keepsOnlySelectedMarked m.
Proof.
  intros Hm s. destruct (Hm s) as (Hi & Hs & Hn). split; [done|].
  intros Hinv x Hx. unfold marked. rewrite Hi in Hx. rewrite Hn, Hs. by apply Hinv.
Qed.

Lemma keepsOnlySelectedMarked_handleItemSelect item :
  preserves keepsOnlySelectedMarked (handleItemSelect item).
Proof.
  intros s. unfold handleItemSelect. rewrite bind_run. unfold gets at 1. cbv beta iota.
  destruct (isSelectedItem (selectedItem s) item) eqn:Hsel;
    [apply keepsOnlySelectedMarked_refl|].
  unfold unless.
  assert (∃ s1, match selectedItem s with
                | Some previous => toggleItemSelected previous false
                | None => mret tt
                end s = (Ret tt, s1) ∧ nodesOnly s s1
                ∧ nodesBy (λ h e, match selectedItem s with
                                  | Some previous =>
                                      if decide (h = element previous)
                                      then markSelected false e else e
                                  | None => e
                                  end) s s1) as (s1 & R1 & O1 & N1).
  { destruct (selectedItem s) as [previous|].
    - apply toggleItemSelected_spec.
    - exists s. split; [done|]. split; [apply nodesOnly_refl|done]. }
  rewrite bind_run, R1.
  destruct (toggleItemSelected_spec item true s1) as (s2 & R2 & O2 & N2).
  rewrite bind_run, R2. rewrite bind_run. unfold modify at 1. cbv beta iota.
  pose proof (nodesOnly_trans _ _ _ O1 O2) as O12.
  eapply keepsOnlySelectedMarked_trans.
  - (* the marks have moved and the item is the selection *)
    instantiate (1 := setSelectedItem (Some item) s2).
    assert (items s2 = items s) as Hi by (by apply (f_equal items) in O12).
    split; [done|]. intros Hinv x Hx. unfold marked. fields.
    cbn [items setSelectedItem] in Hx. rewrite Hi in Hx. rewrite N2, N1. unfold isSelectedItem, sameItem.
    intros Hm. apply bool_decide_eq_true.
    destruct (decide (element x = element item)) as [|Hne]; [done|]. exfalso.
    specialize (Hinv x Hx). unfold marked in Hinv.
    destruct (selectedItem s) as [previous|].
    + destruct (decide (element x = element previous)) as [Heq|Hnp].
      * cbn [classList markSelected setAttributes setClassList] in Hm.
        apply elem_of_difference in Hm as [_ Hnot].
        by apply Hnot, elem_of_singleton.
      * specialize (Hinv Hm). cbn in Hinv. unfold sameItem in Hinv.
        apply bool_decide_eq_true in Hinv. congruence.
    + by specialize (Hinv Hm).
  - (* the rest only writes the toggle and the input and closes the list *)
    match goal with
    | |- keepsOnlySelectedMarked _ (?m _).2 =>
        apply (sameMarks_keepsOnlySelectedMarked m)
    end.
    marks_steps; intros;
      first [apply sameMarks_updateDropdownToggle | apply sameMarks_closeDropdown].
Qed.

Ltac only_prim :=
  first [ apply keepsOnlySelectedMarked_handleItemSelect
        | apply sameMarks_keepsOnlySelectedMarked, sameMarks_closeDropdown
        | apply sameMarks_keepsOnlySelectedMarked, sameMarks_handleDropdownSearch
        | apply sameMarks_keepsOnlySelectedMarked, sameMarks_onDropdownListMutation
        | apply sameMarks_keepsOnlySelectedMarked, sameMarks_hostSetsOpen
        | apply sameMarks_keepsOnlySelectedMarked, sameMarks_focus
        | apply sameMarks_keepsOnlySelectedMarked; intros ?; by apply sameMarks_same ].

Ltac only_steps :=
  pres keepsOnlySelectedMarked_refl keepsOnlySelectedMarked_trans only_prim.

Lemma keepsOnlySelectedMarked_click h : preserves keepsOnlySelectedMarked (click h).
Proof. unfold click. only_steps. Qed.

Lemma keepsOnlySelectedMarked_handleDropdownNavigation e :
  preserves keepsOnlySelectedMarked (handleDropdownNavigation e).
Proof.
  unfold handleDropdownNavigation. cbv zeta.
  only_steps; intros; apply keepsOnlySelectedMarked_click.
Qed.

Lemma keepsOnlySelectedMarked_react ev : preserves keepsOnlySelectedMarked (react ev).
Proof.
  unfold react, onKeydown. destruct ev; only_steps; intros;
    first [ apply keepsOnlySelectedMarked_handleDropdownNavigation
          | apply keepsOnlySelectedMarked_click ].
Qed.

(** X4.  At most one item is marked selected, whatever the user does and
    whether or not a handler throws on the way: if only the selected item
    carries the selected class before a sequence of events, then so it is
    after, and any two marked items share their element. *)
Theorem only_selected_item_marked evs s :
  onlySelectedMarked s →
  let s' := (reactAll evs s).2 in
  onlySelectedMarked s' ∧
  ∀ x y, x ∈ items s' → y ∈ items s' → marked s' x → marked s' y →
         element x = element y.
Proof.
  intros Hinv.
  destruct (preserves_reactAll keepsOnlySelectedMarked keepsOnlySelectedMarked_refl
              keepsOnlySelectedMarked_trans keepsOnlySelectedMarked_react evs s)
    as [_ H].
  specialize (H Hinv). cbv zeta. split; [done|].
  intros x y Hx Hy Hmx Hmy.
  pose proof (H x Hx Hmx) as Hsx. pose proof (H y Hy Hmy) as Hsy.
  destruct (selectedItem (reactAll evs s).2) as [p|]; [|done].
  cbn in Hsx, Hsy. unfold sameItem in *.
  apply bool_decide_eq_true in Hsx. apply bool_decide_eq_true in Hsy. congruence.
Qed.

Lemma onlySelectedMarked_ready : onlySelectedMarked Sample.ready.
Proof.
  intros x Hx Hm.
  change (items Sample.ready)
    with [mkItem 6 Sample.us; mkItem 7 Sample.fr; mkItem 8 Sample.bs] in Hx.
  change (selectedItem Sample.ready) with (Some (mkItem 7 Sample.fr)).
  unfold marked in Hm.
  apply elem_of_cons in Hx as [->|Hx].
  { exfalso. revert Hm. apply (bool_decide_unpack (¬ _)). vm_compute. reflexivity. }
  apply elem_of_cons in Hx as [->|Hx]; [reflexivity|].
  apply elem_of_cons in Hx as [->|Hx].
  { exfalso. revert Hm. apply (bool_decide_unpack (¬ _)). vm_compute. reflexivity. }
  destruct (proj1 (elem_of_nil _) Hx).
Qed.

Lemma only_selected_item_marked_witness :
  onlySelectedMarked Sample.ready ∧
  let s' := (reactAll [ListToggled true; Clicked 6; Clicked 8] Sample.ready).2 in
  selectedItem s' = Some (mkItem 8 Sample.bs) ∧ onlySelectedMarked s'.
Proof.
  split; [exact onlySelectedMarked_ready|]. cbv zeta.
  split; [vm_compute; reflexivity|].
  exact (proj1 (only_selected_item_marked _ Sample.ready onlySelectedMarked_ready)).
Defined.

(** ** Arrow keys while a query is typed *)

Lemma firstWith_find {A} (p : A → bool) (l : list A) i x :
  firstWith p l i x → List.find p l = Some x.
Proof.
  revert i. induction l as [|y l IH]; intros i (Hi & Hp & Hfirst); [done|].
  cbn [List.find]. destruct i as [|i]; cbn in Hi.
  - injection Hi as ->. by rewrite Hp.
  - rewrite (Hfirst 0 y) by (done || lia). apply (IH i). split_and!; [done..|].
    intros j z Hj Hz. apply (Hfirst (S j) z); [lia|done].
Qed.

Lemma itemOfElement_lookup its i item :
  NoDup (element <$> its) → its !! i = Some item →
  itemOfElement its (element item) = Some item.
Proof.
  intros Hnd Hi. unfold itemOfElement.
  apply (firstWith_find _ _ i). split_and!; [done|by apply bool_decide_eq_true|].
  intros j y Hj Hy. apply bool_decide_eq_false. intros Heq.
  assert (j = i); [|lia].
  eapply (NoDup_lookup (element <$> its)); [done| |];
    rewrite list_lookup_fmap; [by rewrite Hy; cbn; rewrite Heq|by rewrite Hi].
Qed.

(** The arrow keys, from the focused item at index [i]. *)
Lemma arrow_from_index s i focused sh :
  listIsOpen s = true →
  NoDup (element <$> items s) →
  items s !! i = Some focused →
  focusedItem s = Some focused →
  (∃ previous, items s !! (i - 1) = Some previous ∧
     handleDropdownNavigation (mkKey "ArrowUp" sh) s = focus (element previous) s) ∧
  handleDropdownNavigation (mkKey "ArrowDown" sh) s =
    match items s !! (i + 1) with
    | Some next => focus (element next) s
    | None => (Ret tt, s)
    end.
Proof.
  intros Ho Hnd Hi Hf.
  pose proof (lookup_lt_Some _ _ _ Hi) as Hlt.
  pose proof (findIndex_sameItem _ _ _ Hnd Hi) as Hidx.
  split.
  - destruct (lookup_lt_is_Some_2 (items s) (i - 1)) as [previous Hp]; [lia|].
    exists previous. split; [done|].
    rewrite (handleDropdownNavigation_arrow true) with (focused := focused) by done.
    cbv zeta. rewrite Hidx.
    rewrite (proj2 (Z.ltb_ge (Z.of_nat i) 0)) by lia.
    replace (if (Z.of_nat i - 1 <? 0)%Z then 0%Z else (Z.of_nat i - 1)%Z)
      with (Z.of_nat (i - 1)) by (destruct (Z.ltb_spec (Z.of_nat i - 1) 0); lia).
    rewrite (proj2 (Z.leb_gt _ _)) by lia.
    unfold itemAt. rewrite (proj2 (Z.ltb_ge _ 0)) by lia.
    by rewrite Nat2Z.id, Hp.
  - rewrite (handleDropdownNavigation_arrow false) with (focused := focused) by done.
    cbv zeta. rewrite Hidx.
    rewrite (proj2 (Z.ltb_ge (Z.of_nat i) 0)) by lia.
    rewrite (proj2 (Z.ltb_ge (Z.of_nat i + 1) 0)) by lia.
    unfold itemAt.
    destruct (items s !! (i + 1)) as [next|] eqn:Hn.
    + pose proof (lookup_lt_Some _ _ _ Hn).
      rewrite (proj2 (Z.leb_gt _ _)) by lia.
      rewrite (proj2 (Z.ltb_ge (Z.of_nat i + 1) 0)) by lia.
      replace (Z.to_nat (Z.of_nat i + 1)) with (i + 1) by lia. by rewrite Hn.
    + apply lookup_ge_None_1 in Hn.
      rewrite (proj2 (Z.leb_le _ _)) by lia.
      rewrite (proj2 (Z.ltb_ge _ 0)) by lia.
      rewrite Nat2Z.id. by rewrite lookup_ge_None_2.
Qed.

(** The search half of the [keydown] listener on a key that does not change
    a non-empty query: the first match gets the focus and is [focusedItem]. *)
Lemma search_refocuses_match k sh s j m :
  listIsOpen s = true → listening s = true → focusTracked s →
  NoDup (element <$> items s) →
  searchQuery s ≠ "" →
  queryAfterKey k (searchQuery s) = searchQuery s →
  firstWith (matchesQuery (searchQuery s)) (items s) j m →
  ∃ s1, handleDropdownSearch (mkKey k sh) s = (Ret tt, s1)
        ∧ onlySearchAndFocus s s1
        ∧ activeElement s1 = Some (element m)
        ∧ focusedItem s1 = Some m.
Proof.
  intros Ho Hl Hf Hnd Hq Hk Hm.
  rewrite handleDropdownSearch_open by done. cbn [key]. rewrite Hk.
  rewrite setSearchQuery_id.
  rewrite focusMatch_found with (m := m) by (done || by apply (firstWith_find _ _ j)).
  destruct (focus_frame (element m) s) as (s1 & R & F & Ha & _).
  exists s1. split_and!; [done..|].
  destruct (keepsFocusTracked_focus (element m) s) as (Hi & _ & Htr).
  rewrite R in Hi, Htr. cbn [snd] in Hi, Htr.
  rewrite (Htr Hl Hf), Ha, Hi. cbn.
  apply (itemOfElement_lookup _ j); [done|]. by destruct Hm.
Qed.

(** X5.  While a query is typed the arrow keys start from the first match of
    the query, not from the item the user had reached: the [keydown] listener
    searches before it navigates.  With a non-empty query whose first match
    is the item at index [j], ArrowUp puts the focus on index [j - 1] and
    ArrowDown on index [j + 1] (on [j] itself at the end of the list),
    wherever the focus was. *)
Theorem arrows_start_from_first_match s j m sh :
  listIsOpen s = true → listening s = true → focusTracked s →
  NoDup (element <$> items s) →
  searchQuery s ≠ "" →
  firstWith (matchesQuery (searchQuery s)) (items s) j m →
  (∃ previous, items s !! (j - 1) = Some previous ∧
     activeElement (onKeydown (mkKey "ArrowUp" sh) s).2 = Some (element previous)) ∧
  activeElement (onKeydown (mkKey "ArrowDown" sh) s).2 =
    match items s !! (j + 1) with
    | Some next => Some (element next)
    | None => Some (element m)
    end.
Proof.
  intros Ho Hl Hf Hnd Hq Hm.
  destruct (search_refocuses_match "ArrowUp" sh s j m) as (s1 & R1 & F1 & Ha1 & Hf1);
    [done..|].
  destruct (search_refocuses_match "ArrowDown" sh s j m) as (s2 & R2 & F2 & Ha2 & Hf2);
    [done..|].
  pose proof (onlySearchAndFocus_items _ _ F1) as Hi1.
  pose proof (onlySearchAndFocus_items _ _ F2) as Hi2.
  destruct Hm as (Hj & _ & _).
  unfold onKeydown. rewrite !bind_run, R1, R2. split.
  - destruct (arrow_from_index s1 j m sh) as [(previous & Hp & ->) _].
    { by rewrite (onlySearchAndFocus_listIsOpen _ _ F1). }
    { by rewrite Hi1. } { by rewrite Hi1. } { done. }
    exists previous. rewrite Hi1 in Hp. split; [done|].
    by destruct (focus_frame (element previous) s1) as (s' & -> & _ & ? & _).
  - destruct (arrow_from_index s2 j m sh) as [_ ->].
    { by rewrite (onlySearchAndFocus_listIsOpen _ _ F2). }
    { by rewrite Hi2. } { by rewrite Hi2. } { done. }
    rewrite Hi2. destruct (items s !! (j + 1)) as [next|]; [|done].
    by destruct (focus_frame (element next) s2) as (s' & -> & _ & ? & _).
Qed.

Lemma arrows_start_from_first_match_witness :
  listIsOpen Scenario.afterArrowDown = true ∧
  searchQuery Scenario.afterArrowDown = "u" ∧
  activeElement Scenario.afterArrowDown = Some 7 ∧
  activeElement (onKeydown (mkKey "ArrowDown" false) Scenario.afterArrowDown).2 = Some 7.
Proof.
  assert (listIsOpen Scenario.afterArrowDown = true) as Ho by (vm_compute; reflexivity).
  assert (listening Scenario.afterArrowDown = true) as Hl by (vm_compute; reflexivity).
  assert (focusTracked Scenario.afterArrowDown) as Hf by (vm_compute; reflexivity).
  assert (NoDup (element <$> items Scenario.afterArrowDown)) as Hnd
    by (apply (bool_decide_unpack _); vm_compute; reflexivity).
  assert (searchQuery Scenario.afterArrowDown = "u") as Hq by (vm_compute; reflexivity).
  assert (searchQuery Scenario.afterArrowDown ≠ "") as Hne
    by (rewrite Hq; intros H; discriminate H).
  assert (firstWith (matchesQuery (searchQuery Scenario.afterArrowDown))
            (items Scenario.afterArrowDown) 0 (mkItem 6 Sample.us)) as Hm.
  { split; [vm_compute; reflexivity|]. split; [vm_compute; reflexivity|].
    intros j y Hj. lia. }
  split; [exact Ho|]. split; [exact Hq|]. split; [vm_compute; reflexivity|].
  destruct (arrows_start_from_first_match Scenario.afterArrowDown 0 (mkItem 6 Sample.us)
              false Ho Hl Hf Hnd Hne Hm) as [_ Hdown].
  change (items Scenario.afterArrowDown !! (0 + 1)) with (Some (mkItem 7 Sample.fr)) in Hdown.
  exact Hdown.
Defined.

(** ** The arrow keys through the listener *)

(** With nothing to search for, the search half of the listener does
    nothing on such a key. *)
Lemma search_idle k sh s :
  listIsOpen s = true →
  queryAfterKey k (searchQuery s) = searchQuery s →
  searchQuery s = "" ∨ List.find (matchesQuery (searchQuery s)) (items s) = None →
  handleDropdownSearch (mkKey k sh) s = (Ret tt, s).
Proof.
  intros Ho Hk Hidle. rewrite handleDropdownSearch_open by done. cbn [key].
  rewrite Hk, setSearchQuery_id.
  destruct (decide (searchQuery s = "")) as [Hq|Hq]; [by rewrite Hq|].
  destruct Hidle as [Hq'|Hnone]; [done|]. by apply focusMatch_none.
Qed.

Lemma focusTracked_active s x :
  focusTracked s → focusedItem s = Some x → activeElement s = Some (element x).
Proof.
  unfold focusTracked. intros Htr Hf. rewrite Hf in Htr.
  destruct (activeElement s) as [h|]; [|discriminate Htr]. cbn in Htr.
  symmetry in Htr. apply find_some in Htr as [_ Hh].
  apply bool_decide_eq_true in Hh. by rewrite Hh.
Qed.

(** The arrow keys in a state where the search half has left the focus on
    the item [x] at index [k]. *)
Lemma arrows_after_search s sh k x (up : bool) s1 :
  handleDropdownSearch (mkKey (if up then "ArrowUp" else "ArrowDown") sh) s = (Ret tt, s1) →
  onlySearchAndFocus s s1 →
  listIsOpen s = true → NoDup (element <$> items s) →
  items s !! k = Some x → focusedItem s1 = Some x → activeElement s1 = Some (element x) →
  if up
  then ∃ previous, items s !! (k - 1) = Some previous ∧
         activeElement (onKeydown (mkKey "ArrowUp" sh) s).2 = Some (element previous)
  else activeElement (onKeydown (mkKey "ArrowDown" sh) s).2 =
         Some (element (default x (items s !! (k + 1)))).
Proof.
  intros R F Ho Hnd Hk Hf Ha.
  pose proof (onlySearchAndFocus_items _ _ F) as Hi.
  pose proof (onlySearchAndFocus_listIsOpen _ _ F) as Ho1.
  destruct (arrow_from_index s1 k x sh) as [(previous & Hp & Hup) Hdown];
    [congruence|by rewrite Hi|by rewrite Hi|done|].
  destruct up; unfold onKeydown; rewrite bind_run, R.
  - exists previous. rewrite Hi in Hp. split; [done|]. rewrite Hup.
    by destruct (focus_frame (element previous) s1) as (s' & -> & _ & ? & _).
  - rewrite Hdown, Hi. destruct (items s !! (k + 1)) as [next|]; [|done].
    by destruct (focus_frame (element next) s1) as (s' & -> & _ & ? & _).
Qed.

(** C5.  The arrow keys reach [handleDropdownNavigation] through the
    [keydown] listener, after [handleDropdownSearch].  With the list open and
    the item at index [i] focused, they move the focus to the neighbours of
    index [i], and ArrowDown on the last item changes nothing, only while the
    query is empty or matches no item.  While the query has a first match,
    at index [j], the search half refocuses it at every key, and the arrow
    keys move the focus to the neighbours of index [j], wherever it was. *)
Theorem arrow_keys_through_listener s i focused sh :
  listIsOpen s = true → listening s = true → focusTracked s →
  NoDup (element <$> items s) →
  items s !! i = Some focused →
  focusedItem s = Some focused →
  (searchQuery s = "" ∨ List.find (matchesQuery (searchQuery s)) (items s) = None →
   arrowsFrom s sh i focused
   ∧ (items s !! (i + 1) = None → onKeydown (mkKey "ArrowDown" sh) s = (Ret tt, s)))
  ∧
  (∀ j m, searchQuery s ≠ "" →
          firstWith (matchesQuery (searchQuery s)) (items s) j m →
          arrowsFrom s sh j m).
Proof.
  intros Ho Hl Htr Hnd Hi Hf. split.
  - intros Hidle.
    assert (∀ up : bool,
              handleDropdownSearch (mkKey (if up then "ArrowUp" else "ArrowDown") sh) s
              = (Ret tt, s)) as Hsearch.
    { intros up. apply search_idle; [done| |done]. by destruct up. }
    pose proof (focusTracked_active _ _ Htr Hf) as Ha.
    split; [split|].
    + apply (arrows_after_search s sh i focused true s);
        auto using onlySearchAndFocus_refl. apply (Hsearch true).
    + apply (arrows_after_search s sh i focused false s);
        auto using onlySearchAndFocus_refl. apply (Hsearch false).
    + intros Hlast. unfold onKeydown. rewrite bind_run, (Hsearch false).
      destruct (arrow_from_index s i focused sh) as [_ ->]; [done..|].
      by rewrite Hlast.
  - intros j m Hq Hm.
    assert (∀ up : bool,
              ∃ s1, handleDropdownSearch
                      (mkKey (if up then "ArrowUp" else "ArrowDown") sh) s = (Ret tt, s1)
                    ∧ onlySearchAndFocus s s1
                    ∧ activeElement s1 = Some (element m)
                    ∧ focusedItem s1 = Some m) as Hsearch.
    { intros up. apply (search_refocuses_match _ sh s j m); try done.
      by destruct up. }
    pose proof (proj1 Hm) as Hj. split.
    + destruct (Hsearch true) as (s1 & R & F & Ha1 & Hf1).
      by apply (arrows_after_search s sh j m true s1).
    + destruct (Hsearch false) as (s1 & R & F & Ha1 & Hf1).
      by apply (arrows_after_search s sh j m false s1).
Qed.

Lemma arrow_keys_through_listener_witness :
  listIsOpen Scenario.afterArrowDown = true ∧
  searchQuery Scenario.afterArrowDown = "u" ∧
  focusedItem Scenario.afterArrowDown = Some (mkItem 7 Sample.fr) ∧
  items Scenario.afterArrowDown !! 1 = Some (mkItem 7 Sample.fr) ∧
  items Scenario.afterArrowDown !! 2 = Some (mkItem 8 Sample.bs) ∧
  activeElement (onKeydown (mkKey "ArrowDown" false) Scenario.afterArrowDown).2 = Some 7 ∧
  activeElement (onKeydown (mkKey "ArrowUp" false) Scenario.afterArrowDown).2 = Some 6.
Proof.
  assert (listIsOpen Scenario.afterArrowDown = true) as Ho by (vm_compute; reflexivity).
  assert (listening Scenario.afterArrowDown = true) as Hl by (vm_compute; reflexivity).
  assert (focusTracked Scenario.afterArrowDown) as Htr by (vm_compute; reflexivity).
  assert (NoDup (element <$> items Scenario.afterArrowDown)) as Hnd
    by (apply (bool_decide_unpack _); vm_compute; reflexivity).
  assert (items Scenario.afterArrowDown !! 1 = Some (mkItem 7 Sample.fr)) as Hi
    by (vm_compute; reflexivity).
  assert (focusedItem Scenario.afterArrowDown = Some (mkItem 7 Sample.fr)) as Hf
    by (vm_compute; reflexivity).
  assert (searchQuery Scenario.afterArrowDown = "u") as Hq by (vm_compute; reflexivity).
  assert (searchQuery Scenario.afterArrowDown ≠ "") as Hne
    by (rewrite Hq; intros H; discriminate H).
  assert (firstWith (matchesQuery (searchQuery Scenario.afterArrowDown))
            (items Scenario.afterArrowDown) 0 (mkItem 6 Sample.us)) as Hm.
  { split; [vm_compute; reflexivity|]. split; [vm_compute; reflexivity|].
    intros j y Hj. lia. }
  split; [exact Ho|]. split; [exact Hq|]. split; [exact Hf|]. split; [exact Hi|].
  split; [vm_compute; reflexivity|].
  destruct (proj2 (arrow_keys_through_listener Scenario.afterArrowDown 1
                     (mkItem 7 Sample.fr) false Ho Hl Htr Hnd Hi Hf)
              0 (mkItem 6 Sample.us) Hne Hm)
    as [(previous & Hp & Hup) Hdown].
  split.
  - change (items Scenario.afterArrowDown !! (0 + 1))
      with (Some (mkItem 7 Sample.fr)) in Hdown.
    exact Hdown.
  - change (items Scenario.afterArrowDown !! (0 - 1))
      with (Some (mkItem 6 Sample.us)) in Hp.
    injection Hp as <-. exact Hup.
Defined.

(** ** Space and Tab *)

Lemma closeDropdown_false_spec s t :
  dropdownToggle s = Some t →
  closeDropdown false s =
    (Ret tt, addEffect (Dispatched t "mouseup") (addEffect (Dispatched t "click") s)).
Proof.
  intros Ht. unfold closeDropdown, when, dispatchEvent, emit.
  rewrite bind_run. unfold mret at 1, M_ret at 1. cbv beta iota.
  rewrite bind_run, (getsToggle_run _ _ Ht). reflexivity.
Qed.

Lemma handleDropdownNavigation_space sh s item i :
  listIsOpen s = true → listening s = true →
  NoDup (element <$> items s) → items s !! i = Some item →
  focusedItem s = Some item →
  handleDropdownNavigation (mkKey " " sh) s =
    (Ret tt, (tryCatch (handleItemSelect item) (mret tt) s).2).
Proof.
  intros Ho Hl Hnd Hi Hf. unfold handleDropdownNavigation.
  rewrite bind_run. unfold gets at 1. cbv beta iota. rewrite Ho. cbn [negb unless key].
  change (bool_decide (" " = " ")) with true.
  change (bool_decide (" " = "Tab")) with false.
  change (bool_decide (" " = "ArrowUp")) with false.
  change (bool_decide (" " = "ArrowDown")) with false.
  cbv zeta. cbn [orb when].
  rewrite bind_run. unfold gets at 1. cbv beta iota. rewrite Hf.
  rewrite bind_run. unfold click. rewrite bind_run. unfold gets at 1. cbv beta iota.
  rewrite bind_run. unfold gets at 1. cbv beta iota.
  rewrite Hl, (itemOfElement_lookup _ i) by done. cbn [when].
  unfold tryCatch. by destruct (handleItemSelect item s) as [[[]|e] s'].
Qed.

(** Space in [handleDropdownNavigation], on the item that has the focus. *)
Lemma handleDropdownNavigation_space_spec sh s item i t :
  listIsOpen s = true → listening s = true →
  NoDup (element <$> items s) → items s !! i = Some item →
  focusedItem s = Some item →
  dropdownToggle s = Some t →
  is_Some (flag (nodes s t)) → is_Some (valueEl (nodes s t)) →
  if isSelectedItem (selectedItem s) item
  then handleDropdownNavigation (mkKey " " sh) s = (Ret tt, s)
  else ∃ s', handleDropdownNavigation (mkKey " " sh) s = (Ret tt, s')
             ∧ selectedItem s' = Some item
             ∧ marked s' item
             ∧ effects s' = effects s ++ closingEvents t
             ∧ activeElement s' = Some t.
Proof.
  intros Ho Hl Hnd Hi Hf Ht Hflag Hvalue.
  rewrite (handleDropdownNavigation_space sh s item i) by done. unfold tryCatch.
  destruct (isSelectedItem (selectedItem s) item) eqn:Hsel.
  - by rewrite handleItemSelect_same.
  - destruct (handleItemSelect_run item s t Hsel Ht Hflag Hvalue)
      as (s' & -> & _ & Hs' & N & He & Ha).
    exists s'. rewrite Ho in He, Ha. split_and!; [done..| |done|done].
    unfold marked. rewrite N, afterSelect_classList. cbv zeta.
    rewrite (decide_True _ _ eq_refl). by apply elem_of_union_l, elem_of_singleton.
Qed.

(** X6.  Space, through the [keydown] listener, is a click on the item the
    search half of the listener leaves focused: the focused item while the
    query is empty, the first match of the query while there is one.  It
    never throws.  An item that is not the selection becomes the selection
    and the list is closed through the toggle, which takes the focus; on the
    item that is selected already nothing is selected and nothing is closed,
    and with an empty query nothing changes at all. *)
Theorem space_key_selects sh s item i t :
  listIsOpen s = true → listening s = true → focusTracked s →
  NoDup (element <$> items s) →
  dropdownToggle s = Some t →
  is_Some (flag (nodes s t)) → is_Some (valueEl (nodes s t)) →
  (searchQuery s = "" ∧ items s !! i = Some item ∧ focusedItem s = Some item)
  ∨ (searchQuery s ≠ "" ∧ firstWith (matchesQuery (searchQuery s)) (items s) i item) →
  ∃ s', onKeydown (mkKey " " sh) s = (Ret tt, s') ∧
    if isSelectedItem (selectedItem s) item
    then onlySearchAndFocus s s' ∧ searchQuery s' = searchQuery s
         ∧ (searchQuery s = "" → s' = s)
    else selectedItem s' = Some item
         ∧ marked s' item
         ∧ effects s' = effects s ++ closingEvents t
         ∧ activeElement s' = Some t.
Proof.
  intros Ho Hl Htr Hnd Ht Hflag Hvalue Hitem.
  assert (queryAfterKey " " (searchQuery s) = searchQuery s) as Hk by reflexivity.
  assert (∃ s1, handleDropdownSearch (mkKey " " sh) s = (Ret tt, s1)
                ∧ onlySearchAndFocus s s1
                ∧ items s !! i = Some item
                ∧ focusedItem s1 = Some item
                ∧ (searchQuery s = "" → s1 = s)) as (s1 & R & F & Hi & Hf & Hsame).
  { destruct Hitem as [(Hq & Hi & Hf)|(Hq & Hm)].
    - exists s. rewrite search_idle by auto.
      auto using onlySearchAndFocus_refl.
    - destruct (search_refocuses_match " " sh s i item) as (s1 & R & F & _ & Hf);
        [done..|].
      exists s1. split_and!; [done|done|by destruct Hm|done|done]. }
  pose proof (onlySearchAndFocus_items _ _ F) as Hi1.
  pose proof (onlySearchAndFocus_listIsOpen _ _ F) as Ho1.
  assert (listening s1 = listening s) as Hl1 by (by apply (f_equal listening) in F).
  assert (dropdownToggle s1 = dropdownToggle s) as Ht1
    by (by apply (f_equal dropdownToggle) in F).
  assert (nodes s1 = nodes s) as Hn1 by (by apply (f_equal nodes) in F).
  assert (selectedItem s1 = selectedItem s) as Hs1
    by (by apply (f_equal selectedItem) in F).
  assert (effects s1 = effects s) as He1 by (by apply (f_equal effects) in F).
  assert (searchQuery s1 = searchQuery s) as Hq1.
  { pose proof (handleDropdownSearch_query (mkKey " " sh) s) as H.
    rewrite R, Ho in H. cbn [snd key] in H. by rewrite H. }
  pose proof (handleDropdownNavigation_space_spec sh s1 item i t) as Hnav.
  rewrite Hs1 in Hnav. unfold onKeydown. rewrite bind_run, R.
  destruct (isSelectedItem (selectedItem s) item).
  - exists s1. rewrite Hnav; [done|congruence|congruence|by rewrite Hi1|by rewrite Hi1
                              |done|congruence|by rewrite Hn1|by rewrite Hn1].
  - destruct Hnav as (s' & -> & Hsel & Hmark & He & Ha);
      [congruence|congruence|by rewrite Hi1|by rewrite Hi1
      |done|congruence|by rewrite Hn1|by rewrite Hn1|].
    exists s'. split; [done|]. split_and!; [done|done|by rewrite He, He1|done].
Qed.

Lemma handleDropdownNavigation_tab sh s t :
  listIsOpen s = true →
  dropdownToggle s = Some t →
  ∃ s', handleDropdownNavigation (mkKey "Tab" sh) s = (Ret tt, s')
        ∧ effects s' =
            effects s ++ (if sh then [PreventedDefault] else []) ++ closingEvents t
        ∧ activeElement s' = (if sh then Some t else activeElement s)
        ∧ focusAndEffectsOnly s s'.
Proof.
  intros Ho Ht. unfold handleDropdownNavigation.
  rewrite bind_run. unfold gets at 1. cbv beta iota. rewrite Ho. cbn [negb unless key shiftKey].
  change (bool_decide ("Tab" = " ")) with false.
  change (bool_decide ("Tab" = "Tab")) with true.
  change (bool_decide ("Tab" = "ArrowUp")) with false.
  change (bool_decide ("Tab" = "ArrowDown")) with false.
  cbv zeta. cbn [orb when].
  rewrite bind_run. unfold gets at 1. cbv beta iota.
  assert (∀ o : option DropdownItem,
            match o with Some _ => (mret tt : M unit) | None => mret tt end = mret tt)
    as Hfoc by (by intros []).
  rewrite Hfoc, bind_run. unfold mret at 1, M_ret at 1. cbv beta iota.
  rewrite bind_run, bind_run.
  destruct sh; cbn [when].
  - unfold emit at 1, modify at 1. cbv beta iota.
    destruct (closeDropdown_spec (setEffects (effects s ++ [PreventedDefault]) s) t Ht)
      as (s' & -> & F & Ha & He).
    exists s'. split; [done|]. split_and!; [|done|].
    + rewrite He. fields. by rewrite <- app_assoc.
    + clear - F. unfold focusAndEffectsOnly in *. fields_eq.
  - unfold mret at 1, M_ret at 1. cbv beta iota.
    rewrite (closeDropdown_false_spec _ _ Ht).
    eexists. split; [reflexivity|]. unfold addEffect. fields. split_and!.
    + unfold closingEvents. by rewrite <- app_assoc.
    + done.
    + unfold focusAndEffectsOnly. fields_eq.
Qed.

(** The search half of the listener on a key that does not change the
    query. *)
Lemma search_leaves_focus k sh s :
  listIsOpen s = true →
  queryAfterKey k (searchQuery s) = searchQuery s →
  ∃ s1, handleDropdownSearch (mkKey k sh) s = (Ret tt, s1)
        ∧ focusAndEffectsOnly s s1
        ∧ effects s1 = effects s
        ∧ activeElement s1 = focusAfterSearch s.
Proof.
  intros Ho Hk. rewrite handleDropdownSearch_open by done. cbn [key].
  rewrite Hk, setSearchQuery_id. unfold focusAfterSearch.
  assert (focusAndEffectsOnly s s) as Hrefl by (by destruct s).
  case_bool_decide as Hq.
  - exists s. by rewrite Hq.
  - destruct (List.find (matchesQuery (searchQuery s)) (items s)) as [m|] eqn:Hm.
    + rewrite (focusMatch_found _ _ m) by done.
      destruct (focus_frame (element m) s) as (s1 & -> & F & Ha & Hq1).
      exists s1. split_and!; [done| |by apply (f_equal effects) in F|done].
      clear - F Hq1. unfold focusAndEffectsOnly, onlySearchAndFocus in *.
      destruct s, s1. cbn in Hq1. subst. fields_eq.
    + rewrite focusMatch_none by done. by exists s.
Qed.

(** X7.  Tab, through the [keydown] listener, closes the list through the
    toggle: a click and a mouseup are replayed on it.  Shift+Tab suppresses
    the default action of the key first and moves the focus to the toggle.
    Plain Tab does not suppress it and leaves the focus where the search half
    of the listener puts it: where it was while the query is empty or matches
    nothing, on the first match of the query otherwise.  Neither changes the
    selection, the query, the open flag or the DOM. *)
Theorem tab_key_closes_the_list sh s t :
  listIsOpen s = true →
  dropdownToggle s = Some t →
  ∃ s', onKeydown (mkKey "Tab" sh) s = (Ret tt, s')
        ∧ effects s' =
            effects s ++ (if sh then [PreventedDefault] else []) ++ closingEvents t
        ∧ activeElement s' = (if sh then Some t else focusAfterSearch s)
        ∧ (searchQuery s = "" → sh = false → activeElement s' = activeElement s)
        ∧ focusAndEffectsOnly s s'.
Proof.
  intros Ho Ht.
  destruct (search_leaves_focus "Tab" sh s Ho) as (s1 & R & F & He1 & Ha1);
    [reflexivity|].
  assert (listIsOpen s1 = true) as Ho1
    by (apply (f_equal listIsOpen) in F; cbn in F; congruence).
  assert (dropdownToggle s1 = Some t) as Ht1
    by (apply (f_equal dropdownToggle) in F; cbn in F; congruence).
  destruct (handleDropdownNavigation_tab sh s1 t Ho1 Ht1) as (s' & R' & He & Ha & F').
  exists s'. unfold onKeydown. rewrite bind_run, R. split; [done|].
  split_and!.
  - by rewrite He, He1.
  - rewrite Ha. by destruct sh.
  - intros Hq ->. rewrite Ha, Ha1. unfold focusAfterSearch.
    by rewrite bool_decide_eq_true_2.
  - clear - F F'. unfold focusAndEffectsOnly in *. fields_eq.
Qed.

Lemma space_key_selects_witness :
  listIsOpen Sample.onLast = true ∧
  searchQuery Sample.onLast = "b" ∧
  focusedItem Sample.onLast = Some (mkItem 8 Sample.bs) ∧
  selectedItem Sample.onLast = Some (mkItem 7 Sample.fr) ∧
  ∃ s', onKeydown (mkKey " " false) Sample.onLast = (Ret tt, s')
        ∧ selectedItem s' = Some (mkItem 8 Sample.bs)
        ∧ activeElement s' = Some 1.
Proof.
  assert (listIsOpen Sample.onLast = true) as Ho by (vm_compute; reflexivity).
  assert (listening Sample.onLast = true) as Hl by (vm_compute; reflexivity).
  assert (focusTracked Sample.onLast) as Htr by (vm_compute; reflexivity).
  assert (NoDup (element <$> items Sample.onLast)) as Hnd
    by (apply (bool_decide_unpack _); vm_compute; reflexivity).
  assert (searchQuery Sample.onLast = "b") as Hq by (vm_compute; reflexivity).
  assert (searchQuery Sample.onLast ≠ "") as Hne
    by (rewrite Hq; intros H; discriminate H).
  assert (firstWith (matchesQuery (searchQuery Sample.onLast))
            (items Sample.onLast) 2 (mkItem 8 Sample.bs)) as Hm.
  { split; [vm_compute; reflexivity|]. split; [vm_compute; reflexivity|].
    intros [|[|j]] y Hj Hy; [| |lia].
    - vm_compute in Hy. injection Hy as <-. vm_compute. reflexivity.
    - vm_compute in Hy. injection Hy as <-. vm_compute. reflexivity. }
  assert (dropdownToggle Sample.onLast = Some 1) as Ht by (vm_compute; reflexivity).
  assert (is_Some (flag (nodes Sample.onLast 1))) as Hflag
    by (vm_compute; eexists; reflexivity).
  assert (is_Some (valueEl (nodes Sample.onLast 1))) as Hvalue
    by (vm_compute; eexists; reflexivity).
  split; [exact Ho|]. split; [exact Hq|]. split; [vm_compute; reflexivity|].
  split; [vm_compute; reflexivity|].
  pose proof (space_key_selects false Sample.onLast (mkItem 8 Sample.bs) 2 1
                Ho Hl Htr Hnd Ht Hflag Hvalue (or_intror (conj Hne Hm))) as H.
  change (isSelectedItem (selectedItem Sample.onLast) (mkItem 8 Sample.bs))
    with false in H.
  destruct H as (s' & R & Hs' & _ & _ & Ha).
  exists s'. split; [exact R|]. split; [exact Hs'|exact Ha].
Defined.

Lemma tab_key_closes_the_list_witness :
  listIsOpen Sample.typedOne = true ∧
  dropdownToggle Sample.typedOne = Some 1 ∧
  searchQuery Sample.typedOne = "1" ∧
  focusAfterSearch Sample.typedOne = Some 6 ∧
  (∃ s', onKeydown (mkKey "Tab" true) Sample.typedOne = (Ret tt, s')
         ∧ effects s' = effects Sample.typedOne ++ [PreventedDefault] ++ closingEvents 1
         ∧ activeElement s' = Some 1) ∧
  (∃ s', onKeydown (mkKey "Tab" false) Sample.typedOne = (Ret tt, s')
         ∧ effects s' = effects Sample.typedOne ++ closingEvents 1
         ∧ activeElement s' = Some 6).
Proof.
  assert (listIsOpen Sample.typedOne = true) as Ho by (vm_compute; reflexivity).
  assert (dropdownToggle Sample.typedOne = Some 1) as Ht by (vm_compute; reflexivity).
  assert (focusAfterSearch Sample.typedOne = Some 6) as Hfoc by (vm_compute; reflexivity).
  split; [exact Ho|]. split; [exact Ht|]. split; [vm_compute; reflexivity|].
  split; [exact Hfoc|]. split.
  - destruct (tab_key_closes_the_list true Sample.typedOne 1 Ho Ht)
      as (s' & R & He & Ha & _).
    exists s'. split; [exact R|]. split; [exact He|exact Ha].
  - destruct (tab_key_closes_the_list false Sample.typedOne 1 Ho Ht)
      as (s' & R & He & Ha & _).
    exists s'. split; [exact R|]. split; [exact He|]. rewrite Ha. exact Hfoc.
Defined.

(** ** The location in the trace *)

Lemma append_char_assoc cur c l : (cur +:+ String c "") +:+ l = cur +:+ String c l.
Proof. induction cur as [|d cur IH]; [done|]. by rewrite !append_cons, IH. Qed.

Lemma append_empty_inv a b : a +:+ b = "" → a = "" ∧ b = "".
Proof. by destruct a. Qed.

Lemma runsAux_line sep cur l rest :
  allChars (λ c, negb (sep c)) l = true →
  runsAux sep cur (l +:+ rest) = runsAux sep (cur +:+ l) rest.
Proof.
  revert cur. induction l as [|c l IH]; intros cur Hl.
  - by rewrite append_empty_r.
  - cbn [allChars] in Hl. apply andb_true_iff in Hl as [Hc Hl].
    rewrite append_cons. cbn [runsAux]. destruct (sep c); [done|]. rewrite IH by done.
    by rewrite append_char_assoc.
Qed.

Lemma append_assoc a b c : (a +:+ b) +:+ c = a +:+ (b +:+ c).
Proof. induction a as [|d a IH]; [done|]. by rewrite !append_cons, IH. Qed.

Lemma runs_unlines_app ls x :
  Forall (λ l, noBreak l = true) ls →
  runs isLineBreak (unlines ls +:+ x)
  = List.filter (λ l, negb (bool_decide (l = ""))) ls ++ runs isLineBreak x.
Proof.
  induction 1 as [|l ls Hl _ IH]; [done|].
  unfold runs in *. cbn [unlines foldr List.filter].
  rewrite append_assoc, append_cons.
  rewrite runsAux_line by done. cbn [runsAux].
  change (isLineBreak "010") with true. cbv iota. change ("" +:+ l) with l.
  fold (unlines ls). rewrite IH. by destruct (bool_decide (l = "")).
Qed.

Lemma runs_line line rest :
  noBreak line = true → line ≠ "" → endsLine rest = true →
  ∃ others, runs isLineBreak (line +:+ rest) = line :: others.
Proof.
  intros Hline Hne Hrest. unfold runs. rewrite runsAux_line by done.
  change ("" +:+ line) with line.
  destruct rest as [|c rest]; cbn [runsAux endsLine] in *.
  - rewrite bool_decide_eq_false_2 by done. eauto.
  - rewrite Hrest, bool_decide_eq_false_2 by done. eauto.
Qed.

Lemma find_app_first {A} (p : A → bool) before x after :
  Forall (λ y, p y = false) before → p x = true →
  List.find p (before ++ x :: after) = Some x.
Proof.
  induction 1 as [|y before Hy _ IH]; intros Hx; cbn [app List.find].
  - by rewrite Hx.
  - rewrite Hy. by apply IH.
Qed.

Lemma splitAux_no_separator d cur v :
  allChars (λ c, negb (bool_decide (c = d))) v = true →
  splitAux d cur v = [cur +:+ v].
Proof.
  revert cur. induction v as [|c v IH]; intros cur Hv.
  - by rewrite append_empty_r.
  - cbn [allChars] in Hv. apply andb_true_iff in Hv as [Hc Hv].
    cbn [splitAux]. destruct (bool_decide (c = d)); [done|].
    rewrite IH by done. by rewrite append_char_assoc.
Qed.

Lemma split_loc_value v :
  noEquals v = true → split "=" ("loc=" +:+ v) !! 1 = Some v.
Proof.
  intros Hv. unfold split. rewrite !append_cons. cbn [splitAux].
  change (bool_decide ("l"%char = "="%char)) with false.
  change (bool_decide ("o"%char = "="%char)) with false.
  change (bool_decide ("c"%char = "="%char)) with false.
  change (bool_decide ("="%char = "="%char)) with true.
  cbv iota. cbn [lookup list_lookup].
  by rewrite splitAux_no_separator.
Qed.

(** X8.  [fetchUserLocation] reads the location off the first line of the
    trace that starts with ["loc"]: when the trace begins with lines, ended
    by line feeds, that do not start with ["loc"], followed by a line that
    does, the result is the text between the first and the second equals
    sign of that line, and undefined when the line has no equals sign; what
    comes after the line does not matter.  In particular a trace whose first
    such line is ["loc=<code>"] gives the code. *)
Theorem location_from_first_loc_line net s body before line rest :
  net traceUrl = Some (mkResponse body (Some (unlines before +:+ line +:+ rest))) →
  Forall (λ l, noBreak l = true) before →
  Forall (λ l, startsWith l "loc" = false) before →
  noBreak line = true → startsWith line "loc" = true →
  endsLine rest = true →
  (fetchUserLocation net s).1 = Ret (split "=" line !! 1)
  ∧ ∀ code, line = "loc=" +:+ code → noEquals code = true →
            (fetchUserLocation net s).1 = Ret (Some code).
Proof.
  intros Hnet Hlines Hbefore Hnb Hline Hrest.
  assert (line ≠ "") as Hne by (by intros ->).
  assert ((fetchUserLocation net s).1 = Ret (split "=" line !! 1)) as Hres.
  { unfold fetchUserLocation, tryCatch. rewrite bind_run, fetch_run, Hnet.
    cbn [text awaitBody]. rewrite bind_run. unfold mret at 1, M_ret at 1. cbv beta iota zeta.
    assert (findLocLine (unlines before +:+ line +:+ rest) = Some line) as ->.
    { unfold findLocLine. rewrite runs_unlines_app by done.
      destruct (runs_line line rest Hnb Hne Hrest) as [others ->].
      assert (List.find (λ l, startsWith l "loc")
                (List.filter (λ l, negb (bool_decide (l = ""))) before ++ line :: others)
              = Some line) as Hfind.
      { apply find_app_first; [|done].
        apply Forall_forall. intros l Hl.
        apply filter_In in Hl as [Hl _].
        by apply (proj1 (Forall_forall _ _) Hbefore). }
      revert Hfind.
      by destruct (List.filter _ before ++ line :: others). }
    unfold truthy. rewrite bool_decide_eq_false_2 by done.
    reflexivity. }
  split; [done|]. intros code -> Hcode. by rewrite Hres, split_loc_value.
Qed.

Lemma location_from_first_loc_line_witness :
  (fetchUserLocation (Sample.net (Some Sample.traceFR)) Sample.constructed).1
  = Ret (Some "FR").
Proof.
  refine (proj2 (location_from_first_loc_line (Sample.net (Some Sample.traceFR))
                   Sample.constructed None ["fl=29f1"] "loc=FR"
                   (String "010" "tls=TLSv1.3") _ _ _ _ _ _) "FR" eq_refl eq_refl).
  - vm_compute. reflexivity.
  - repeat constructor.
  - repeat constructor.
  - reflexivity.
  - reflexivity.
  - reflexivity.
Defined.

(** ** What [init] establishes *)

Lemma fetchCountries_run net s :
  fetchCountries net s = (Ret (fetchedCountries net), addEffect (Fetched countriesUrl) s).
Proof.
  unfold fetchCountries, fetchedCountries, tryCatch. rewrite bind_run, fetch_run.
  destruct (net countriesUrl) as [r|]; [|done].
  unfold awaitBody. by destruct (json r).
Qed.

Lemma fetchUserLocation_returns net s :
  ∃ located, fetchUserLocation net s = (Ret located, addEffect (Fetched traceUrl) s).
Proof.
  unfold fetchUserLocation, tryCatch. rewrite bind_run, fetch_run.
  destruct (net traceUrl) as [r|]; [|by eexists].
  rewrite bind_run. unfold awaitBody. destruct (text r) as [t|]; by eexists.
Qed.

(** [renderOptions] up to its last statement: the loop has made the items
    and appended their elements, and the template is about to be removed. *)
Lemma renderOptions_to_removal countries s l tpl :
  listEl s = Some l →
  querySelectorMarker (nextHandle s) (nodes s) l "item" = Some tpl →
  is_Some (flag (nodes s tpl)) → is_Some (valueEl (nodes s tpl)) →
  l < nextHandle s → tpl < nextHandle s → tpl ≠ l →
  ∃ s1, renderOptions countries s
        = removeChild l tpl (setItems (renderedItems (nextHandle s) countries) s1)
    ∧ nodesNextOnly s s1
    ∧ nodes s1 l =
        setChildren (children (nodes s l) ++ seq (nextHandle s) (length countries))
          (nodes s l)
    ∧ (∀ i c, countries !! i = Some c →
         nodes s1 (nextHandle s + i) = rendered c (nodes s tpl)).
Proof.
  intros Hlist Hq Hflag Hvalue Hl Htpl Hne.
  unfold renderOptions. rewrite bind_run, (bind_run (gets listEl)).
  unfold gets at 1. cbv beta iota.
  rewrite Hlist. cbn [deref]. unfold mret at 1, M_ret at 1. cbv beta iota.
  rewrite bind_run. unfold gets at 1. cbv beta iota. rewrite Hq.
  change (mapM _ countries) with (mapM (renderOne l tpl) countries).
  destruct (renderLoop_spec l tpl countries s Hflag Hvalue Hl Htpl Hne)
    as (s1 & R1 & O1 & Hn1 & Hl1 & Hc1 & Ho1).
  rewrite bind_run, R1. rewrite bind_run. unfold modify at 1. cbv beta iota.
  by exists s1.
Qed.

Lemma renderOptions_run countries s l tpl :
  listEl s = Some l →
  querySelectorMarker (nextHandle s) (nodes s) l "item" = Some tpl →
  tpl ∈ children (nodes s l) →
  is_Some (flag (nodes s tpl)) → is_Some (valueEl (nodes s tpl)) →
  l < nextHandle s → tpl < nextHandle s → tpl ≠ l →
  ∃ s', renderOptions countries s = (Ret tt, s')
    ∧ renderFrame s s'
    ∧ items s' = renderedItems (nextHandle s) countries
    ∧ (∀ i c, countries !! i = Some c →
         nodes s' (nextHandle s + i) = rendered c (nodes s tpl)).
Proof.
  intros Hlist Hq Hin Hflag Hvalue Hl Htpl Hne.
  destruct (renderOptions_to_removal countries s l tpl)
    as (s1 & -> & O1 & Hl1 & Hc1); [done..|].
  unfold removeChild. rewrite bind_run. unfold gets at 1. cbv beta iota.
  change (nodes (setItems (renderedItems (nextHandle s) countries) s1) l)
    with (nodes s1 l).
  rewrite Hl1. cbn [children setChildren].
  rewrite bool_decide_eq_true_2 by (apply elem_of_app; by left).
  destruct (updEl_spec l
    (setChildren (List.filter (λ h, negb (bool_decide (h = tpl)))
                    (children (nodes s l) ++ seq (nextHandle s) (length countries))))
    (setItems (renderedItems (nextHandle s) countries) s1)) as (s2 & -> & O2 & N2).
  exists s2. split; [done|]. split_and!.
  - clear - O1 O2. unfold renderFrame, nodesOnly, nodesNextOnly in *. fields_eq.
  - apply (f_equal items) in O2. by cbn in O2.
  - intros i c Hi. rewrite N2. rewrite decide_False by lia. by apply Hc1.
Qed.

Lemma renderedItems_elements n countries :
  element <$> renderedItems n countries = seq n (length countries).
Proof.
  revert n. induction countries as [|c countries IH]; intros n; [done|].
  rewrite renderedItems_cons. cbn [fmap list_fmap length seq]. f_equal. apply IH.
Qed.

Lemma renderedItems_countries n countries :
  country <$> renderedItems n countries = countries.
Proof.
  revert n. induction countries as [|c countries IH]; intros n; [done|].
  rewrite renderedItems_cons. cbn [fmap list_fmap]. f_equal. apply IH.
Qed.

Lemma renderedItems_elem n countries x :
  x ∈ renderedItems n countries →
  ∃ i c, countries !! i = Some c ∧ x = mkItem (n + i) c.
Proof.
  intros [i Hi]%list_elem_of_lookup_1. rewrite renderedItems_lookup in Hi.
  destruct (countries !! i) as [c|] eqn:Hc; [|done].
  injection Hi as <-. eauto.
Qed.

Lemma initSetup_run net s l dl tpl :
  listEl s = Some l → dropdownList s = Some dl →
  querySelectorMarker (nextHandle s) (nodes s) l "item" = Some tpl →
  tpl ∈ children (nodes s l) →
  is_Some (flag (nodes s tpl)) → is_Some (valueEl (nodes s tpl)) →
  l < nextHandle s → tpl < nextHandle s → tpl ≠ l →
  ∃ located s', initSetup net s = (Ret located, s')
    ∧ setupFrame s s'
    ∧ items s' = renderedItems (nextHandle s) (fetchedCountries net)
    ∧ listening s' = true ∧ observing s' = true
    ∧ (∀ i c, fetchedCountries net !! i = Some c →
         nodes s' (nextHandle s + i) = rendered c (nodes s tpl)).
Proof.
  intros Hlist Hdl Hq Hin Hflag Hvalue Hl Htpl Hne.
  unfold initSetup. rewrite bind_run, fetchCountries_run.
  set (s1 := addEffect (Fetched countriesUrl) s).
  destruct (renderOptions_run (fetchedCountries net) s1 l tpl)
    as (s2 & R2 & F2 & Hi2 & Hn2); [done..|].
  rewrite bind_run, R2.
  assert (dropdownList s2 = Some dl) as Hdl2.
  { apply (f_equal dropdownList) in F2. cbn in F2. congruence. }
  unfold addEventListeners, observeDropdownList.
  rewrite bind_run, bind_run, bind_run. unfold gets at 1. cbv beta iota. rewrite Hdl2.
  cbn [deref]. unfold mret at 1, M_ret at 1. cbv beta iota.
  unfold modify at 1. cbv beta iota.
  rewrite bind_run, bind_run, bind_run. unfold gets at 1. cbv beta iota.
  cbn [dropdownList setListening]. rewrite Hdl2.
  cbn [deref]. unfold mret at 1, M_ret at 1. cbv beta iota.
  unfold modify at 1. cbv beta iota.
  destruct (fetchUserLocation_returns net (setObserving true (setListening true s2)))
    as [located ->].
  eexists located, _. split; [reflexivity|]. unfold addEffect. fields.
  split_and!; [|done..].
  clear - F2. subst s1. unfold setupFrame, renderFrame, addEffect in *. fields_eq.
Qed.

Lemma find_ext {A} (p q : A → bool) (l : list A) :
  (∀ x, p x = q x) → List.find p l = List.find q l.
Proof.
  intros Hpq. induction l as [|x l IH]; [done|]. cbn [List.find].
  by rewrite Hpq, IH.
Qed.

Lemma sameOpen_refl s : sameOpen s s.
Proof. done. Qed.

Lemma sameOpen_trans s1 s2 s3 : sameOpen s1 s2 → sameOpen s2 s3 → sameOpen s1 s3.
Proof. unfold sameOpen. congruence. Qed.

Lemma sameOpen_focus h : preserves sameOpen (focus h).
Proof.
  intros s. destruct (focus_frame h s) as (s' & -> & F & _).
  by apply (f_equal listIsOpen) in F.
Qed.

Lemma sameOpen_handleItemSelect item : preserves sameOpen (handleItemSelect item).
Proof.
  unfold handleItemSelect, toggleItemSelected, updateDropdownToggle, classListToggle,
    setAttribute, setFlagSrc, setFlagAlt, setValueText, updEl, closeDropdown,
    dispatchEvent, emit.
  cbv zeta.
  pres sameOpen_refl sameOpen_trans
    ltac:(first [ apply sameOpen_focus | by intros ? ]).
Qed.

Lemma constructor_run root input s t :
  toggleOf root = Some t →
  constructor root input s =
    (Ret tt,
     setNodes (<[t := setAttributes (<["aria-haspopup" := "listbox"]> (attributes (nodes s t)))
                       (nodes s t)]> (nodes s))
       (setCountryCodeInput input
          (setListEl (listOf root)
             (setDropdownList (dropdownListOf root)
                (setDropdownToggle (Some t) s))))).
Proof.
  intros Ht. unfold constructor, setAttribute, updEl. unfold_m. fields.
  rewrite Ht. reflexivity.
Qed.

Lemma descendants_ext k d d' :
  (∀ h, children (d h) = children (d' h)) →
  ∀ h, descendants k d h = descendants k d' h.
Proof.
  intros Hc. induction k as [|k IH]; intros h; [done|].
  cbn [descendants]. rewrite Hc. apply flat_map_ext_elem. intros c _. by rewrite IH.
Qed.

(** The constructor writes one attribute of the toggle: after it, the
    query for the template item finds what it finds in the page. *)
Lemma constructor_state root input d n t l tpl :
  toggleOf root = Some t →
  querySelectorMarker n d l "item" = Some tpl →
  t ≠ l → t ≠ tpl →
  ∃ s0, constructor root input (freshState d n) = (Ret tt, s0)
    ∧ s0 = setNodes (nodes s0)
             (setCountryCodeInput input
                (setListEl (listOf root)
                   (setDropdownList (dropdownListOf root)
                      (setDropdownToggle (Some t) (freshState d n)))))
    ∧ nodes s0 l = d l ∧ nodes s0 tpl = d tpl
    ∧ querySelectorMarker (nextHandle s0) (nodes s0) l "item" = Some tpl.
Proof.
  intros Ht Hq Htl Htt. rewrite (constructor_run _ _ _ _ Ht).
  eexists. split; [reflexivity|]. fields. split; [reflexivity|].
  rewrite !fn_lookup_insert_ne by done. split; [done|]. split; [done|].
  rewrite <- Hq. unfold querySelectorMarker.
  rewrite (descendants_ext n _ d).
  - apply find_ext. intros h. unfold hasMarker.
    destruct (decide (t = h)) as [->|Hth].
    + rewrite fn_lookup_insert. cbn [attributes setAttributes].
      by rewrite lookup_insert_ne by discriminate.
    + by rewrite fn_lookup_insert_ne.
  - intros h. destruct (decide (t = h)) as [->|Hth].
    + by rewrite fn_lookup_insert.
    + by rewrite fn_lookup_insert_ne.
Qed.

Lemma reactAll_returns evs s : (reactAll evs s).1 = Ret tt.
Proof.
  revert s. induction evs as [|ev evs IH]; intros s; [done|].
  by rewrite reactAll_cons.
Qed.

Lemma initWhile_after_setup net d pending s :
  initWhile net d pending s =
    match initSetup net s with
    | (Ret located, s1) =>
        let s2 := (reactAll pending s1).2 in
        match List.find (hasCode (effectiveCode located d)) (items s2) with
        | Some selectedCountry => handleItemSelect selectedCountry s2
        | None => (Ret tt, s2)
        end
    | (Threw e, s1) => (Threw e, s1)
    end.
Proof.
  unfold initWhile, initSetup. rewrite !bind_run.
  destruct (fetchCountries net s) as [[countries|e] s1]; [|done].
  rewrite !bind_run.
  destruct (renderOptions countries s1) as [[[]|e] s2]; [|done].
  rewrite !bind_run.
  destruct (addEventListeners s2) as [[[]|e] s3]; [|done].
  rewrite !bind_run.
  destruct (observeDropdownList s3) as [[[]|e] s4]; [|done].
  rewrite !bind_run.
  destruct (fetchUserLocation net s4) as [[located|e] s5]; [|done].
  rewrite bind_run. pose proof (reactAll_returns pending s5) as Hret.
  destruct (reactAll pending s5) as [[[]|e] s6]; [|discriminate Hret].
  rewrite jsOr_effectiveCode. unfold_m. unfold hasCode. cbn [snd].
  by destruct (List.find _ (items s6)).
Qed.

(** With no event in between, it is [init]. *)
Lemma initWhile_nil net d s : initWhile net d [] s = init net d s.
Proof.
  rewrite initWhile_after_setup, init_after_setup.
  by destruct (initSetup net s) as [[located|e] s1].
Qed.

(** X9.  On a page that has the toggle, the dropdown list, the list
    container and, as a child of it, a template item with its flag and value
    parts and without the selected class, construction leaves the widget in
    order, whatever well-typed answers the network gives, whether or not a
    country gets selected, and whatever events the page handles while the
    location is awaited: the listeners and the observer are installed; there
    is one item for each fetched country, in the order of the answer, each
    on an element of its own; [focusedItem] agrees with the focus; only the
    selected item is marked; the query is alphanumeric.  When no event is
    handled in between, this is the state [new PhonePrefix] ends in, and the
    query is empty and the list closed. *)
Theorem init_establishes_invariants
    net root defaultCountryCode input pending d n t dl l tpl :
  toggleOf root = Some t → dropdownListOf root = Some dl → listOf root = Some l →
  querySelectorMarker n d l "item" = Some tpl →
  tpl ∈ children (d l) →
  is_Some (flag (d tpl)) → is_Some (valueEl (d tpl)) →
  dropdownElements.dropdownItemSelected ∉ classList (d tpl) →
  l < n → tpl < n → tpl ≠ l → t ≠ l → t ≠ tpl →
  let s' := ((constructor root input;; initWhile net defaultCountryCode pending)
               (freshState d n)).2 in
  listening s' = true ∧ observing s' = true ∧
  country <$> items s' = fetchedCountries net ∧
  NoDup (element <$> items s') ∧
  focusTracked s' ∧
  onlySelectedMarked s' ∧
  alphanumeric (searchQuery s') = true ∧
  (pending = [] →
   s' = (newPhonePrefix net root defaultCountryCode input (freshState d n)).2
   ∧ searchQuery s' = "" ∧ listIsOpen s' = false).
Proof.
  intros Ht Hdl Hl Hq Hin Hflag Hvalue Hclass Hln Htn Htl Httl Htt.
  cbv zeta. unfold newPhonePrefix.
  destruct (constructor_state root input d n t l tpl Ht Hq Httl Htt)
    as (s0 & R0 & F0 & Hn0l & Hn0t & Hq0).
  rewrite !bind_run, R0.
  assert (listEl s0 = Some l ∧ dropdownList s0 = Some dl ∧ nextHandle s0 = n)
    as (Hl0 & Hdl0 & Hnext0).
  { rewrite F0. fields. by rewrite Hl, Hdl. }
  destruct (initSetup_run net s0 l dl tpl)
    as (located & s1 & R1 & F1 & Hi1 & Hl1 & Ho1 & Hn1);
    [done|done|done|by rewrite Hn0l|by rewrite Hn0t|by rewrite Hn0t|lia|lia|done|].
  rewrite Hnext0 in Hi1, Hn1.
  rewrite <- (initWhile_nil net defaultCountryCode s0).
  rewrite !initWhile_after_setup, R1. cbv zeta.
  (* the state when the location is requested *)
  assert (focusTracked s1) as Hf1.
  { unfold focusTracked. apply (f_equal focusedItem) in F1 as Hfoc.
    apply (f_equal activeElement) in F1 as Hact. cbn in Hfoc, Hact.
    rewrite Hfoc, Hact, F0. by fields. }
  assert (onlySelectedMarked s1) as Hm1.
  { intros x Hx Hmarked. exfalso. rewrite Hi1 in Hx.
    apply renderedItems_elem in Hx as (i & c & Hc & ->).
    unfold marked in Hmarked. cbn [element] in Hmarked.
    rewrite (Hn1 i c Hc), Hn0t in Hmarked. by apply Hclass. }
  assert (searchQuery s1 = "" ∧ listIsOpen s1 = false) as [Hq1 Hopen1].
  { apply (f_equal searchQuery) in F1 as Hsq. apply (f_equal listIsOpen) in F1 as Hop.
    cbn in Hsq, Hop. rewrite Hsq, Hop, F0. by fields. }
  assert (country <$> items s1 = fetchedCountries net ∧ NoDup (element <$> items s1))
    as [Hc1 Hnd1].
  { rewrite Hi1, renderedItems_countries, renderedItems_elements.
    split; [done|apply NoDup_seq]. }
  (* the events handled while the location is awaited *)
  pose proof (preserves_reactAll eventFrame eventFrame_refl eventFrame_trans
                eventFrame_react pending s1) as E.
  destruct (preserves_reactAll keepsFocusTracked keepsFocusTracked_refl
              keepsFocusTracked_trans keepsFocusTracked_react pending s1)
    as (_ & _ & Hf2).
  destruct (preserves_reactAll keepsOnlySelectedMarked keepsOnlySelectedMarked_refl
              keepsOnlySelectedMarked_trans keepsOnlySelectedMarked_react pending s1)
    as [_ Hm2].
  pose proof (preserves_reactAll keepsAlphanumeric keepsAlphanumeric_refl
                keepsAlphanumeric_trans keepsAlphanumeric_react pending s1) as Ha2.
  unfold keepsAlphanumeric in Ha2. rewrite Hq1 in Ha2.
  set (s2 := (reactAll pending s1).2) in *.
  assert (items s2 = items s1) as Hi2 by (by apply (f_equal items) in E).
  assert (listening s2 = true) as Hl2
    by (apply (f_equal listening) in E; cbn in E; congruence).
  assert (observing s2 = true) as Ho2
    by (apply (f_equal observing) in E; cbn in E; congruence).
  change (reactAll [] s1).2 with s1.
  assert (∀ sel : option DropdownItem,
    let r := match sel with
             | Some selectedCountry => handleItemSelect selectedCountry s2
             | None => (Ret tt, s2)
             end in
    listening r.2 = true ∧ observing r.2 = true ∧ items r.2 = items s1
    ∧ focusTracked r.2 ∧ onlySelectedMarked r.2
    ∧ searchQuery r.2 = searchQuery s2 ∧ listIsOpen r.2 = listIsOpen s2) as Hsel.
  { intros [selected|]; cbv zeta; cbn [snd].
    - pose proof (eventFrame_handleItemSelect selected s2) as F.
      pose proof (keepsFocusTracked_handleItemSelect selected s2) as (_ & _ & Hf).
      pose proof (keepsOnlySelectedMarked_handleItemSelect selected s2) as [_ Hm].
      pose proof (sameQuery_handleItemSelect selected s2) as Hsq.
      pose proof (sameOpen_handleItemSelect selected s2) as Hop.
      set (s3 := (handleItemSelect selected s2).2) in *.
      split_and!.
      + apply (f_equal listening) in F. cbn in F. congruence.
      + apply (f_equal observing) in F. cbn in F. congruence.
      + apply (f_equal items) in F. cbn in F. congruence.
      + apply Hf; [done|]. by apply Hf2.
      + by apply Hm, Hm2.
      + done.
      + done.
    - split_and!; [done|done|done|by apply Hf2|by apply Hm2|done|done]. }
  destruct (Hsel (List.find (hasCode (effectiveCode located defaultCountryCode))
                    (items s2)))
    as (Hl3 & Ho3 & Hi3 & Hf3 & Hm3 & Hq3 & _).
  split_and!; [done|done|by rewrite Hi3|by rewrite Hi3|done|done| |].
  - rewrite Hq3. by apply Ha2.
  - intros ->. subst s2. change (reactAll [] s1).2 with s1 in *.
    split; [done|].
    destruct (Hsel (List.find (hasCode (effectiveCode located defaultCountryCode))
                      (items s1))) as (_ & _ & _ & _ & _ & Hq4 & Hop4).
    by rewrite Hq4, Hop4.
Qed.

Lemma init_establishes_invariants_witness :
  querySelectorMarker 6 Sample.page 3 "item" = Some 4 ∧
  children (Sample.page 3) = [4] ∧
  let s' := ((constructor Sample.root (Some 5);;
              initWhile (Sample.net (Some Sample.traceFR)) (Some "US") Scenario.typing)
               (freshState Sample.page 6)).2 in
  listening s' = true ∧
  country <$> items s' = [Sample.us; Sample.fr; Sample.bs] ∧
  NoDup (element <$> items s') ∧
  focusTracked s' ∧
  onlySelectedMarked s' ∧
  searchQuery s' = "fr1" ∧
  selectedItem s' = Some (mkItem 7 Sample.fr).
Proof.
  assert (querySelectorMarker 6 Sample.page 3 "item" = Some 4) as Hq
    by (vm_compute; reflexivity).
  assert (4 ∈ children (Sample.page 3)) as Hin by apply list_elem_of_here.
  assert (is_Some (flag (Sample.page 4))) as Hflag by (vm_compute; eexists; reflexivity).
  assert (is_Some (valueEl (Sample.page 4))) as Hvalue
    by (vm_compute; eexists; reflexivity).
  assert (dropdownElements.dropdownItemSelected ∉ classList (Sample.page 4)) as Hclass
    by (apply (bool_decide_unpack _); vm_compute; reflexivity).
  destruct (init_establishes_invariants (Sample.net (Some Sample.traceFR)) Sample.root
              (Some "US") (Some 5) Scenario.typing Sample.page 6 1 2 3 4
              eq_refl eq_refl eq_refl Hq Hin Hflag Hvalue Hclass)
    as (Hl & _ & Hc & Hnd & Hf & Hm & _); [lia..|].
  split; [exact Hq|]. split; [reflexivity|]. cbv zeta.
  split; [exact Hl|]. split; [exact Hc|].
  split; [exact Hnd|]. split; [exact Hf|]. split; [exact Hm|].
  split; vm_compute; reflexivity.
Defined.

(** ** When the country service fails *)

Lemma getsDropdownList_run s dl :
  dropdownList s = Some dl →
  (gets dropdownList ≫= deref "dropdownList") s = (Ret dl, s).
Proof. intros H. rewrite bind_run. unfold gets. by rewrite H. Qed.

Lemma onDropdownListMutation_nothing_to_focus s dl :
  dropdownList s = Some dl →
  dropdownElements.dropdownListOpen ∈ classList (nodes s dl) →
  selectedItem s = None → items s = [] →
  onDropdownListMutation s
  = (Threw (TypeError "items[0]"), setSearchQuery "" (setListIsOpen true s)).
Proof.
  intros Hdl Hopen Hsel Hitems. unfold onDropdownListMutation. unfold_m.
  rewrite Hdl. fields. rewrite bool_decide_eq_true_2 by done. fields.
  rewrite Hsel. fields. by rewrite Hitems.
Qed.

(** X10.  When the request for the countries fails, on a page that has all
    its elements, the template item a child of the list container,
    construction still ends normally, with the listeners installed, but with
    no item at all and nothing selected, whatever the location and the
    default are; and the first time the host page opens the list, the
    observer's callback throws a [TypeError], as there is no [items[0]] to
    focus. *)
Theorem failed_country_fetch_breaks_opening
    net root defaultCountryCode input d n t dl l tpl :
  fetchedCountries net = [] →
  toggleOf root = Some t → dropdownListOf root = Some dl → listOf root = Some l →
  querySelectorMarker n d l "item" = Some tpl →
  tpl ∈ children (d l) →
  is_Some (flag (d tpl)) → is_Some (valueEl (d tpl)) →
  l < n → tpl < n → tpl ≠ l → t ≠ l → t ≠ tpl →
  let r := newPhonePrefix net root defaultCountryCode input (freshState d n) in
  r.1 = Ret tt ∧ items r.2 = [] ∧ selectedItem r.2 = None ∧
  listening r.2 = true ∧ observing r.2 = true ∧
  ((hostSetsOpen true;; onDropdownListMutation) r.2).1 = Threw (TypeError "items[0]").
Proof.
  intros Hnone Ht Hdl Hl Hq Hin Hflag Hvalue Hln Htn Htl Httl Htt.
  cbv zeta. unfold newPhonePrefix.
  destruct (constructor_state root input d n t l tpl Ht Hq Httl Htt)
    as (s0 & R0 & F0 & Hn0l & Hn0t & Hq0).
  rewrite bind_run, R0.
  assert (listEl s0 = Some l ∧ dropdownList s0 = Some dl ∧ nextHandle s0 = n
          ∧ selectedItem s0 = None) as (Hl0 & Hdl0 & Hnext0 & Hsel0).
  { rewrite F0. fields. by rewrite Hl, Hdl. }
  destruct (initSetup_run net s0 l dl tpl) as (located & s1 & R1 & F1 & Hi1 & Hl1 & Ho1 & _);
    [done|done|done|by rewrite Hn0l|by rewrite Hn0t|by rewrite Hn0t|lia|lia|done|].
  rewrite Hnone in Hi1. cbn in Hi1.
  rewrite init_after_setup, R1, Hi1. cbn [List.find fst snd].
  assert (selectedItem s1 = None) as Hs1
    by (apply (f_equal selectedItem) in F1; cbn in F1; congruence).
  assert (dropdownList s1 = Some dl) as Hd1
    by (apply (f_equal dropdownList) in F1; cbn in F1; congruence).
  split_and!; [done..|].
  unfold hostSetsOpen. rewrite bind_run, bind_run, (getsDropdownList_run _ _ Hd1).
  unfold updEl at 1, modify at 1. cbv beta iota.
  rewrite (onDropdownListMutation_nothing_to_focus _ dl); [done|done| |done|done].
  fields. rewrite fn_lookup_insert. cbn [classList setClassList].
  by apply elem_of_union_l, elem_of_singleton.
Qed.

Lemma failed_country_fetch_breaks_opening_witness :
  fetchedCountries Broken.netDown = [] ∧
  let r := newPhonePrefix Broken.netDown Sample.root (Some "US") (Some 5)
             (freshState Sample.page 6) in
  items r.2 = [] ∧
  ((hostSetsOpen true;; onDropdownListMutation) r.2).1 = Threw (TypeError "items[0]").
Proof.
  assert (querySelectorMarker 6 Sample.page 3 "item" = Some 4) as Hq
    by (vm_compute; reflexivity).
  assert (4 ∈ children (Sample.page 3)) as Hin by apply list_elem_of_here.
  assert (is_Some (flag (Sample.page 4))) as Hflag by (vm_compute; eexists; reflexivity).
  assert (is_Some (valueEl (Sample.page 4))) as Hvalue
    by (vm_compute; eexists; reflexivity).
  split; [reflexivity|].
  destruct (failed_country_fetch_breaks_opening Broken.netDown Sample.root
              (Some "US") (Some 5) Sample.page 6 1 2 3 4
              eq_refl eq_refl eq_refl eq_refl Hq Hin Hflag Hvalue)
    as (_ & Hi & _ & _ & _ & Hthrow); [lia..|].
  cbv zeta. split; [exact Hi|exact Hthrow].
Defined.

(** ** Selecting twice, and selecting with a broken toggle *)

(** The first three steps of [handleItemSelect] on an item that is not the
    selection: the marks are moved and the item is the selection; the rest
    of the method starts from there. *)
Lemma handleItemSelect_marks item s :
  isSelectedItem (selectedItem s) item = false →
  ∃ s2, nodesOnly s s2
    ∧ nodesBy (λ h e,
         let e1 := match selectedItem s with
                   | Some previous =>
                       if decide (h = element previous) then markSelected false e else e
                   | None => e
                   end in
         if decide (h = element item) then markSelected true e1 else e1) s s2
    ∧ handleItemSelect item s =
        ((gets dropdownToggle ≫= updateDropdownToggle item);;
         input ← gets countryCodeInput;
         match input with
         | Some i => updEl i (setInputValue (cca2 (country item)))
         | None => mret tt
         end;;
         open ← gets listIsOpen;
         when open (closeDropdown true)) (setSelectedItem (Some item) s2).
Proof.
  intros Hsel. unfold handleItemSelect. rewrite bind_run. unfold gets at 1. cbv beta iota.
  rewrite Hsel. unfold unless.
  assert (∃ s1, match selectedItem s with
                | Some previous => toggleItemSelected previous false
                | None => mret tt
                end s = (Ret tt, s1) ∧ nodesOnly s s1
                ∧ nodesBy (λ h e, match selectedItem s with
                                  | Some previous =>
                                      if decide (h = element previous)
                                      then markSelected false e else e
                                  | None => e
                                  end) s s1) as (s1 & R1 & O1 & N1).
  { destruct (selectedItem s) as [previous|].
    - apply toggleItemSelected_spec.
    - exists s. split; [done|]. split; [apply nodesOnly_refl|done]. }
  rewrite bind_run, R1.
  destruct (toggleItemSelected_spec item true s1) as (s2 & R2 & O2 & N2).
  rewrite bind_run, R2. rewrite bind_run. unfold modify at 1. cbv beta iota.
  exists s2. split; [by eapply nodesOnly_trans|]. split; [|done].
  intros h. by rewrite N2, N1.
Qed.

Lemma handleItemSelect_selected item s :
  isSelectedItem (selectedItem s) item = false →
  selectedItem (handleItemSelect item s).2 = Some item.
Proof.
  intros Hsel. destruct (handleItemSelect_marks item s Hsel) as (s2 & _ & _ & ->).
  match goal with
  | |- selectedItem (?m ?s3).2 = _ =>
      assert (preserves sameMarks m) as Hm
  end.
  { marks_steps; intros;
      first [apply sameMarks_updateDropdownToggle | apply sameMarks_closeDropdown]. }
  destruct (Hm (setSelectedItem (Some item) s2)) as (_ & -> & _). reflexivity.
Qed.

(** X11.  Selecting is idempotent: running [handleItemSelect] on an item
    twice in a row gives the result and the state of running it once,
    whatever the state of the page; the second run finds the item selected
    and does nothing, and a first run that throws is not followed by a
    second. *)
Theorem handleItemSelect_twice item s :
  (handleItemSelect item;; handleItemSelect item) s = handleItemSelect item s.
Proof.
  rewrite bind_run.
  destruct (isSelectedItem (selectedItem s) item) eqn:Hsel.
  - rewrite handleItemSelect_same by done. by rewrite handleItemSelect_same.
  - pose proof (handleItemSelect_selected item s Hsel) as Hs.
    destruct (handleItemSelect item s) as [[[]|e] s']; [|done].
    cbn [snd] in Hs. apply handleItemSelect_same. rewrite Hs. cbn.
    unfold sameItem. by apply bool_decide_eq_true.
Qed.

(** X12.  A toggle without its flag image makes [handleItemSelect] throw
    half way: the marks have moved and the item is the selection, but the
    toggle still shows what it showed, the bound input keeps its value and
    the list is not closed. *)
Theorem select_with_toggle_without_flag item s t :
  isSelectedItem (selectedItem s) item = false →
  dropdownToggle s = Some t →
  flag (nodes s t) = None →
  ∃ s', handleItemSelect item s = (Threw (TypeError "dropdownToggleFlag"), s')
    ∧ selectedItem s' = Some item
    ∧ marked s' item
    ∧ (∀ previous, selectedItem s = Some previous → ¬ marked s' previous)
    ∧ valueEl (nodes s' t) = valueEl (nodes s t)
    ∧ (∀ h, inputValue (nodes s' h) = inputValue (nodes s h))
    ∧ effects s' = effects s
    ∧ listIsOpen s' = listIsOpen s.
Proof.
  intros Hsel Ht Hflag.
  destruct (handleItemSelect_marks item s Hsel) as (s2 & O & N & ->).
  assert (dropdownToggle s2 = Some t) as Ht2.
  { apply (f_equal dropdownToggle) in O. cbn in O. congruence. }
  assert (flag (nodes s2 t) = None) as Hflag2.
  { rewrite N. cbv zeta. destruct (selectedItem s) as [previous|];
      repeat (match goal with |- context [decide ?P] => destruct (decide P) end); done. }
  exists (setSelectedItem (Some item) s2). split.
  { rewrite bind_run, bind_run. unfold gets at 1. cbv beta iota.
    cbn [dropdownToggle setSelectedItem]. rewrite Ht2.
    unfold updateDropdownToggle. cbv zeta. cbn [deref].
    rewrite bind_run. unfold mret at 1, M_ret at 1. cbv beta iota.
    rewrite bind_run, setFlagSrc_none; [done|]. by fields. }
  assert (∀ previous, selectedItem s = Some previous → element previous ≠ element item)
    as Hprev.
  { intros previous Hp. rewrite Hp in Hsel. cbn in Hsel. unfold sameItem in Hsel.
    by apply bool_decide_eq_false in Hsel. }
  fields. split_and!.
  - done.
  - unfold marked. fields. rewrite N. cbv zeta. rewrite (decide_True _ _ eq_refl).
    by apply elem_of_union_l, elem_of_singleton.
  - intros previous Hp. unfold marked. fields. rewrite N, Hp. cbv zeta.
    rewrite (decide_True _ _ eq_refl), (decide_False _ _ (Hprev _ Hp)).
    cbn [classList markSelected setAttributes setClassList].
    rewrite elem_of_difference, elem_of_singleton. by intros [_ ?].
  - rewrite N. cbv zeta. destruct (selectedItem s) as [previous|];
      repeat (match goal with |- context [decide ?P] => destruct (decide P) end); done.
  - intros h. rewrite N. cbv zeta. destruct (selectedItem s) as [previous|];
      repeat (match goal with |- context [decide ?P] => destruct (decide P) end); done.
  - by apply (f_equal effects) in O.
  - by apply (f_equal listIsOpen) in O.
Qed.

Lemma select_with_toggle_without_flag_witness :
  selectedItem Broken.readyToggleNoFlag = None ∧
  flag (nodes Broken.readyToggleNoFlag 1) = None ∧
  ∃ s', handleItemSelect (mkItem 7 Sample.fr) Broken.readyToggleNoFlag
          = (Threw (TypeError "dropdownToggleFlag"), s')
        ∧ selectedItem s' = Some (mkItem 7 Sample.fr)
        ∧ inputValue (nodes s' 5) = "".
Proof.
  assert (isSelectedItem (selectedItem Broken.readyToggleNoFlag) (mkItem 7 Sample.fr)
          = false) as Hsel by (vm_compute; reflexivity).
  assert (dropdownToggle Broken.readyToggleNoFlag = Some 1) as Ht
    by (vm_compute; reflexivity).
  assert (flag (nodes Broken.readyToggleNoFlag 1) = None) as Hflag
    by (vm_compute; reflexivity).
  split; [vm_compute; reflexivity|]. split; [exact Hflag|].
  destruct (select_with_toggle_without_flag (mkItem 7 Sample.fr)
              Broken.readyToggleNoFlag 1 Hsel Ht Hflag)
    as (s' & R & Hs' & _ & _ & _ & Hin & _).
  exists s'. split; [exact R|]. split; [exact Hs'|].
  rewrite (Hin 5). vm_compute. reflexivity.
Defined.

(** ** A template item without its flag image *)

Lemma createCountryItem_no_flag c tpl s :
  flag (nodes s tpl) = None →
  createCountryItem c tpl s =
    (Threw (TypeError "flag"),
     setNextHandle (S (nextHandle s))
       (setNodes (<[nextHandle s := nodes s tpl]> (nodes s)) s)).
Proof.
  intros Hflag. unfold createCountryItem. rewrite bind_run.
  unfold cloneNode at 1. cbv beta iota zeta.
  rewrite bind_run, setFlagSrc_none; [done|].
  fields. by rewrite fn_lookup_insert.
Qed.

(** X13.  When the template item has no flag image, [init] fails on the
    first country: it throws a [TypeError] out of [createCountryItem], before
    anything is appended to the list and before [items] is assigned, so the
    children of the list are the same, no listener and no observer is
    installed and nothing is selected.  With no country at all the same page
    is rendered without that error: [renderOptions] then goes straight to
    the removal of the template, which succeeds when the template is a child
    of the list and throws a [NotFoundError] when it is not. *)
Theorem init_with_template_without_flag net defaultCountryCode s l tpl c countries :
  fetchedCountries net = c :: countries →
  listEl s = Some l →
  querySelectorMarker (nextHandle s) (nodes s) l "item" = Some tpl →
  flag (nodes s tpl) = None →
  l < nextHandle s →
  ∃ s', init net defaultCountryCode s = (Threw (TypeError "flag"), s')
    ∧ items s' = items s
    ∧ children (nodes s' l) = children (nodes s l)
    ∧ listening s' = listening s ∧ observing s' = observing s
    ∧ selectedItem s' = selectedItem s
    ∧ (renderOptions [] s).1 =
        if bool_decide (tpl ∈ children (nodes s l)) then Ret tt else Threw NotFoundError.
Proof.
  intros Hnet Hlist Hq Hflag Hl.
  eexists. split.
  { unfold init. rewrite bind_run, fetchCountries_run, Hnet. unfold addEffect.
    rewrite bind_run. unfold renderOptions at 1.
    rewrite bind_run, (bind_run (gets listEl)). unfold gets at 1. cbv beta iota.
    cbn [listEl setEffects]. rewrite Hlist. cbn [deref].
    unfold mret at 1, M_ret at 1. cbv beta iota.
    rewrite bind_run. unfold gets at 1. cbv beta iota.
    cbn [nodes nextHandle setEffects]. rewrite Hq.
    rewrite bind_run, mapM_cons_run. rewrite bind_run.
    rewrite createCountryItem_no_flag by done. reflexivity. }
  fields. rewrite fn_lookup_insert_ne by lia.
  split_and!; try done.
  unfold renderOptions. rewrite bind_run, (bind_run (gets listEl)).
  unfold gets at 1. cbv beta iota. rewrite Hlist. cbn [deref].
  unfold mret at 1, M_ret at 1. cbv beta iota.
  rewrite bind_run. unfold gets at 1. cbv beta iota. rewrite Hq.
  rewrite bind_run. cbn [mapM]. unfold mret at 1, M_ret at 1. cbv beta iota.
  rewrite bind_run. unfold modify at 1. cbv beta iota.
  unfold removeChild. rewrite bind_run. unfold gets at 1. cbv beta iota.
  cbn [nodes setItems]. by case_bool_decide.
Qed.

Lemma init_with_template_without_flag_witness :
  flag (nodes Broken.constructedTemplateNoFlag 4) = None ∧
  ∃ s', init (Sample.net None) (Some "US") Broken.constructedTemplateNoFlag
          = (Threw (TypeError "flag"), s')
        ∧ items s' = [] ∧ listening s' = false ∧ children (nodes s' 3) = [4].
Proof.
  assert (listEl Broken.constructedTemplateNoFlag = Some 3) as Hl
    by (vm_compute; reflexivity).
  assert (querySelectorMarker (nextHandle Broken.constructedTemplateNoFlag)
            (nodes Broken.constructedTemplateNoFlag) 3 "item" = Some 4)
    as Hq by (vm_compute; reflexivity).
  assert (flag (nodes Broken.constructedTemplateNoFlag 4) = None) as Hflag
    by (vm_compute; reflexivity).
  assert (3 < nextHandle Broken.constructedTemplateNoFlag) as Hlt
    by (vm_compute; lia).
  split; [exact Hflag|].
  destruct (init_with_template_without_flag (Sample.net None) (Some "US")
              Broken.constructedTemplateNoFlag 3 4 Sample.us [Sample.fr; Sample.bs]
              eq_refl Hl Hq Hflag Hlt)
    as (s' & R & Hi & Hc & Hli & _).
  exists s'. split; [exact R|]. split; [exact Hi|]. split; [exact Hli|exact Hc].
Defined.

(** ** A template item that is not a child of the list *)

(** X14.  [renderOptions] looks for the template item among all the
    descendants of the list container, but removes it as a child of the
    container.  When the template item is deeper in the list, with its flag
    and value parts, the items are made, their elements appended to the
    container and [items] assigned, and then the removal throws a
    [NotFoundError]: [init] stops there, before any listener is installed. *)
Theorem renderOptions_nested_template net defaultCountryCode s l tpl :
  listEl s = Some l →
  querySelectorMarker (nextHandle s) (nodes s) l "item" = Some tpl →
  tpl ∉ children (nodes s l) →
  is_Some (flag (nodes s tpl)) → is_Some (valueEl (nodes s tpl)) →
  l < nextHandle s → tpl < nextHandle s → tpl ≠ l →
  (∀ countries,
     ∃ s', renderOptions countries s = (Threw NotFoundError, s')
       ∧ items s' = renderedItems (nextHandle s) countries
       ∧ children (nodes s' l)
         = children (nodes s l) ++ seq (nextHandle s) (length countries))
  ∧ ∃ s', init net defaultCountryCode s = (Threw NotFoundError, s')
       ∧ items s' = renderedItems (nextHandle s) (fetchedCountries net)
       ∧ listening s' = listening s ∧ observing s' = observing s
       ∧ selectedItem s' = selectedItem s.
Proof.
  intros Hlist Hq Hout Hflag Hvalue Hl Htpl Hne.
  assert (∀ countries s0,
    listEl s0 = Some l → nodes s0 = nodes s → nextHandle s0 = nextHandle s →
    ∃ s', renderOptions countries s0 = (Threw NotFoundError, s')
      ∧ items s' = renderedItems (nextHandle s) countries
      ∧ children (nodes s' l)
        = children (nodes s l) ++ seq (nextHandle s) (length countries)
      ∧ listening s' = listening s0 ∧ observing s' = observing s0
      ∧ selectedItem s' = selectedItem s0) as Hrender.
  { intros countries s0 Hlist0 Hn0 Hnext0.
    destruct (renderOptions_to_removal countries s0 l tpl)
      as (s1 & -> & O1 & Hl1 & _); rewrite ?Hn0, ?Hnext0; [done..|].
    rewrite Hn0, Hnext0 in Hl1.
    unfold removeChild. rewrite bind_run. unfold gets at 1. cbv beta iota.
    change (nodes (setItems (renderedItems (nextHandle s) countries) s1) l)
      with (nodes s1 l).
    rewrite Hl1. cbn [children setChildren].
    rewrite bool_decide_eq_false_2.
    - eexists. split; [reflexivity|]. fields. rewrite Hl1. cbn [children setChildren].
      split_and!; [done|done|..].
      + by apply (f_equal listening) in O1.
      + by apply (f_equal observing) in O1.
      + by apply (f_equal selectedItem) in O1.
    - intros [H|H]%elem_of_app; [done|]. apply elem_of_seq in H. lia. }
  split.
  - intros countries. destruct (Hrender countries s Hlist eq_refl eq_refl)
      as (s' & R & Hi & Hc & _). by exists s'.
  - unfold init. rewrite bind_run, fetchCountries_run.
    destruct (Hrender (fetchedCountries net) (addEffect (Fetched countriesUrl) s))
      as (s' & R & Hi & _ & Hli & Ho & Hsel); [done..|].
    rewrite bind_run, R. by exists s'.
Qed.

Lemma renderOptions_nested_template_witness :
  querySelectorMarker 7 (nodes Broken.constructedNestedTemplate) 3 "item" = Some 6 ∧
  children (nodes Broken.constructedNestedTemplate 3) = [4] ∧
  ∃ s', init (Sample.net None) (Some "US") Broken.constructedNestedTemplate
          = (Threw NotFoundError, s')
        ∧ items s' = [mkItem 7 Sample.us; mkItem 8 Sample.fr; mkItem 9 Sample.bs]
        ∧ listening s' = false.
Proof.
  assert (listEl Broken.constructedNestedTemplate = Some 3) as Hl
    by (vm_compute; reflexivity).
  assert (nextHandle Broken.constructedNestedTemplate = 7) as Hn
    by (vm_compute; reflexivity).
  assert (querySelectorMarker 7 (nodes Broken.constructedNestedTemplate) 3 "item"
          = Some 6) as Hq by (vm_compute; reflexivity).
  assert (children (nodes Broken.constructedNestedTemplate 3) = [4]) as Hc
    by (vm_compute; reflexivity).
  assert (6 ∉ children (nodes Broken.constructedNestedTemplate 3)) as Hout.
  { rewrite Hc. intros H. apply elem_of_cons in H as [H|H]; [discriminate H|].
    apply elem_of_nil in H. destruct H. }
  assert (is_Some (flag (nodes Broken.constructedNestedTemplate 6))) as Hflag
    by (vm_compute; eexists; reflexivity).
  assert (is_Some (valueEl (nodes Broken.constructedNestedTemplate 6))) as Hvalue
    by (vm_compute; eexists; reflexivity).
  split; [exact Hq|]. split; [exact Hc|].
  destruct (renderOptions_nested_template (Sample.net None) (Some "US")
              Broken.constructedNestedTemplate 3 6 Hl) as [_ (s' & R & Hi & Hli & _)].
  { rewrite Hn. exact Hq. } { exact Hout. } { exact Hflag. } { exact Hvalue. }
  { rewrite Hn. lia. } { rewrite Hn. lia. } { lia. }
  exists s'. split; [exact R|]. split.
  - rewrite Hi, Hn. reflexivity.
  - rewrite Hli. vm_compute. reflexivity.
Defined.
